(** * dqlite: the in-memory VFS (vfs.c) and the page-size codec (format.c)

    A shallow embedding of the volatile file system that dqlite registers
    with SQLite: the byte-range lock table of the shared-memory mapping, the
    per-file read / truncate / write / file-control entry points, the
    registry of file contents (open, delete, access, last error), and the
    page-size decoder of format.c.

    Conventions.
    - C [int], [unsigned] and [sqlite_int64] values are [Z]; where the code
      relies on 32-bit unsigned wrap-around the reduction modulo 2^32 is
      written out.
    - Buffers are [list byte].  A C array paired with its length
      ([pages]/[n_pages], [contents]/[n_contents]) is a list.
    - A call either returns or does not return at all (a failed [assert], or
      an access outside an allocated buffer): this is the [outcome] monad.
      Assertions are taken as compiled in, as in the debug build that the
      project's continuous integration runs.
    - Allocation is assumed to succeed, except where the requested size is
      not positive. *)

From Stdlib Require Import ZArith String Ascii Strings.Byte Bool Lia.
From stdpp Require Import base list list_numbers.

Local Open Scope Z_scope.

(** ** Calls that may not return *)

Inductive outcome (A : Type) : Type :=
| Returns (a : A)
| Aborts.
Arguments Returns {A} a.
Arguments Aborts {A}.

#[global] Instance outcome_ret : MRet outcome := fun _ a => Returns a.
#[global] Instance outcome_bind : MBind outcome := fun _ _ f m =>
  match m with
  | Returns a => f a
  | Aborts => Aborts
  end.

(** [assert(b)] *)
Definition assert (b : bool) : outcome unit :=
  if b then Returns tt else Aborts.

(** Control flow of a loop body: go on with the next iteration, or leave the
    enclosing function with a value ([return] inside the loop). *)
Inductive ctl (S R : Type) : Type :=
| Continue (s : S)
| Return (r : R).
Arguments Continue {S R} s.
Arguments Return {S R} r.

(** [for (i = start; i < start + count; i++) body] *)
Fixpoint for_range {S R : Type} (body : Z -> S -> outcome (ctl S R))
    (i : Z) (count : nat) (s : S) : outcome (ctl S R) :=
  match count with
  | O => Returns (Continue s)
  | Datatypes.S k =>
      c ← body i s;
      match c with
      | Continue s' => for_range body (i + 1) k s'
      | Return r => Returns (Return r)
      end
  end.

(** ** Constants of sqlite3.h and errno.h *)

Definition SQLITE_OK : Z := 0.
Definition SQLITE_BUSY : Z := 5.
Definition SQLITE_NOMEM : Z := 7.
Definition SQLITE_IOERR : Z := 10.
Definition SQLITE_CORRUPT : Z := 11.
Definition SQLITE_NOTFOUND : Z := 12.
Definition SQLITE_CANTOPEN : Z := 14.
Definition SQLITE_PROTOCOL : Z := 15.
Definition SQLITE_IOERR_READ : Z := Z.lor SQLITE_IOERR (Z.shiftl 1 8).
Definition SQLITE_IOERR_SHORT_READ : Z := Z.lor SQLITE_IOERR (Z.shiftl 2 8).
Definition SQLITE_IOERR_WRITE : Z := Z.lor SQLITE_IOERR (Z.shiftl 3 8).
Definition SQLITE_IOERR_FSYNC : Z := Z.lor SQLITE_IOERR (Z.shiftl 4 8).
Definition SQLITE_IOERR_TRUNCATE : Z := Z.lor SQLITE_IOERR (Z.shiftl 6 8).
Definition SQLITE_IOERR_DELETE : Z := Z.lor SQLITE_IOERR (Z.shiftl 10 8).
Definition SQLITE_IOERR_DELETE_NOENT : Z := Z.lor SQLITE_IOERR (Z.shiftl 23 8).

Definition SQLITE_OPEN_CREATE : Z := 4.
Definition SQLITE_OPEN_DELETEONCLOSE : Z := 8.
Definition SQLITE_OPEN_EXCLUSIVE : Z := 16.
Definition SQLITE_OPEN_MAIN_DB : Z := 256.
Definition SQLITE_OPEN_MAIN_JOURNAL : Z := 2048.
Definition SQLITE_OPEN_WAL : Z := 524288.

Definition SQLITE_SHM_UNLOCK : Z := 1.
Definition SQLITE_SHM_LOCK : Z := 2.
Definition SQLITE_SHM_SHARED : Z := 4.
Definition SQLITE_SHM_EXCLUSIVE : Z := 8.

Definition ENOENT : Z := 2.
Definition ENOMEM : Z := 12.
Definition EBUSY : Z := 16.
Definition EEXIST : Z := 17.

(** [flags & BIT] used as a C truth value. *)
Definition flag_set (flags bit : Z) : bool := negb (Z.land flags bit =? 0).

(** Arithmetic of [unsigned]. *)
Definition UINT_MODULUS : Z := 2 ^ 32.
Definition uint (x : Z) : Z := x mod UINT_MODULUS.

(** Conversion to [int]. *)
Definition to_int (x : Z) : Z := (x + 2 ^ 31) mod 2 ^ 32 - 2 ^ 31.

(** ** Buffers *)

(** Value of a [uint8_t]. *)
Definition byte_val (b : byte) : Z := Z.of_N (Byte.to_N b).

(** [buf[i]] of a byte buffer. *)
Definition read_u8 (buf : list byte) (i : nat) : outcome Z :=
  match buf !! i with
  | Some b => Returns (byte_val b)
  | None => Aborts
  end.

(** The [amount] bytes that [memcpy(dst, src + off, amount)] copies. *)
Definition memcpy_from (src : list byte) (off amount : Z) : outcome (list byte) :=
  if (0 <=? off) && (0 <=? amount) && (off + amount <=? Z.of_nat (length src))
  then Returns (take (Z.to_nat amount) (drop (Z.to_nat off) src))
  else Aborts.

(** [dst] after [memcpy(dst, src, amount)]. *)
Definition memcpy_into (dst src : list byte) (amount : Z) : outcome (list byte) :=
  if (0 <=? amount) && (amount <=? Z.of_nat (length src))
     && (amount <=? Z.of_nat (length dst))
  then Returns (take (Z.to_nat amount) src ++ drop (Z.to_nat amount) dst)
  else Aborts.

(** [memset(buf, 0, amount)] *)
Definition zeros (amount : Z) : list byte := replicate (Z.to_nat amount) x00.

(** ** format.h and format.c *)

(** The sizes and bounds below are macros of format.h, which is not among
    the sources; each is taken from the spec. *)

(** Modelled from the spec: macro of format.h; the WAL header has 32 bytes. *)
Definition FORMAT__WAL_HDR_SIZE : Z := 32.

(** Modelled from the spec: macro of format.h; a WAL frame header has 24
    bytes. *)
Definition FORMAT__WAL_FRAME_HDR_SIZE : Z := 24.

(** Modelled from the spec: macro of format.h; the database header has 100
    bytes. *)
Definition FORMAT__DB_HDR_SIZE : Z := 100.

(** Modelled from the spec: macro of format.h; the smallest page size is
    512. *)
Definition FORMAT__PAGE_SIZE_MIN : Z := 512.

(** Modelled from the spec: macro of format.h; the largest page size is
    65536. *)
Definition FORMAT__PAGE_SIZE_MAX : Z := 65536.

(** Modelled from the spec: the two file formats that format.h names
    [FORMAT__DB] and [FORMAT__WAL], a database file and a WAL file. *)
Inductive format_type : Type := FORMAT__DB | FORMAT__WAL.

(** [formatGet32]: four additions into a [uint32_t]. *)
Definition formatGet32 (buf : list byte) : outcome Z :=
  b0 ← read_u8 buf 0;
  b1 ← read_u8 buf 1;
  b2 ← read_u8 buf 2;
  b3 ← read_u8 buf 3;
  let v := 0 in
  let v := uint (v + uint (Z.shiftl b0 24)) in
  let v := uint (v + uint (Z.shiftl b1 16)) in
  let v := uint (v + uint (Z.shiftl b2 8)) in
  let v := uint (v + uint b3) in
  Returns v.

(** [formatDecodePageSize]: 0 stands for a page size out of bound. *)
Definition formatDecodePageSize (buf : list byte) : outcome Z :=
  page_size ← formatGet32 buf;
  Returns
    (if page_size =? 1 then FORMAT__PAGE_SIZE_MAX
     else if page_size <? FORMAT__PAGE_SIZE_MIN then 0
     else if FORMAT__PAGE_SIZE_MAX / 2 <? page_size then 0
     else if negb (Z.land (page_size - 1) page_size =? 0) then 0
     else page_size).

(** A byte of a header, kept as a byte. *)
Definition header_byte (header : list byte) (i : nat) : outcome byte :=
  match header !! i with
  | Some b => Returns b
  | None => Aborts
  end.

Definition formatDatabaseGetPageSize (header : list byte) : outcome Z :=
  h16 ← header_byte header 16;
  h17 ← header_byte header 17;
  formatDecodePageSize [x00; x00; h16; h17].

Definition formatWalGetPageSize (header : list byte) : outcome Z :=
  h8 ← header_byte header 8;
  h9 ← header_byte header 9;
  h10 ← header_byte header 10;
  h11 ← header_byte header 11;
  formatDecodePageSize [h8; h9; h10; h11].

(** Modelled from the spec: [format__get_page_size] is called by vfs.c but
    its body is not among the sources.  The spec has the page size decoded
    from bytes 16..18 of a database header and from bytes [8,12) of a WAL
    header, with a stored 1 meaning 65536 and any other value required to be
    a power of two in [512, 32768]: this is the decoder of format.c above,
    an out-of-bound page size being reported as an error instead of 0. *)
Definition format__get_page_size (type : format_type) (buf : list byte)
    : outcome (Z * Z) :=
  page_size ← match type with
              | FORMAT__DB => formatDatabaseGetPageSize buf
              | FORMAT__WAL => formatWalGetPageSize buf
              end;
  if page_size =? 0 then Returns (SQLITE_CORRUPT, page_size)
  else Returns (SQLITE_OK, page_size).

(** Modelled from the spec: [format__wal_calc_pgno] is a macro of format.h;
    the spec computes the page number of the frame at a WAL offset as
    (offset - 32) / (page_size + 24) + 1. *)
Definition format__wal_calc_pgno (page_size offset : Z) : Z :=
  Z.quot (offset - FORMAT__WAL_HDR_SIZE) (page_size + FORMAT__WAL_FRAME_HDR_SIZE) + 1.

(** Lower-case copy of a string, for [strcasecmp]. *)
Definition lower_ascii (a : ascii) : ascii :=
  let n := nat_of_ascii a in
  if (65 <=? n)%nat && (n <=? 90)%nat then ascii_of_nat (n + 32) else a.

Fixpoint lower_string (s : string) : string :=
  match s with
  | String a rest => String (lower_ascii a) (lower_string rest)
  | EmptyString => EmptyString
  end.

(** [atoi] of the C library, which is [(int) strtol(s, NULL, 10)]: optional
    white space, an optional sign, then decimal digits up to the first other
    character.  [strtol] yields a [long] (64 bits), the nearest bound of
    [long] when the number written does not fit, and the conversion to [int]
    keeps the low 32 bits: atoi("4294971392") is 4096. *)
Definition is_space (a : ascii) : bool :=
  let n := nat_of_ascii a in
  (n =? 32)%nat || ((9 <=? n)%nat && (n <=? 13)%nat).

Definition digit_of (a : ascii) : option Z :=
  let n := nat_of_ascii a in
  if (48 <=? n)%nat && (n <=? 57)%nat then Some (Z.of_nat n - 48) else None.

Fixpoint atoi_digits (acc : Z) (s : string) : Z :=
  match s with
  | String a rest =>
      match digit_of a with
      | Some d => atoi_digits (10 * acc + d) rest
      | None => acc
      end
  | EmptyString => acc
  end.

(** The number written at the start of a string. *)
Fixpoint number_written (s : string) : Z :=
  match s with
  | String a rest =>
      if is_space a then number_written rest
      else if Ascii.eqb a "-" then - atoi_digits 0 rest
      else if Ascii.eqb a "+" then atoi_digits 0 rest
      else atoi_digits 0 s
  | EmptyString => 0
  end.

Definition LONG_MIN : Z := - 2 ^ 63.
Definition LONG_MAX : Z := 2 ^ 63 - 1.

Definition strtol (s : string) : Z :=
  Z.max LONG_MIN (Z.min LONG_MAX (number_written s)).

Definition atoi (s : string) : Z := to_int (strtol s).

(** ** Shared memory mapping: struct vfsShm *)

Record vfsShm : Type := mk_vfsShm {
  regions : list (list byte);   (* regions, regions_len *)
  shared : list Z;              (* unsigned shared[SQLITE_SHM_NLOCK] *)
  exclusive : list Z            (* unsigned exclusive[SQLITE_SHM_NLOCK] *)
}.

(** [a[i]] for an [int] index; outside the array the access is invalid. *)
Definition array_get (a : list Z) (i : Z) : outcome Z :=
  if i <? 0 then Aborts
  else match a !! Z.to_nat i with
       | Some x => Returns x
       | None => Aborts
       end.

(** [a[i] = x] *)
Definition array_set (a : list Z) (i : Z) (x : Z) : outcome (list Z) :=
  if (0 <=? i) && (i <? Z.of_nat (length a))
  then Returns (<[Z.to_nat i := x]> a)
  else Aborts.

Section Vfs.

(** The number of lock slots is [SQLITE_SHM_NLOCK] of sqlite3.h, which is
    not part of this repository: the development is carried out for an
    arbitrary value of it. *)
Variable SQLITE_SHM_NLOCK : Z.

Definition vfsShmInit : vfsShm :=
  {| regions := [];
     shared := replicate (Z.to_nat SQLITE_SHM_NLOCK) 0;
     exclusive := replicate (Z.to_nat SQLITE_SHM_NLOCK) 0 |}.

(** [vfsShmClose]: every region is freed and the mapping re-initialised. *)
Definition vfsShmClose (s : vfsShm) : vfsShm := vfsShmInit.

(** [these_locks] / [other_locks] of the unlock path: the array selected by
    [is_shared], and the store through that pointer. *)
Definition locks_of (is_shared : bool) (s : vfsShm) : list Z :=
  if is_shared then shared s else exclusive s.

Definition set_locks_of (is_shared : bool) (a : list Z) (s : vfsShm) : vfsShm :=
  if is_shared
  then {| regions := regions s; shared := a; exclusive := exclusive s |}
  else {| regions := regions s; shared := shared s; exclusive := a |}.

(** Body of the unlock loop. *)
Definition shm_unlock_body (is_shared : bool) (i : Z) (s : vfsShm)
    : outcome (ctl vfsShm Z) :=
  other ← array_get (locks_of (negb is_shared) s) i;
  assert (other =? 0);;
  these ← array_get (locks_of is_shared s) i;
  if 0 <? these then
    a ← array_set (locks_of is_shared s) i (these - 1);
    Returns (Continue (set_locks_of is_shared a s))
  else Returns (Continue s).

(** Bodies of the two loops that acquire an exclusive lock. *)
Definition shm_excl_check_body (i : Z) (s : vfsShm) : outcome (ctl vfsShm Z) :=
  sh ← array_get (shared s) i;
  if 0 <? sh then Returns (Return SQLITE_BUSY)
  else
    ex ← array_get (exclusive s) i;
    if 0 <? ex then Returns (Return SQLITE_BUSY)
    else Returns (Continue s).

Definition shm_excl_set_body (i : Z) (s : vfsShm) : outcome (ctl vfsShm Z) :=
  ex ← array_get (exclusive s) i;
  assert (ex =? 0);;
  a ← array_set (exclusive s) i 1;
  Returns (Continue (set_locks_of false a s)).

(** Bodies of the two loops that acquire a shared lock. *)
Definition shm_shared_check_body (i : Z) (s : vfsShm) : outcome (ctl vfsShm Z) :=
  ex ← array_get (exclusive s) i;
  if 0 <? ex then Returns (Return SQLITE_BUSY)
  else Returns (Continue s).

Definition shm_shared_incr_body (i : Z) (s : vfsShm) : outcome (ctl vfsShm Z) :=
  sh ← array_get (shared s) i;
  a ← array_set (shared s) i (uint (sh + 1));
  Returns (Continue (set_locks_of true a s)).

(** Two loops in sequence over the same range; a [return] in the first one
    leaves the function with the state as it is. *)
Definition check_then {S : Type} (check act : Z -> S -> outcome (ctl S Z))
    (ofst n : Z) (s : S) : outcome (Z * S) :=
  c ← for_range check ofst (Z.to_nat n) s;
  match c with
  | Return rc => Returns (rc, s)
  | Continue s1 =>
      c' ← for_range act ofst (Z.to_nat n) s1;
      match c' with
      | Return rc => Returns (rc, s1)
      | Continue s2 => Returns (SQLITE_OK, s2)
      end
  end.

(** [vfsFileShmLock], on the [shm] member of the file's content, the only
    state it reads or writes.  Returns the status code and the new mapping. *)
Definition vfsFileShmLock (s : vfsShm) (ofst n flags : Z) : outcome (Z * vfsShm) :=
  assert ((0 <=? ofst) && (ofst + n <=? SQLITE_SHM_NLOCK));;
  assert (1 <=? n);;
  assert ((n =? 1) || flag_set flags SQLITE_SHM_EXCLUSIVE);;
  assert ((flags =? Z.lor SQLITE_SHM_LOCK SQLITE_SHM_SHARED)
          || (flags =? Z.lor SQLITE_SHM_LOCK SQLITE_SHM_EXCLUSIVE)
          || (flags =? Z.lor SQLITE_SHM_UNLOCK SQLITE_SHM_SHARED)
          || (flags =? Z.lor SQLITE_SHM_UNLOCK SQLITE_SHM_EXCLUSIVE));;
  if flag_set flags SQLITE_SHM_UNLOCK then
    c ← for_range (shm_unlock_body (flag_set flags SQLITE_SHM_SHARED))
                  ofst (Z.to_nat n) s;
    match c with
    | Continue s' => Returns (SQLITE_OK, s')
    | Return rc => Returns (rc, s)
    end
  else if flag_set flags SQLITE_SHM_EXCLUSIVE then
    check_then shm_excl_check_body shm_excl_set_body ofst n s
  else
    check_then shm_shared_check_body shm_shared_incr_body ofst n s.

(** A sequence of shm-lock calls [(ofst, n, flags)] on one mapping. *)
Fixpoint shm_run (ops : list (Z * Z * Z)) (s : vfsShm) : outcome vfsShm :=
  match ops with
  | [] => Returns s
  | (ofst, n, flags) :: rest =>
      r ← vfsFileShmLock s ofst n flags;
      shm_run rest r.2
  end.

(** ** Pages and file contents: struct vfsPage, struct vfsContent *)

Record vfsPage : Type := mk_vfsPage {
  buf : list byte;            (* content of the page *)
  hdr : option (list byte)    (* frame header, WAL pages only; None is NULL *)
}.

(** [vfsPageCreate] *)
Definition vfsPageCreate (size : Z) (wal : bool) : outcome vfsPage :=
  assert (0 <? size);;
  Returns {| buf := zeros size;
             hdr := if wal then Some (zeros FORMAT__WAL_FRAME_HDR_SIZE)
                    else None |}.

Inductive vfsContentType : Type := VFS__DATABASE | VFS__JOURNAL | VFS__WAL.

Definition vfsContentType_eqb (a b : vfsContentType) : bool :=
  match a, b with
  | VFS__DATABASE, VFS__DATABASE => true
  | VFS__JOURNAL, VFS__JOURNAL => true
  | VFS__WAL, VFS__WAL => true
  | _, _ => false
  end.

(** The members of the anonymous union are kept side by side: [shm] and
    [wal] are meaningful for a database, [wal_hdr] (the member [hdr]) for a
    WAL.  [wal] points to the content of the WAL file and is only ever
    stored, so the name of that content stands for the pointer. *)
Record vfsContent : Type := mk_vfsContent {
  filename : string;
  pages : list vfsPage;         (* pages, n_pages *)
  page_size : Z;
  refcount : Z;
  type : vfsContentType;
  shm : vfsShm;
  wal : option string;
  wal_hdr : list byte
}.

Definition n_pages (c : vfsContent) : Z := Z.of_nat (length (pages c)).

Definition set_pages (ps : list vfsPage) (c : vfsContent) : vfsContent :=
  {| filename := filename c; pages := ps; page_size := page_size c;
     refcount := refcount c; type := type c; shm := shm c; wal := wal c;
     wal_hdr := wal_hdr c |}.

Definition set_page_size (sz : Z) (c : vfsContent) : vfsContent :=
  {| filename := filename c; pages := pages c; page_size := sz;
     refcount := refcount c; type := type c; shm := shm c; wal := wal c;
     wal_hdr := wal_hdr c |}.

Definition set_refcount (n : Z) (c : vfsContent) : vfsContent :=
  {| filename := filename c; pages := pages c; page_size := page_size c;
     refcount := n; type := type c; shm := shm c; wal := wal c;
     wal_hdr := wal_hdr c |}.

Definition set_shm (m : vfsShm) (c : vfsContent) : vfsContent :=
  {| filename := filename c; pages := pages c; page_size := page_size c;
     refcount := refcount c; type := type c; shm := m; wal := wal c;
     wal_hdr := wal_hdr c |}.

Definition set_wal (w : option string) (c : vfsContent) : vfsContent :=
  {| filename := filename c; pages := pages c; page_size := page_size c;
     refcount := refcount c; type := type c; shm := shm c; wal := w;
     wal_hdr := wal_hdr c |}.

Definition set_wal_hdr (h : list byte) (c : vfsContent) : vfsContent :=
  {| filename := filename c; pages := pages c; page_size := page_size c;
     refcount := refcount c; type := type c; shm := shm c; wal := wal c;
     wal_hdr := h |}.

(** [vfsContentCreate] *)
Definition vfsContentCreate (name : string) (ty : vfsContentType) : vfsContent :=
  {| filename := name;
     pages := [];
     page_size := 0;
     refcount := 0;
     type := ty;
     shm := match ty with
            | VFS__DATABASE => vfsShmInit
            | _ => {| regions := []; shared := []; exclusive := [] |}
            end;
     wal := None;
     wal_hdr := match ty with
                | VFS__WAL => zeros FORMAT__WAL_HDR_SIZE
                | _ => []
                end |}.

(** [vfsContentIsEmpty]; [pages == NULL] exactly when the list is empty. *)
Definition vfsContentIsEmpty (c : vfsContent) : outcome bool :=
  if n_pages c =? 0 then Returns true
  else
    assert ((0 <? n_pages c) && (0 <? page_size c));;
    Returns false.

(** [vfsContentPageGet]: status code and the content, in which page [pgno]
    exists when the status is [SQLITE_OK]. *)
Definition vfsContentPageGet (c : vfsContent) (pgno : Z) : outcome (Z * vfsContent) :=
  assert (0 <? pgno);;
  if n_pages c + 1 <? pgno then Returns (SQLITE_IOERR_WRITE, c)
  else if pgno =? n_pages c + 1 then
    assert (0 <? page_size c);;
    page ← vfsPageCreate (page_size c) (vfsContentType_eqb (type c) VFS__WAL);
    Returns (SQLITE_OK, set_pages (pages c ++ [page]) c)
  else Returns (SQLITE_OK, c).

(** [vfsContentPageLookup]; [None] is the NULL result. *)
Definition vfsContentPageLookup (c : vfsContent) (pgno : Z) : outcome (option vfsPage) :=
  assert (0 <? pgno);;
  if n_pages c <? pgno then Returns None
  else
    match pages c !! Z.to_nat (pgno - 1) with
    | None => Aborts
    | Some page =>
        assert (negb (vfsContentType_eqb (type c) VFS__WAL)
                || match hdr page with Some _ => true | None => false end);;
        Returns (Some page)
    end.

(** The store [*(c->pages + pgno - 1) = page]. *)
Definition store_page (c : vfsContent) (pgno : Z) (page : vfsPage) : vfsContent :=
  set_pages (<[Z.to_nat (pgno - 1) := page]> (pages c)) c.

(** [vfsContentTruncate] *)
Definition vfsContentTruncate (content : vfsContent) (n : Z) : outcome vfsContent :=
  assert (0 <? n_pages content);;
  assert (n <=? n_pages content);;
  content' ← match type content with
              | VFS__WAL =>
                  assert (n =? 0);;
                  Returns (set_wal_hdr (zeros FORMAT__WAL_HDR_SIZE) content)
              | _ => Returns content
              end;
  Returns (set_pages (take (Z.to_nat n) (pages content')) content').

(** ** The registry: struct vfs *)

Record vfs : Type := mk_vfs {
  contents : list vfsContent;   (* contents, n_contents *)
  error : Z                     (* last error occurred *)
}.

(** A file handle: [content] is the name of the content it points to. *)
Record vfsFile : Type := mk_vfsFile {
  content : string;
  flags : Z
}.

(** [vfsCreate]; the member [error] is left as allocated, with any value. *)
Definition vfsCreate (error0 : Z) : vfs := {| contents := []; error := error0 |}.

(** [vfsContentLookup]: the first content with that name. *)
Fixpoint lookup_contents (l : list vfsContent) (name : string) : option vfsContent :=
  match l with
  | [] => None
  | c :: rest =>
      if String.eqb (filename c) name then Some c
      else lookup_contents rest name
  end.

Definition vfsContentLookup (r : vfs) (name : string) : option vfsContent :=
  lookup_contents (contents r) name.

(** A store through the pointer that [vfsContentLookup] returned. *)
Fixpoint update_contents (l : list vfsContent) (name : string)
    (f : vfsContent -> vfsContent) : list vfsContent :=
  match l with
  | [] => []
  | c :: rest =>
      if String.eqb (filename c) name then f c :: rest
      else c :: update_contents rest name f
  end.

(** [vfsDatabaseContentLookup]: the last four characters of the WAL file
    name are dropped; [sqlite3_malloc] yields NULL for a size that is not
    positive. *)
Definition vfsDatabaseContentLookup (r : vfs) (wal_filename : string)
    : Z * option vfsContent :=
  let main_filename_len :=
    Z.of_nat (String.length wal_filename) - Z.of_nat (String.length "-wal") + 1 in
  if main_filename_len <=? 0 then (SQLITE_NOMEM, None)
  else
    let main_filename :=
      String.substring 0 (Z.to_nat (main_filename_len - 1)) wal_filename in
    match vfsContentLookup r main_filename with
    | None => (SQLITE_CORRUPT, None)
    | Some c => (SQLITE_OK, Some c)
    end.

(** [vfsDatabasePageSize]: status code and [*page_size]. *)
Definition vfsDatabasePageSize (r : vfs) (wal_filename : string) : outcome (Z * Z) :=
  match vfsDatabaseContentLookup r wal_filename with
  | (rc, Some c) =>
      assert (0 <? page_size c);;
      Returns (SQLITE_OK, page_size c)
  | (rc, None) => Returns (rc, 0)
  end.

(** [vfsDeleteContent] *)
Inductive delete_result : Type :=
| Deleted (rest : list vfsContent)
| Busy
| NotFound.

Fixpoint delete_contents (l : list vfsContent) (name : string) : delete_result :=
  match l with
  | [] => NotFound
  | c :: rest =>
      if negb (String.eqb (filename c) name) then
        match delete_contents rest name with
        | Deleted rest' => Deleted (c :: rest')
        | r => r
        end
      else if 0 <? refcount c then Busy
      else Deleted rest
  end.

Definition vfsDeleteContent (r : vfs) (name : string) : Z * vfs :=
  match delete_contents (contents r) name with
  | Busy => (SQLITE_IOERR_DELETE, {| contents := contents r; error := EBUSY |})
  | Deleted rest => (SQLITE_OK, {| contents := rest; error := error r |})
  | NotFound =>
      (SQLITE_IOERR_DELETE_NOENT, {| contents := contents r; error := ENOENT |})
  end.

(** ** Per-file methods

    A method receives the content its handle points to ([f->content]) and
    the registry ([f->vfs]), and returns the content as it leaves it.
    Handles of temporary files ([f->temp != NULL]) are forwarded to the host
    file system and are not part of the model. *)

(** The page size of a WAL is copied from its database on first use. *)
Definition wal_inherit_page_size (v : vfs) (c : vfsContent) : outcome (Z * vfsContent) :=
  if page_size c =? 0 then
    r ← vfsDatabasePageSize v (filename c);
    Returns (r.1, set_page_size r.2 c)
  else Returns (SQLITE_OK, c).

(** Page number addressed by a WAL read of [amount] bytes at a non-zero
    [offset], or the early return of the checksum read. *)
Definition wal_read_pgno (c : vfsContent) (amount offset : Z)
    : outcome (ctl Z (Z * list byte)) :=
  let frame := page_size c + FORMAT__WAL_FRAME_HDR_SIZE in
  if amount =? FORMAT__WAL_FRAME_HDR_SIZE then
    assert (Z.rem (offset - FORMAT__WAL_HDR_SIZE) frame =? 0);;
    Returns (Continue (to_int (format__wal_calc_pgno (page_size c) offset)))
  else if amount =? 8 then
    if offset =? FORMAT__WAL_FRAME_HDR_SIZE then
      data ← memcpy_from (wal_hdr c) offset amount;
      Returns (Return (SQLITE_OK, data))
    else
      assert (Z.rem (offset - 16 - FORMAT__WAL_HDR_SIZE) frame =? 0);;
      Returns (Continue
                 (to_int (Z.quot (offset - 16 - FORMAT__WAL_HDR_SIZE) frame + 1)))
  else if amount =? page_size c then
    assert (Z.rem (offset - FORMAT__WAL_HDR_SIZE - FORMAT__WAL_FRAME_HDR_SIZE)
                  frame =? 0);;
    Returns (Continue (to_int (format__wal_calc_pgno (page_size c) offset)))
  else
    assert (amount =? FORMAT__WAL_FRAME_HDR_SIZE + page_size c);;
    Returns (Continue (to_int (format__wal_calc_pgno (page_size c) offset))).

(** The bytes a WAL read of [amount] bytes takes from a frame. *)
Definition wal_read_frame (c : vfsContent) (page : vfsPage) (amount : Z)
    : outcome (list byte) :=
  match hdr page with
  | None => Aborts
  | Some h =>
      if amount =? FORMAT__WAL_FRAME_HDR_SIZE then memcpy_from h 0 amount
      else if amount =? 8 then memcpy_from h 16 amount
      else if amount =? page_size c then memcpy_from (buf page) 0 amount
      else
        d1 ← memcpy_from h 0 FORMAT__WAL_FRAME_HDR_SIZE;
        d2 ← memcpy_from (buf page) 0 (page_size c);
        Returns (d1 ++ d2)
  end.

(** [vfsFileRead]: status code, the bytes stored into [buf] (none when the
    buffer is left untouched) and the content. *)
Definition vfsFileRead (v : vfs) (c : vfsContent) (amount offset : Z)
    : outcome (Z * list byte * vfsContent) :=
  assert (0 <? amount);;
  assert (0 <? refcount c);;
  empty ← vfsContentIsEmpty c;
  if empty : bool then Returns (SQLITE_IOERR_SHORT_READ, zeros amount, c)
  else
    assert (vfsContentType_eqb (type c) VFS__DATABASE
            || vfsContentType_eqb (type c) VFS__WAL);;
    match type c with
    | VFS__DATABASE =>
        assert (0 <? page_size c);;
        pgno ← (if offset <? page_size c then
                  assert (amount <=? page_size c);;
                  Returns 1
                else
                  assert (amount =? page_size c);;
                  assert (Z.rem offset (page_size c) =? 0);;
                  Returns (to_int (Z.quot offset (page_size c) + 1)));
        assert (0 <? pgno);;
        page ← vfsContentPageLookup c pgno;
        match page with
        | None => Aborts
        | Some page =>
            data ← memcpy_from (buf page) (if pgno =? 1 then offset else 0) amount;
            Returns (SQLITE_OK, data, c)
        end
    | VFS__JOURNAL => Returns (SQLITE_IOERR_READ, [], c)
    | VFS__WAL =>
        r ← wal_inherit_page_size v c;
        let c := r.2 in
        if negb (r.1 =? 0) then Returns (r.1, [], c)
        else if offset =? 0 then
          assert (amount =? FORMAT__WAL_HDR_SIZE);;
          data ← memcpy_from (wal_hdr c) 0 FORMAT__WAL_HDR_SIZE;
          Returns (SQLITE_OK, data, c)
        else
          p ← wal_read_pgno c amount offset;
          match p with
          | Return (rc, data) => Returns (rc, data, c)
          | Continue pgno =>
              if pgno =? 0 then Returns (SQLITE_IOERR_SHORT_READ, zeros amount, c)
              else
                page ← vfsContentPageLookup c pgno;
                match page with
                | None => Aborts
                | Some page =>
                    data ← wal_read_frame c page amount;
                    Returns (SQLITE_OK, data, c)
                end
          end
    end.

(** [memcpy(page->buf, buf, amount)] on page [pgno] of [c]. *)
Definition write_page_buf (c : vfsContent) (pgno : Z) (data : list byte) (amount : Z)
    : outcome vfsContent :=
  match pages c !! Z.to_nat (pgno - 1) with
  | None => Aborts
  | Some page =>
      b ← memcpy_into (buf page) data amount;
      Returns (store_page c pgno {| buf := b; hdr := hdr page |})
  end.

(** [memcpy(page->hdr, buf, amount)] on page [pgno] of [c]. *)
Definition write_page_hdr (c : vfsContent) (pgno : Z) (data : list byte) (amount : Z)
    : outcome vfsContent :=
  match pages c !! Z.to_nat (pgno - 1) with
  | None => Aborts
  | Some page =>
      match hdr page with
      | None => Aborts
      | Some h =>
          h' ← memcpy_into h data amount;
          Returns (store_page c pgno {| buf := buf page; hdr := Some h' |})
      end
  end.

(** [vfsFileWrite]: status code and the content. *)
Definition vfsFileWrite (v : vfs) (c : vfsContent) (data : list byte)
    (amount offset : Z) : outcome (Z * vfsContent) :=
  assert (0 <? amount);;
  assert (0 <? refcount c);;
  match type c with
  | VFS__DATABASE =>
      r ← (if offset =? 0 then
             assert (FORMAT__DB_HDR_SIZE <=? amount);;
             g ← format__get_page_size FORMAT__DB data;
             if negb (g.1 =? SQLITE_OK) then Returns (Return g.1)
             else if 0 <? page_size c then
               assert (g.2 =? page_size c);;
               Returns (Continue (c, 1))
             else Returns (Continue (set_page_size g.2 c, 1))
           else if page_size c =? 0 then Returns (Return SQLITE_IOERR_WRITE)
           else
             assert (Z.rem offset (page_size c) =? 0);;
             assert (amount =? page_size c);;
             Returns (Continue (c, uint (Z.quot offset (page_size c) + 1))));
      match r with
      | Return rc => Returns (rc, c)
      | Continue (c, pgno) =>
          g ← vfsContentPageGet c (to_int pgno);
          if negb (g.1 =? SQLITE_OK) then Returns g
          else
            c' ← write_page_buf g.2 (to_int pgno) data amount;
            Returns (SQLITE_OK, c')
      end
  | VFS__JOURNAL => Returns (SQLITE_OK, c)
  | VFS__WAL =>
      r ← wal_inherit_page_size v c;
      let c := r.2 in
      if negb (r.1 =? 0) then Returns (r.1, c)
      else if offset =? 0 then
        assert (amount =? FORMAT__WAL_HDR_SIZE);;
        g ← format__get_page_size FORMAT__WAL data;
        if negb (g.1 =? SQLITE_OK) then Returns (SQLITE_CORRUPT, c)
        else if negb (g.2 =? page_size c) then Returns (SQLITE_CORRUPT, c)
        else
          h ← memcpy_into (wal_hdr c) data amount;
          Returns (SQLITE_OK, set_wal_hdr h c)
      else
        assert (0 <? page_size c);;
        let frame := page_size c + FORMAT__WAL_FRAME_HDR_SIZE in
        if amount =? FORMAT__WAL_FRAME_HDR_SIZE then
          assert (Z.rem (offset - FORMAT__WAL_HDR_SIZE) frame =? 0);;
          let pgno := uint (format__wal_calc_pgno (page_size c) offset) in
          g ← vfsContentPageGet c (to_int pgno);
          if negb (g.1 =? SQLITE_OK) then Returns (SQLITE_NOMEM, g.2)
          else
            c' ← write_page_hdr g.2 (to_int pgno) data amount;
            Returns (SQLITE_OK, c')
        else
          assert (amount =? page_size c);;
          assert (Z.rem (offset - FORMAT__WAL_HDR_SIZE - FORMAT__WAL_FRAME_HDR_SIZE)
                        frame =? 0);;
          let pgno := uint (format__wal_calc_pgno (page_size c) offset) in
          page ← vfsContentPageLookup c (to_int pgno);
          assert (match page with Some _ => true | None => false end);;
          c' ← write_page_buf c (to_int pgno) data amount;
          Returns (SQLITE_OK, c')
  end.

(** [vfsFileTruncate] *)
Definition vfsFileTruncate (c : vfsContent) (size : Z) : outcome (Z * vfsContent) :=
  if negb (vfsContentType_eqb (type c) VFS__DATABASE)
     && negb (vfsContentType_eqb (type c) VFS__WAL)
  then Returns (SQLITE_IOERR_TRUNCATE, c)
  else
    empty ← vfsContentIsEmpty c;
    if empty : bool then
      if 0 <? size then Returns (SQLITE_IOERR_TRUNCATE, c)
      else Returns (SQLITE_OK, c)
    else
      r ← match type c with
          | VFS__DATABASE =>
              assert (0 <? page_size c);;
              if negb (Z.rem size (page_size c) =? 0)
              then Returns (Return SQLITE_IOERR_TRUNCATE)
              else Returns (Continue (to_int (Z.quot size (page_size c))))
          | VFS__WAL =>
              if negb (size =? 0) then Returns (Return SQLITE_PROTOCOL)
              else Returns (Continue 0)
          | VFS__JOURNAL => Returns (Return SQLITE_IOERR_TRUNCATE)
          end;
      match r with
      | Return rc => Returns (rc, c)
      | Continue pgno =>
          c' ← vfsContentTruncate c (uint pgno);
          Returns (SQLITE_OK, c')
      end.

(** [vfsFileSize] *)
Definition vfsFileSize (c : vfsContent) : outcome (Z * Z) :=
  empty ← vfsContentIsEmpty c;
  if empty : bool then Returns (SQLITE_OK, 0)
  else
    assert (vfsContentType_eqb (type c) VFS__DATABASE
            || vfsContentType_eqb (type c) VFS__WAL);;
    assert (0 <? page_size c);;
    Returns (SQLITE_OK,
             match type c with
             | VFS__DATABASE => uint (n_pages c * page_size c)
             | VFS__JOURNAL => 0
             | VFS__WAL =>
                 uint (FORMAT__WAL_HDR_SIZE
                       + uint (n_pages c
                               * uint (FORMAT__WAL_FRAME_HDR_SIZE + page_size c)))
             end).

(** [vfsFileControlPragma], for [fnctl[1] = left] and [fnctl[2] = right]
    ([None] is NULL): status code, the content, and the message stored in
    [fnctl[0]], if any. *)
Definition vfsFileControlPragma (c : vfsContent) (left : string) (right : option string)
    : Z * vfsContent * option string :=
  match right with
  | Some r =>
      if String.eqb left "page_size" then
        let n := atoi r in
        if (FORMAT__PAGE_SIZE_MIN <=? n) && (n <=? FORMAT__PAGE_SIZE_MAX)
           && (Z.land (n - 1) n =? 0)
        then
          if negb (page_size c =? 0) && negb (n =? to_int (page_size c))
          then (SQLITE_IOERR, c, Some "changing page size is not supported"%string)
          else (SQLITE_NOTFOUND, set_page_size n c, None)
        else (SQLITE_NOTFOUND, c, None)
      else if String.eqb left "journal_mode" then
        if negb (String.eqb (lower_string r) "wal")
        then (SQLITE_IOERR, c, Some "only WAL mode is supported"%string)
        else (SQLITE_NOTFOUND, c, None)
      else (SQLITE_NOTFOUND, c, None)
  | None => (SQLITE_NOTFOUND, c, None)
  end.

(** ** Registry methods *)

Definition set_error (e : Z) (v : vfs) : vfs :=
  {| contents := contents v; error := e |}.

(** The content type selected by the open flags. *)
Definition open_type (flags : Z) : option vfsContentType :=
  if flag_set flags SQLITE_OPEN_MAIN_DB then Some VFS__DATABASE
  else if flag_set flags SQLITE_OPEN_MAIN_JOURNAL then Some VFS__JOURNAL
  else if flag_set flags SQLITE_OPEN_WAL then Some VFS__WAL
  else None.

(** [content->refcount++] *)
Definition incr_refcount (c : vfsContent) : vfsContent :=
  set_refcount (uint (refcount c + 1)) c.

(** [vfsOpen] for a file name that is not NULL: status code, the registry,
    and the handle when the status is [SQLITE_OK]. *)
Definition vfsOpen (v : vfs) (name : string) (flags : Z)
    : outcome (Z * vfs * option vfsFile) :=
  let exclusive := flag_set flags SQLITE_OPEN_EXCLUSIVE in
  let create := flag_set flags SQLITE_OPEN_CREATE in
  assert (negb exclusive || create);;
  let handle := Some {| content := name; flags := flags |} in
  match vfsContentLookup v name with
  | Some _ =>
      if exclusive && create then Returns (SQLITE_CANTOPEN, set_error EEXIST v, None)
      else
        Returns (SQLITE_OK,
                 {| contents := update_contents (contents v) name incr_refcount;
                    error := error v |},
                 handle)
  | None =>
      if negb create then Returns (SQLITE_CANTOPEN, set_error ENOENT v, None)
      else
        match open_type flags with
        | None => Returns (SQLITE_CANTOPEN, set_error ENOENT v, None)
        | Some ty =>
            let c := vfsContentCreate name ty in
            match ty with
            | VFS__WAL =>
                match vfsDatabaseContentLookup v name with
                | (rc, None) => Returns (rc, set_error ENOMEM v, None)
                | (_, Some database) =>
                    Returns (SQLITE_OK,
                             {| contents :=
                                  update_contents (contents v) (filename database)
                                                  (set_wal (Some name))
                                  ++ [incr_refcount c];
                                error := error v |},
                             handle)
                end
            | _ =>
                Returns (SQLITE_OK,
                         {| contents := contents v ++ [incr_refcount c];
                            error := error v |},
                         handle)
            end
        end
  end.

(** [vfsDelete] *)
Definition vfsDelete (v : vfs) (name : string) (dir_sync : Z) : Z * vfs :=
  vfsDeleteContent v name.

(** [vfsAccess]: status code and [*result]. *)
Definition vfsAccess (v : vfs) (name : string) (flags : Z) : Z * Z :=
  match vfsContentLookup v name with
  | None => (SQLITE_OK, 0)
  | Some _ => (SQLITE_OK, 1)
  end.

(** [vfsGetLastError] *)
Definition vfsGetLastError (v : vfs) : Z := error v.

(** [vfsFileClose] *)
Definition vfsFileClose (v : vfs) (f : vfsFile) : outcome (Z * vfs) :=
  match vfsContentLookup v (content f) with
  | None => Aborts
  | Some c =>
      assert (negb (refcount c =? 0));;
      let release (c : vfsContent) : vfsContent :=
        let c := set_refcount (refcount c - 1) c in
        if (refcount c =? 0) && vfsContentType_eqb (type c) VFS__DATABASE
        then set_shm (vfsShmClose (shm c)) c
        else c in
      let v := {| contents := update_contents (contents v) (content f) release;
                  error := error v |} in
      if flag_set (flags f) SQLITE_OPEN_DELETEONCLOSE
      then Returns (vfsDeleteContent v (content f))
      else Returns (SQLITE_OK, v)
  end.

(** ** Methods called through a handle

    [f->content] is found in the registry by name, and the content that the
    method leaves is stored back in its place. *)

Definition store_content (v : vfs) (name : string) (c : vfsContent) : vfs :=
  {| contents := update_contents (contents v) name (fun _ => c);
     error := error v |}.

Definition xRead (v : vfs) (f : vfsFile) (amount offset : Z)
    : outcome (Z * list byte * vfs) :=
  match vfsContentLookup v (content f) with
  | None => Aborts
  | Some c =>
      r ← vfsFileRead v c amount offset;
      Returns (r.1.1, r.1.2, store_content v (content f) r.2)
  end.

Definition xWrite (v : vfs) (f : vfsFile) (data : list byte) (amount offset : Z)
    : outcome (Z * vfs) :=
  match vfsContentLookup v (content f) with
  | None => Aborts
  | Some c =>
      r ← vfsFileWrite v c data amount offset;
      Returns (r.1, store_content v (content f) r.2)
  end.

Definition xTruncate (v : vfs) (f : vfsFile) (size : Z) : outcome (Z * vfs) :=
  match vfsContentLookup v (content f) with
  | None => Aborts
  | Some c =>
      r ← vfsFileTruncate c size;
      Returns (r.1, store_content v (content f) r.2)
  end.

(** ** A concrete database and its WAL

    A database "db" with pages of 512 bytes and one page, and the WAL
    "db-wal", first with its header only and then with one frame. *)

Definition example_db_page : list byte :=
  replicate 16 x00 ++ [x02; x00] ++ replicate 494 x00.

Definition example_wal_header : list byte :=
  [x37; x7f; x06; x82;  x00; x2d; xe2; x18;  x00; x00; x02; x00;
   x00; x00; x00; x00;  xa1; xa2; xa3; xa4;  xb1; xb2; xb3; xb4;
   xc1; xc2; xc3; xc4;  xd1; xd2; xd3; xd4].

Definition example_frame_header : list byte :=
  [x00; x00; x00; x01;  x00; x00; x00; x01;  xa1; xa2; xa3; xa4;
   xb1; xb2; xb3; xb4;  xe1; xe2; xe3; xe4;  xf1; xf2; xf3; xf4].

Definition example_open_flags : Z := Z.lor 2 SQLITE_OPEN_CREATE.

Definition example_wal_handle : vfsFile :=
  {| content := "db-wal"; flags := Z.lor example_open_flags SQLITE_OPEN_WAL |}.

(** The content of "db-wal" once its header is written. *)
Definition example_wal_header_only : vfsContent :=
  {| filename := "db-wal";
     pages := [];
     page_size := 512;
     refcount := 1;
     type := VFS__WAL;
     shm := {| regions := []; shared := []; exclusive := [] |};
     wal := None;
     wal_hdr := example_wal_header |}.

(** The content of "db-wal" once its first frame is written. *)
Definition example_wal_one_frame : vfsContent :=
  set_pages [ {| buf := example_db_page; hdr := Some example_frame_header |} ]
            example_wal_header_only.

(** Open "db", write its first page, open "db-wal", write the WAL header. *)
Definition example_write_wal_header : outcome vfs :=
  r ← vfsOpen (vfsCreate 0) "db" (Z.lor example_open_flags SQLITE_OPEN_MAIN_DB);
  match r.2 with
  | None => Aborts
  | Some db =>
      r ← xWrite r.1.2 db example_db_page 512 0;
      r ← vfsOpen r.2 "db-wal" (Z.lor example_open_flags SQLITE_OPEN_WAL);
      match r.2 with
      | None => Aborts
      | Some w =>
          r ← xWrite r.1.2 w example_wal_header 32 0;
          Returns r.2
      end
  end.

(** Then write the header and the page of the first frame. *)
Definition example_write_wal_frame : outcome vfs :=
  v ← example_write_wal_header;
  r ← xWrite v example_wal_handle example_frame_header 24 32;
  r ← xWrite r.2 example_wal_handle example_db_page 512 56;
  Returns r.2.


(** ** format.c: encoding, checksum, restart of the WAL header *)

(** [(uint8_t)x] *)
Definition byte_of_Z (x : Z) : byte :=
  match Byte.of_N (Z.to_N (x mod 256)) with
  | Some b => b
  | None => x00
  end.

(** [formatPut32]: the four bytes stored at [buf]. *)
Definition formatPut32 (v : Z) : list byte :=
  [byte_of_Z (Z.shiftr v 24); byte_of_Z (Z.shiftr v 16);
   byte_of_Z (Z.shiftr v 8); byte_of_Z v].

(** [formatWalGetFramePageNumber] *)
Definition formatWalGetFramePageNumber (header : list byte) : outcome Z :=
  formatGet32 header.

(** [dst] after [src] is stored at byte offset [off] of it. *)
Definition store_at (dst : list byte) (off : nat) (src : list byte)
    : outcome (list byte) :=
  if (off + length src <=? length dst)%nat
  then Returns (take off dst ++ src ++ drop (off + length src) dst)
  else Aborts.

Section HostByteOrder.

(** [formatWalChecksumBytes] reads the content through a [uint32_t]
    pointer, so what it reads depends on the byte order of the host. *)
Variable host_little_endian : bool.

(** The [uint32_t] at byte offset [off] of a buffer. *)
Definition load32 (data : list byte) (off : nat) : outcome Z :=
  b0 ← read_u8 data off;
  b1 ← read_u8 data (off + 1);
  b2 ← read_u8 data (off + 2);
  b3 ← read_u8 data (off + 3);
  Returns (if host_little_endian
           then b0 + b1 * 2 ^ 8 + b2 * 2 ^ 16 + b3 * 2 ^ 24
           else b0 * 2 ^ 24 + b1 * 2 ^ 16 + b2 * 2 ^ 8 + b3).

(** [formatPut32(w, (uint8_t * )&d)] followed by a read of [d]. *)
Definition put32_then_load (w : Z) : outcome Z := load32 (formatPut32 w) 0.

(** The loop of [formatWalChecksumBytes], [cur] being a byte offset. *)
Fixpoint checksum_loop (native : bool) (data : list byte) (cur : nat)
    (iterations : nat) (s1 s2 : Z) : outcome (Z * Z) :=
  match iterations with
  | O => Returns (s1, s2)
  | Datatypes.S k =>
      w0 ← load32 data cur;
      d0 ← (if native then Returns w0 else put32_then_load w0);
      let s1 := uint (s1 + uint (d0 + s2)) in
      w1 ← load32 data (cur + 4);
      d1 ← (if native then Returns w1 else put32_then_load w1);
      let s2 := uint (s2 + uint (d1 + s1)) in
      checksum_loop native data (cur + 8) k s1 s2
  end.

(** [formatWalChecksumBytes]; [None] is a NULL [in].  The do-while loop
    runs [n / 8] times for the values of [n] that the assertions admit. *)
Definition formatWalChecksumBytes (native : bool) (data : list byte) (n : Z)
    (in_ : option (Z * Z)) : outcome (Z * Z) :=
  let s := match in_ with
           | Some s => s
           | None => (0, 0)
           end in
  assert (8 <=? n);;
  assert (Z.land n 7 =? 0);;
  assert (n <=? 65536);;
  checksum_loop native data 0 (Z.to_nat (n / 8)) s.1 s.2.

(** [formatWalRestartHeader]; [salt2] stands for the four bytes that
    [sqlite3_randomness] produces. *)
Definition formatWalRestartHeader (salt2 : byte * byte * byte * byte)
    (header : list byte) : outcome (list byte) :=
  checkpoint ← formatGet32 (drop 12 header);
  header ← store_at header 12 (formatPut32 (uint (checkpoint + 1)));
  salt1 ← formatGet32 (drop 16 header);
  header ← store_at header 16 (formatPut32 (uint (salt1 + 1)));
  header ← store_at header 20 [salt2.1.1.1; salt2.1.1.2; salt2.1.2; salt2.2];
  checksum ← formatWalChecksumBytes true header 24 (Some (0, 0));
  header ← store_at header 24 (formatPut32 checksum.1);
  header ← store_at header 28 (formatPut32 checksum.2);
  Returns header.

End HostByteOrder.

(** ** vfs.c: mapping shared memory, guessing the file type *)

(** [vfsFileShmMap]: status code, the region stored in [*out] ([None] is
    NULL) and the content.  [sqlite3_malloc] yields NULL for a size that is
    not positive. *)
Definition vfsFileShmMap (c : vfsContent) (region_index region_size extend : Z)
    : outcome (Z * option (list byte) * vfsContent) :=
  assert (vfsContentType_eqb (type c) VFS__DATABASE);;
  let regions_len := Z.of_nat (length (regions (shm c))) in
  if negb (regions_len =? 0) && (region_index <? regions_len) then
    if region_index <? 0 then Aborts
    else
      match regions (shm c) !! Z.to_nat region_index with
      | Some region => Returns (SQLITE_OK, Some region, c)
      | None => Aborts
      end
  else if negb (extend =? 0) then
    assert (region_index =? regions_len);;
    if region_size <=? 0 then Returns (SQLITE_NOMEM, None, c)
    else
      let region := zeros region_size in
      Returns (SQLITE_OK, Some region,
               set_shm {| regions := regions (shm c) ++ [region];
                          shared := shared (shm c);
                          exclusive := exclusive (shm c) |} c)
  else Returns (SQLITE_OK, None, c).

(** [strncmp(s, p, strlen(p)) == 0] *)
Fixpoint is_prefix (p s : string) : bool :=
  match p, s with
  | EmptyString, _ => true
  | String a p', String b s' => Ascii.eqb a b && is_prefix p' s'
  | String _ _, EmptyString => false
  end.

(** [strstr(haystack, needle) != NULL] *)
Fixpoint strstr (haystack needle : string) : bool :=
  is_prefix needle haystack
  || match haystack with
     | String _ rest => strstr rest needle
     | EmptyString => false
     end.

(** [vfsGuessFileType] *)
Definition vfsGuessFileType (name : string) : format_type :=
  if strstr name "-wal" then FORMAT__WAL else FORMAT__DB.

(** ** gateway.c: the lock probe of maybe_checkpoint

    Before a checkpoint [maybe_checkpoint] goes through all lock slots of
    the database file: it takes the exclusive lock of a slot and releases
    it again, and returns [SQLITE_OK] without checkpointing as soon as a
    slot is busy.  This is that loop, on the lock table. *)
Definition maybe_checkpoint_body (i : Z) (s : vfsShm)
    : outcome (ctl vfsShm (Z * vfsShm)) :=
  r ← vfsFileShmLock s i 1 (Z.lor SQLITE_SHM_LOCK SQLITE_SHM_EXCLUSIVE);
  if r.1 =? SQLITE_BUSY then Returns (Return (SQLITE_OK, r.2))
  else
    r' ← vfsFileShmLock r.2 i 1 (Z.lor SQLITE_SHM_UNLOCK SQLITE_SHM_EXCLUSIVE);
    Returns (Continue r'.2).

Definition maybe_checkpoint_locks (s : vfsShm) : outcome (ctl vfsShm (Z * vfsShm)) :=
  for_range maybe_checkpoint_body 0 (Z.to_nat SQLITE_SHM_NLOCK) s.

(** ** A database with one page and one open handle *)

Definition example_database : vfsContent :=
  {| filename := "db";
     pages := [ {| buf := example_db_page; hdr := None |} ];
     page_size := 512;
     refcount := 1;
     type := VFS__DATABASE;
     shm := vfsShmInit;
     wal := None;
     wal_hdr := [] |}.

Definition example_registry : vfs :=
  {| contents := [example_database]; error := 0 |}.

Definition example_db_handle : vfsFile :=
  {| content := "db"; flags := Z.lor example_open_flags SQLITE_OPEN_MAIN_DB |}.

(** * Specification predicates *)

(** What holds of the two counts of one slot. *)
Definition slot_ok (sh ex : Z) : Prop :=
  0 <= sh < UINT_MODULUS /\ (ex = 0 \/ ex = 1) /\ (0 < sh -> ex = 0).

(** What holds of a lock table: both arrays have [SQLITE_SHM_NLOCK] entries
    and every slot is [slot_ok]. *)
Definition shm_inv (s : vfsShm) : Prop :=
  length (shared s) = Z.to_nat SQLITE_SHM_NLOCK
  /\ length (exclusive s) = Z.to_nat SQLITE_SHM_NLOCK
  /\ forall (i : nat) (sh ex : Z),
       shared s !! i = Some sh -> exclusive s !! i = Some ex -> slot_ok sh ex.

(** Slot [i] lies in the range [[ofst, ofst + n)]. *)
Definition in_range (ofst n : Z) (i : nat) : bool :=
  (ofst <=? Z.of_nat i) && (Z.of_nat i <? ofst + n).

(** A lock table as its C type has it: two arrays of [SQLITE_SHM_NLOCK]
    counts of type [unsigned]. *)
Definition shm_wf (s : vfsShm) : Prop :=
  length (shared s) = Z.to_nat SQLITE_SHM_NLOCK
  /\ length (exclusive s) = Z.to_nat SQLITE_SHM_NLOCK
  /\ (forall (i : nat) (x : Z), shared s !! i = Some x -> 0 <= x < UINT_MODULUS)
  /\ (forall (i : nat) (x : Z), exclusive s !! i = Some x -> 0 <= x < UINT_MODULUS).

(** Powers of two. *)
Definition is_power_of_two (x : Z) : Prop := exists k : Z, 0 <= k /\ x = 2 ^ k.

(** The value stored big-endian in the two bytes at offsets 16 and 17. *)
Definition stored_page_size (h16 h17 : byte) : Z :=
  byte_val h16 * 256 + byte_val h17.

(** The invariant of the registry: no two contents have the same name. *)
Definition names_unique (v : vfs) : Prop := NoDup (filename <$> contents v).


(** The registries that calls can build: created by [vfsCreate], then
    passed through the registry methods and the methods of open handles. *)
Inductive vfs_reachable : vfs -> Prop :=
| reachable_created (error0 : Z) : vfs_reachable (vfsCreate error0)
| reachable_opened (v v' : vfs) (name : string) (flags rc : Z)
    (h : option vfsFile) :
    vfs_reachable v ->
    vfsOpen v name flags = Returns (rc, v', h) ->
    vfs_reachable v'
| reachable_closed (v v' : vfs) (f : vfsFile) (rc : Z) :
    vfs_reachable v ->
    vfsFileClose v f = Returns (rc, v') ->
    vfs_reachable v'
| reachable_deleted (v v' : vfs) (name : string) (dir_sync rc : Z) :
    vfs_reachable v ->
    vfsDelete v name dir_sync = (rc, v') ->
    vfs_reachable v'
| reachable_read (v v' : vfs) (f : vfsFile) (amount offset rc : Z)
    (data : list byte) :
    vfs_reachable v ->
    xRead v f amount offset = Returns (rc, data, v') ->
    vfs_reachable v'
| reachable_written (v v' : vfs) (f : vfsFile) (data : list byte)
    (amount offset rc : Z) :
    vfs_reachable v ->
    xWrite v f data amount offset = Returns (rc, v') ->
    vfs_reachable v'
| reachable_truncated (v v' : vfs) (f : vfsFile) (size rc : Z) :
    vfs_reachable v ->
    xTruncate v f size = Returns (rc, v') ->
    vfs_reachable v'.

(** * Properties *)

(** ** The outcome monad and counted loops *)

Lemma bind_Returns {A B : Type} (m : outcome A) (f : A -> outcome B) (b : B) :
  m ≫= f = Returns b -> exists a, m = Returns a /\ f a = Returns b.
Proof. destruct m as [a|]; simpl; [eauto | discriminate]. Qed.

Lemma assert_Returns (b : bool) (u : unit) : assert b = Returns u -> b = true.
Proof. destruct b; [reflexivity | discriminate]. Qed.

Ltac inv_bind H :=
  let a := fresh "a" in
  let E := fresh "E" in
  apply bind_Returns in H as (a & E & H);
  try (apply assert_Returns in E).

(** Induction over the iterations of a loop that runs to its end, with an
    invariant that may mention the loop index. *)
Lemma for_range_ind {S R : Type} (body : Z -> S -> outcome (ctl S R))
    (P : Z -> S -> Prop) (k : nat) :
  forall (i : Z) (s s' : S),
    P i s ->
    (forall j t t', i <= j < i + Z.of_nat k -> P j t ->
                    body j t = Returns (Continue t') -> P (j + 1) t') ->
    for_range body i k s = Returns (Continue s') ->
    P (i + Z.of_nat k) s'.
Proof.
  induction k as [|k IH]; intros i s s' Hs Hstep Hrun; simpl in Hrun.
  - injection Hrun as <-. now replace (i + Z.of_nat 0) with i by lia.
  - inv_bind Hrun. destruct a as [t|r]; [|discriminate].
    replace (i + Z.of_nat (Datatypes.S k)) with ((i + 1) + Z.of_nat k) by lia.
    apply (IH (i + 1) t s'); [| |exact Hrun].
    + apply (Hstep i s t); [lia|assumption|assumption].
    + intros j u u' Hj. apply Hstep. lia.
Qed.

(** A loop whose body always goes on runs to its end. *)
Lemma for_range_total {S R : Type} (body : Z -> S -> outcome (ctl S R))
    (P : Z -> S -> Prop) (k : nat) :
  forall (i : Z) (s : S),
    P i s ->
    (forall j t, i <= j < i + Z.of_nat k -> P j t ->
                 exists t', body j t = Returns (Continue t') /\ P (j + 1) t') ->
    exists s', for_range body i k s = Returns (Continue s')
               /\ P (i + Z.of_nat k) s'.
Proof.
  induction k as [|k IH]; intros i s Hs Hstep; simpl.
  - exists s. split; [reflexivity|]. now replace (i + Z.of_nat 0) with i by lia.
  - destruct (Hstep i s) as (t & Ht & HP); [lia|assumption|].
    rewrite Ht. simpl.
    replace (i + Z.of_nat (Datatypes.S k)) with ((i + 1) + Z.of_nat k) by lia.
    apply IH; [assumption|]. intros j u Hj. apply Hstep. lia.
Qed.

Lemma array_get_Returns (a : list Z) (i x : Z) :
  array_get a i = Returns x -> 0 <= i /\ a !! Z.to_nat i = Some x.
Proof.
  unfold array_get. destruct (Z.ltb_spec i 0); [discriminate|].
  destruct (a !! Z.to_nat i) as [y|]; [|discriminate].
  intros [= ->]. split; [lia|reflexivity].
Qed.

Lemma array_get_lookup (a : list Z) (i x : Z) :
  0 <= i -> a !! Z.to_nat i = Some x -> array_get a i = Returns x.
Proof.
  intros Hi Hx. unfold array_get. destruct (Z.ltb_spec i 0); [lia|].
  now rewrite Hx.
Qed.

Lemma array_set_Returns (a a' : list Z) (i x : Z) :
  array_set a i x = Returns a' ->
  0 <= i /\ (Z.to_nat i < length a)%nat /\ a' = <[Z.to_nat i := x]> a.
Proof.
  unfold array_set.
  destruct (Z.leb_spec 0 i); simpl; [|discriminate].
  destruct (Z.ltb_spec i (Z.of_nat (length a))); [|discriminate].
  intros [= <-]. repeat split; [lia|lia].
Qed.

Lemma array_set_in_range (a : list Z) (i x : Z) :
  0 <= i -> (Z.to_nat i < length a)%nat ->
  array_set a i x = Returns (<[Z.to_nat i := x]> a).
Proof.
  intros Hi Hlen. unfold array_set.
  destruct (Z.leb_spec 0 i); simpl; [|lia].
  destruct (Z.ltb_spec i (Z.of_nat (length a))); [reflexivity|lia].
Qed.

(** ** The lock table *)

Lemma shm_inv_init : shm_inv vfsShmInit.
Proof.
  unfold shm_inv, vfsShmInit; simpl. rewrite !length_replicate.
  split; [reflexivity|]. split; [reflexivity|].
  intros i sh ex Hsh Hex.
  apply lookup_replicate in Hsh as [-> _].
  apply lookup_replicate in Hex as [-> _].
  unfold slot_ok, UINT_MODULUS. lia.
Qed.

Lemma shm_inv_store_shared (s : vfsShm) (i : nat) (x : Z) :
  shm_inv s ->
  0 <= x < UINT_MODULUS ->
  (forall ex, exclusive s !! i = Some ex -> 0 < x -> ex = 0) ->
  shm_inv (set_locks_of true (<[i := x]> (shared s)) s).
Proof.
  intros (Hls & Hle & Hslots) Hx Hex. unfold shm_inv; simpl.
  rewrite length_insert. split; [assumption|]. split; [assumption|].
  intros j sh ex Hsh Hj.
  destruct (decide (i = j)) as [<-|Hne].
  - apply list_lookup_insert_Some in Hsh as [(_ & <- & Hlt)|(Hne & _)];
      [|congruence].
    destruct (lookup_lt_is_Some_2 (shared s) i Hlt) as [sh0 Hsh0].
    destruct (Hslots i sh0 ex Hsh0 Hj) as (_ & Hex01 & _).
    split; [assumption|]. split; [assumption|]. intros Hpos. now apply Hex.
  - rewrite list_lookup_insert_ne in Hsh by assumption.
    now apply (Hslots j).
Qed.

Lemma shm_inv_store_exclusive (s : vfsShm) (i : nat) (y : Z) :
  shm_inv s ->
  y = 0 \/ y = 1 ->
  (forall sh, shared s !! i = Some sh -> 0 < sh -> y = 0) ->
  shm_inv (set_locks_of false (<[i := y]> (exclusive s)) s).
Proof.
  intros (Hls & Hle & Hslots) Hy Hsh. unfold shm_inv; simpl.
  rewrite length_insert. split; [assumption|]. split; [assumption|].
  intros j sh ex Hj Hex.
  destruct (decide (i = j)) as [<-|Hne].
  - apply list_lookup_insert_Some in Hex as [(_ & <- & Hlt)|(Hne & _)];
      [|congruence].
    destruct (lookup_lt_is_Some_2 (exclusive s) i Hlt) as [ex0 Hex0].
    destruct (Hslots i sh ex0 Hj Hex0) as (Hrange & _ & _).
    split; [assumption|]. split; [assumption|]. now apply Hsh.
  - rewrite list_lookup_insert_ne in Hex by assumption.
    now apply (Hslots j).
Qed.

Lemma shm_unlock_body_inv (b : bool) (i : Z) (s s' : vfsShm) :
  shm_inv s -> shm_unlock_body b i s = Returns (Continue s') -> shm_inv s'.
Proof.
  intros Hinv H. pose proof Hinv as (Hls & Hlx & Hslots).
  unfold shm_unlock_body in H.
  inv_bind H. apply array_get_Returns in E as [Hi Hother].
  inv_bind H. apply Z.eqb_eq in E. subst a.
  inv_bind H. apply array_get_Returns in E as [_ Hthese].
  destruct (Z.ltb_spec 0 a) as [Hpos|Hle]; [|now injection H as <-].
  inv_bind H. apply array_set_Returns in E as (_ & Hlen & ->).
  injection H as <-.
  destruct b; simpl in *.
  - destruct (Hslots _ _ _ Hthese Hother) as (Hr & _ & _).
    apply shm_inv_store_shared; [assumption|lia|].
    intros ex Hex _. congruence.
  - apply shm_inv_store_exclusive; [assumption|left|].
    + destruct (Hslots _ _ _ Hother Hthese) as (_ & [->| ->] & _); lia.
    + intros sh Hsh Hp.
      destruct (Hslots _ _ _ Hsh Hthese) as (_ & [->| ->] & _); lia.
Qed.

Lemma shm_excl_set_body_inv (i : Z) (s s' : vfsShm) :
  shm_inv s ->
  (forall sh, shared s !! Z.to_nat i = Some sh -> sh <= 0) ->
  shm_excl_set_body i s = Returns (Continue s') ->
  shm_inv s' /\ shared s' = shared s.
Proof.
  intros Hinv Hfree H. unfold shm_excl_set_body in H.
  inv_bind H. inv_bind H. inv_bind H.
  apply array_set_Returns in E1 as (_ & Hlen & ->).
  injection H as <-. split; [|reflexivity].
  apply shm_inv_store_exclusive; [assumption|now right|].
  intros sh Hsh Hpos. specialize (Hfree sh Hsh). lia.
Qed.

Lemma shm_shared_incr_body_inv (i : Z) (s s' : vfsShm) :
  shm_inv s ->
  (forall ex, exclusive s !! Z.to_nat i = Some ex -> ex <= 0) ->
  shm_shared_incr_body i s = Returns (Continue s') ->
  shm_inv s' /\ exclusive s' = exclusive s.
Proof.
  intros Hinv Hfree H. pose proof Hinv as (Hls & Hlx & Hslots).
  unfold shm_shared_incr_body in H.
  inv_bind H. apply array_get_Returns in E as [_ Hsh].
  inv_bind H. apply array_set_Returns in E as (_ & Hlen & ->).
  injection H as <-. split; [|reflexivity].
  apply shm_inv_store_shared; [assumption| |].
  - unfold uint. apply Z.mod_pos_bound. unfold UINT_MODULUS. lia.
  - intros ex Hex _. specialize (Hfree ex Hex).
    destruct (Hslots _ _ _ Hsh Hex) as (_ & [->| ->] & _); lia.
Qed.

(** The loop that looks for a lock in the range does not change the
    mapping, and when it runs to its end no slot it visited holds a lock of
    the kinds it looks for. *)
Lemma shm_excl_check_free (ofst : Z) (k : nat) (s s' : vfsShm) :
  for_range shm_excl_check_body ofst k s = Returns (Continue s') ->
  s' = s /\ forall j, ofst <= j < ofst + Z.of_nat k ->
              (forall sh, shared s !! Z.to_nat j = Some sh -> sh <= 0)
              /\ (forall ex, exclusive s !! Z.to_nat j = Some ex -> ex <= 0).
Proof.
  intros H.
  apply (for_range_ind shm_excl_check_body
           (fun j t => t = s /\ forall l, ofst <= l < j ->
              (forall sh, shared s !! Z.to_nat l = Some sh -> sh <= 0)
              /\ (forall ex, exclusive s !! Z.to_nat l = Some ex -> ex <= 0)))
    in H; [exact H| |].
  - split; [reflexivity|]. intros l Hl. lia.
  - intros j t t' Hj [-> Hfree] Hbody. unfold shm_excl_check_body in Hbody.
    inv_bind Hbody. apply array_get_Returns in E as [_ Hsh].
    destruct (Z.ltb_spec 0 a) as [|Hsh0]; [discriminate|].
    inv_bind Hbody. apply array_get_Returns in E as [_ Hex].
    destruct (Z.ltb_spec 0 a0) as [|Hex0]; [discriminate|].
    injection Hbody as <-. split; [reflexivity|].
    intros l Hl. destruct (decide (l = j)) as [->|Hne].
    + split; intros x Hx; congruence.
    + apply Hfree. lia.
Qed.

Lemma shm_shared_check_free (ofst : Z) (k : nat) (s s' : vfsShm) :
  for_range shm_shared_check_body ofst k s = Returns (Continue s') ->
  s' = s /\ forall j, ofst <= j < ofst + Z.of_nat k ->
              forall ex, exclusive s !! Z.to_nat j = Some ex -> ex <= 0.
Proof.
  intros H.
  apply (for_range_ind shm_shared_check_body
           (fun j t => t = s /\ forall l, ofst <= l < j ->
              forall ex, exclusive s !! Z.to_nat l = Some ex -> ex <= 0))
    in H; [exact H| |].
  - split; [reflexivity|]. intros l Hl. lia.
  - intros j t t' Hj [-> Hfree] Hbody. unfold shm_shared_check_body in Hbody.
    inv_bind Hbody. apply array_get_Returns in E as [_ Hex].
    destruct (Z.ltb_spec 0 a) as [|Hex0]; [discriminate|].
    injection Hbody as <-. split; [reflexivity|].
    intros l Hl. destruct (decide (l = j)) as [->|Hne].
    + intros x Hx. congruence.
    + apply Hfree. lia.
Qed.

(** The four legal values of [flags]. *)
Lemma shm_flags_cases (flags : Z) :
  (flags =? Z.lor SQLITE_SHM_LOCK SQLITE_SHM_SHARED)
  || (flags =? Z.lor SQLITE_SHM_LOCK SQLITE_SHM_EXCLUSIVE)
  || (flags =? Z.lor SQLITE_SHM_UNLOCK SQLITE_SHM_SHARED)
  || (flags =? Z.lor SQLITE_SHM_UNLOCK SQLITE_SHM_EXCLUSIVE) = true ->
  flags = 6 \/ flags = 10 \/ flags = 5 \/ flags = 9.
Proof.
  intros H. repeat (apply orb_true_iff in H as [H|H]);
    apply Z.eqb_eq in H; vm_compute in H; auto.
Qed.

Lemma check_then_excl_inv (ofst n : Z) (s s' : vfsShm) (rc : Z) :
  shm_inv s ->
  check_then shm_excl_check_body shm_excl_set_body ofst n s = Returns (rc, s') ->
  shm_inv s'.
Proof.
  intros Hinv H. unfold check_then in H.
  inv_bind H. destruct a as [s1|r]; [|now injection H as _ <-].
  apply shm_excl_check_free in E as [-> Hfree].
  inv_bind H. destruct a as [s2|r]; [|now injection H as _ <-].
  injection H as _ <-.
  apply (for_range_ind shm_excl_set_body
           (fun _ t => shm_inv t /\ shared t = shared s)) in E.
  - apply E.
  - now split.
  - intros j t t' Hj [Ht Hsh] Hbody.
    apply shm_excl_set_body_inv in Hbody as [Ht' Hsh']; [| assumption |].
    + split; [assumption|congruence].
    + rewrite Hsh. apply Hfree. assumption.
Qed.

Lemma check_then_shared_inv (ofst n : Z) (s s' : vfsShm) (rc : Z) :
  shm_inv s ->
  check_then shm_shared_check_body shm_shared_incr_body ofst n s = Returns (rc, s') ->
  shm_inv s'.
Proof.
  intros Hinv H. unfold check_then in H.
  inv_bind H. destruct a as [s1|r]; [|now injection H as _ <-].
  apply shm_shared_check_free in E as [-> Hfree].
  inv_bind H. destruct a as [s2|r]; [|now injection H as _ <-].
  injection H as _ <-.
  apply (for_range_ind shm_shared_incr_body
           (fun _ t => shm_inv t /\ exclusive t = exclusive s)) in E.
  - apply E.
  - now split.
  - intros j t t' Hj [Ht Hex] Hbody.
    apply shm_shared_incr_body_inv in Hbody as [Ht' Hex']; [| assumption |].
    + split; [assumption|congruence].
    + rewrite Hex. apply Hfree. assumption.
Qed.

(** Every shm-lock call that returns leaves a well-formed lock table
    well-formed. *)
Lemma vfsFileShmLock_inv (s s' : vfsShm) (ofst n flags rc : Z) :
  shm_inv s ->
  vfsFileShmLock s ofst n flags = Returns (rc, s') ->
  shm_inv s'.
Proof.
  intros Hinv H. unfold vfsFileShmLock in H.
  do 4 inv_bind H.
  apply shm_flags_cases in E2 as [->|[->|[->| ->]]];
    change (flag_set 6 SQLITE_SHM_UNLOCK) with false in H;
    change (flag_set 6 SQLITE_SHM_EXCLUSIVE) with false in H;
    change (flag_set 10 SQLITE_SHM_UNLOCK) with false in H;
    change (flag_set 10 SQLITE_SHM_EXCLUSIVE) with true in H;
    change (flag_set 5 SQLITE_SHM_UNLOCK) with true in H;
    change (flag_set 9 SQLITE_SHM_UNLOCK) with true in H;
    cbv iota in H.
  - now apply check_then_shared_inv in H.
  - now apply check_then_excl_inv in H.
  - inv_bind H. destruct a3 as [t|r]; [|now injection H as _ <-].
    injection H as _ <-.
    apply (for_range_ind _ (fun _ t => shm_inv t)) in E2; [exact E2|assumption|].
    intros j u u' _ Hu Hbody. now apply shm_unlock_body_inv in Hbody.
  - inv_bind H. destruct a3 as [t|r]; [|now injection H as _ <-].
    injection H as _ <-.
    apply (for_range_ind _ (fun _ t => shm_inv t)) in E2; [exact E2|assumption|].
    intros j u u' _ Hu Hbody. now apply shm_unlock_body_inv in Hbody.
Qed.

Lemma shm_run_inv (ops : list (Z * Z * Z)) :
  forall s s', shm_inv s -> shm_run ops s = Returns s' -> shm_inv s'.
Proof.
  induction ops as [|[[ofst n] flags] ops IH]; intros s s' Hinv H; simpl in H.
  - now injection H as <-.
  - inv_bind H. destruct a as [rc t]. simpl in H.
    apply (IH t); [|assumption]. now apply vfsFileShmLock_inv in E.
Qed.

(** Effect of one iteration of the loop that releases exclusive locks, on a
    well-formed table. *)
Lemma shm_unlock_excl_body_spec (i : Z) (s s' : vfsShm) :
  shm_inv s ->
  shm_unlock_body false i s = Returns (Continue s') ->
  shared s' = shared s
  /\ exclusive s' !! Z.to_nat i = Some 0
  /\ forall j : nat, j <> Z.to_nat i -> exclusive s' !! j = exclusive s !! j.
Proof.
  intros (Hls & Hlx & Hslots) H. unfold shm_unlock_body in H. simpl in H.
  inv_bind H. apply array_get_Returns in E as [Hi Hother].
  inv_bind H. apply Z.eqb_eq in E. subst a.
  inv_bind H. apply array_get_Returns in E as [_ Hthese].
  destruct (Hslots _ _ _ Hother Hthese) as (_ & Hex & _).
  destruct (Z.ltb_spec 0 a) as [Hpos|Hle].
  - inv_bind H. apply array_set_Returns in E as (_ & Hlen & ->).
    injection H as <-. simpl. split; [reflexivity|]. split.
    + rewrite list_lookup_insert_eq by assumption. f_equal. lia.
    + intros j Hj. now rewrite list_lookup_insert_ne by congruence.
  - injection H as <-. split; [reflexivity|]. split; [|reflexivity].
    rewrite Hthese. f_equal. lia.
Qed.

Lemma unlock_exclusive_loop_spec (ofst : Z) (k : nat) (s s' : vfsShm) :
  shm_inv s -> 0 <= ofst ->
  for_range (shm_unlock_body false) ofst k s = Returns (Continue s') ->
  shm_inv s' /\ shared s' = shared s
  /\ forall i : nat,
       exclusive s' !! i
       = if in_range ofst (Z.of_nat k) i then Some 0 else exclusive s !! i.
Proof.
  intros Hinv Hofst H.
  apply (for_range_ind _
           (fun j t => shm_inv t /\ shared t = shared s
              /\ forall i : nat,
                   exclusive t !! i
                   = if in_range ofst (j - ofst) i then Some 0
                     else exclusive s !! i)) in H.
  - replace (ofst + Z.of_nat k - ofst) with (Z.of_nat k) in H by lia. exact H.
  - split; [assumption|]. split; [reflexivity|]. intros i.
    unfold in_range.
    destruct (Z.leb_spec ofst (Z.of_nat i)); simpl; [|reflexivity].
    destruct (Z.ltb_spec (Z.of_nat i) (ofst + (ofst - ofst))); [lia|reflexivity].
  - intros j t t' Hj (Ht & Hsh & Hex) Hbody.
    pose proof (shm_unlock_body_inv _ _ _ _ Ht Hbody) as Ht'.
    apply shm_unlock_excl_body_spec in Hbody as (Hsh' & Hzero & Hrest);
      [|assumption].
    split; [assumption|]. split; [congruence|]. intros i.
    destruct (decide (i = Z.to_nat j)) as [->|Hne].
    + rewrite Hzero. unfold in_range.
      destruct (Z.leb_spec ofst (Z.of_nat (Z.to_nat j))); [|lia]. simpl.
      destruct (Z.ltb_spec (Z.of_nat (Z.to_nat j)) (ofst + (j + 1 - ofst)));
        [reflexivity|lia].
    + rewrite (Hrest i Hne), Hex. unfold in_range.
      destruct (Z.leb_spec ofst (Z.of_nat i)); simpl; [|reflexivity].
      destruct (Z.ltb_spec (Z.of_nat i) (ofst + (j - ofst)));
        destruct (Z.ltb_spec (Z.of_nat i) (ofst + (j + 1 - ofst)));
        try reflexivity; lia.
Qed.

(** On a well-formed table the loop that releases exclusive locks runs to
    its end when no slot of the range holds a shared lock. *)
Lemma unlock_exclusive_loop_total (ofst : Z) (k : nat) (s : vfsShm) :
  shm_inv s -> 0 <= ofst -> ofst + Z.of_nat k <= SQLITE_SHM_NLOCK ->
  (forall i, ofst <= i < ofst + Z.of_nat k -> shared s !! Z.to_nat i = Some 0) ->
  exists s', for_range (shm_unlock_body false) ofst k s = Returns (Continue s').
Proof.
  intros Hinv Hofst Hend Hfree.
  destruct (for_range_total (shm_unlock_body false)
              (fun _ t => shm_inv t /\ shared t = shared s) k ofst s)
    as (s' & Hs' & _); [now split| |now exists s'].
  intros j t Hj (Ht & Hsh).
  assert (exists t', shm_unlock_body false j t = Returns (Continue t'))
    as [t' Hbody].
  { pose proof Ht as (Hls & Hlx & _).
    unfold shm_unlock_body; simpl.
    rewrite (array_get_lookup (shared t) j 0) by (rewrite ?Hsh; auto; lia).
    simpl.
    destruct (lookup_lt_is_Some_2 (exclusive t) (Z.to_nat j)) as [ex Hex];
      [lia|].
    rewrite (array_get_lookup (exclusive t) j ex) by (auto; lia). simpl.
    destruct (0 <? ex); [|eauto].
    rewrite array_set_in_range by lia. simpl. eauto. }
  exists t'. split; [assumption|].
  pose proof (shm_unlock_body_inv _ _ _ _ Ht Hbody) as Ht'.
  apply shm_unlock_excl_body_spec in Hbody as (Hsh' & _); [|assumption].
  split; [assumption|congruence].
Qed.

(** On a well-formed table a call that acquires locks over a legal range
    always returns: with [SQLITE_OK] or with [SQLITE_BUSY]. *)
Lemma vfsFileShmLock_acquire_returns (s : vfsShm) (ofst n flags : Z) :
  shm_inv s ->
  0 <= ofst -> 1 <= n -> ofst + n <= SQLITE_SHM_NLOCK ->
  (flags = Z.lor SQLITE_SHM_LOCK SQLITE_SHM_SHARED /\ n = 1)
  \/ flags = Z.lor SQLITE_SHM_LOCK SQLITE_SHM_EXCLUSIVE ->
  exists rc s', vfsFileShmLock s ofst n flags = Returns (rc, s')
                /\ (rc = SQLITE_OK \/ rc = SQLITE_BUSY /\ s' = s).
Proof.
  intros Hinv Hofst Hn Hend Hflags. pose proof Hinv as (Hls & Hlx & Hslots).
  assert (Hget : forall j, ofst <= j < ofst + n ->
            exists sh ex, array_get (shared s) j = Returns sh
                          /\ array_get (exclusive s) j = Returns ex
                          /\ slot_ok sh ex).
  { intros j Hj.
    destruct (lookup_lt_is_Some_2 (shared s) (Z.to_nat j)) as [sh Hsh]; [lia|].
    destruct (lookup_lt_is_Some_2 (exclusive s) (Z.to_nat j)) as [ex Hex]; [lia|].
    exists sh, ex. split; [apply array_get_lookup; [lia|assumption]|].
    split; [apply array_get_lookup; [lia|assumption]|]. now apply (Hslots (Z.to_nat j)). }
  unfold vfsFileShmLock.
  destruct (Z.leb_spec 0 ofst); [|lia].
  destruct (Z.leb_spec (ofst + n) SQLITE_SHM_NLOCK); [|lia].
  destruct (Z.leb_spec 1 n); [|lia]. simpl.
  destruct Hflags as [[-> ->]| ->].
  - (* shared *)
    simpl. change (flag_set (Z.lor SQLITE_SHM_LOCK SQLITE_SHM_SHARED)
                     SQLITE_SHM_UNLOCK) with false.
    change (flag_set (Z.lor SQLITE_SHM_LOCK SQLITE_SHM_SHARED)
              SQLITE_SHM_EXCLUSIVE) with false. cbv iota.
    unfold check_then. change (Z.to_nat 1) with 1%nat. simpl.
    destruct (Hget ofst ltac:(lia)) as (sh & ex & Hsh & Hex & Hok).
    unfold shm_shared_check_body. rewrite Hex. simpl.
    destruct (0 <? ex); simpl;
      [exists SQLITE_BUSY, s; split; [reflexivity|now right]|].
    unfold shm_shared_incr_body. rewrite Hsh. simpl.
    rewrite array_set_in_range by lia. simpl.
    eexists _, _. split; [reflexivity|now left].
  - (* exclusive *)
    change (flag_set (Z.lor SQLITE_SHM_LOCK SQLITE_SHM_EXCLUSIVE)
              SQLITE_SHM_EXCLUSIVE) with true.
    rewrite (orb_true_r (n =? 1)). simpl.
    change (flag_set (Z.lor SQLITE_SHM_LOCK SQLITE_SHM_EXCLUSIVE)
              SQLITE_SHM_UNLOCK) with false. cbv iota.
    unfold check_then.
    assert (Hcheck : forall j, ofst <= j < ofst + Z.of_nat (Z.to_nat n) ->
              shm_excl_check_body j s = Returns (Continue s)
              \/ exists r, shm_excl_check_body j s = Returns (Return r)
                           /\ r = SQLITE_BUSY).
    { intros j Hj. destruct (Hget j ltac:(lia)) as (sh & ex & Hsh & Hex & _).
      unfold shm_excl_check_body. rewrite Hsh. simpl.
      destruct (0 <? sh); [right; eauto|]. rewrite Hex. simpl.
      destruct (0 <? ex); [right; eauto|now left]. }
    assert (Hloop : for_range shm_excl_check_body ofst (Z.to_nat n) s
                    = Returns (Continue s)
                    \/ for_range shm_excl_check_body ofst (Z.to_nat n) s
                       = Returns (Return SQLITE_BUSY)).
    { clear -Hcheck. revert Hcheck. generalize (Z.to_nat n) as k. generalize ofst as i.
      intros i k; revert i. induction k as [|k IH]; intros i Hcheck; simpl; [now left|].
      destruct (Hcheck i) as [->|(r & -> & ->)]; [lia| |now right]. simpl.
      apply IH. intros j Hj. apply Hcheck. lia. }
    destruct Hloop as [Hrun|Hrun]; rewrite Hrun; simpl;
      [|exists SQLITE_BUSY, s; split; [reflexivity|now right]].
    apply shm_excl_check_free in Hrun as [_ Hfree].
    destruct (for_range_total shm_excl_set_body
                (fun j t => shm_inv t /\ shared t = shared s
                   /\ forall l : nat, j <= Z.of_nat l ->
                        exclusive t !! l = exclusive s !! l)
                (Z.to_nat n) ofst s) as (s2 & -> & _);
      [split; [assumption|]; split; [reflexivity|]; intros; reflexivity
      | |simpl; exists SQLITE_OK, s2; split; [reflexivity|now left]].
    intros j t Hj (Ht & Hsh & Hrest).
    destruct (Hget j ltac:(lia)) as (sh & ex & _ & Hex & (_ & Hex01 & _)).
    apply array_get_Returns in Hex as [_ Hex].
    assert (Hex0 : ex = 0).
    { destruct (Hfree j Hj) as [_ Hle]. specialize (Hle ex Hex). lia. }
    subst ex.
    assert (Hbody : shm_excl_set_body j t
                    = Returns (Continue (set_locks_of false
                                 (<[Z.to_nat j := 1]> (exclusive t)) t))).
    { unfold shm_excl_set_body.
      rewrite (array_get_lookup (exclusive t) j 0);
        [|lia|rewrite Hrest by lia; assumption]. simpl.
      destruct Ht as (_ & Hlt & _). rewrite array_set_in_range by lia.
      reflexivity. }
    eexists. split; [exact Hbody|].
    apply shm_excl_set_body_inv in Hbody as [Ht' Hsh'].
    + split; [assumption|]. split; [congruence|].
      intros l Hl. simpl. rewrite list_lookup_insert_ne by lia. apply Hrest. lia.
    + assumption.
    + rewrite Hsh. apply Hfree. assumption.
Qed.

(** C1. Starting from a freshly initialised shared-memory mapping, after
    every sequence of shm-lock calls (lock or unlock, shared or exclusive,
    over any range the function accepts) every slot has a shared and an
    exclusive count, both counts are nonnegative, and they are never
    positive at the same time. *)
Theorem shm_counts_never_both_positive (ops : list (Z * Z * Z)) (s : vfsShm) :
  shm_run ops vfsShmInit = Returns s ->
  forall i : Z, 0 <= i < SQLITE_SHM_NLOCK ->
    exists sh ex : Z,
      shared s !! Z.to_nat i = Some sh
      /\ exclusive s !! Z.to_nat i = Some ex
      /\ 0 <= sh /\ 0 <= ex /\ ~ (0 < sh /\ 0 < ex).
Proof.
  intros Hrun i Hi.
  apply shm_run_inv in Hrun as (Hls & Hlx & Hslots); [|apply shm_inv_init].
  destruct (lookup_lt_is_Some_2 (shared s) (Z.to_nat i)) as [sh Hsh]; [lia|].
  destruct (lookup_lt_is_Some_2 (exclusive s) (Z.to_nat i)) as [ex Hex]; [lia|].
  exists sh, ex. split; [assumption|]. split; [assumption|].
  destruct (Hslots _ _ _ Hsh Hex) as (Hr & Hex01 & Hexcl).
  split; [lia|]. split; [lia|]. intros [Hp Hq]. specialize (Hexcl Hp). lia.
Qed.

(** C9. In every lock table reached by shm-lock calls from the initial
    one, each exclusive count is 0 or 1; hence releasing exclusive locks
    over a range, which decrements the positive counts, leaves exactly the
    table in which the counts of the range are zero, and it does so whenever
    no shared lock is held in the range. *)
Theorem shm_exclusive_count_is_zero_or_one (ops : list (Z * Z * Z)) (s : vfsShm) :
  shm_run ops vfsShmInit = Returns s ->
  (forall (i : nat) (ex : Z), exclusive s !! i = Some ex -> ex = 0 \/ ex = 1)
  /\ (forall (ofst n rc : Z) (s' : vfsShm),
        vfsFileShmLock s ofst n (Z.lor SQLITE_SHM_UNLOCK SQLITE_SHM_EXCLUSIVE)
        = Returns (rc, s') ->
        rc = SQLITE_OK
        /\ shared s' = shared s
        /\ forall i : nat,
             exclusive s' !! i
             = if in_range ofst n i then Some 0 else exclusive s !! i)
  /\ (forall ofst n : Z,
        0 <= ofst -> 1 <= n -> ofst + n <= SQLITE_SHM_NLOCK ->
        (forall i, ofst <= i < ofst + n -> shared s !! Z.to_nat i = Some 0) ->
        exists s',
          vfsFileShmLock s ofst n (Z.lor SQLITE_SHM_UNLOCK SQLITE_SHM_EXCLUSIVE)
          = Returns (SQLITE_OK, s')).
Proof.
  intros Hrun.
  apply shm_run_inv in Hrun as Hinv; [|apply shm_inv_init].
  pose proof Hinv as (Hls & Hlx & Hslots).
  split; [|split].
  - intros i ex Hex.
    destruct (lookup_lt_is_Some_2 (shared s) i) as [sh Hsh].
    { rewrite Hls, <- Hlx. now apply lookup_lt_Some in Hex. }
    now destruct (Hslots _ _ _ Hsh Hex) as (_ & ? & _).
  - intros ofst n rc s' H. unfold vfsFileShmLock in H.
    do 4 inv_bind H.
    change (flag_set (Z.lor SQLITE_SHM_UNLOCK SQLITE_SHM_EXCLUSIVE)
              SQLITE_SHM_UNLOCK) with true in H.
    change (flag_set (Z.lor SQLITE_SHM_UNLOCK SQLITE_SHM_EXCLUSIVE)
              SQLITE_SHM_SHARED) with false in H.
    cbv iota in H. inv_bind H.
    apply andb_true_iff in E as [Hofst _]. apply Z.leb_le in Hofst.
    apply Z.leb_le in E0.
    destruct a3 as [t|r].
    + injection H as <- <-.
      apply unlock_exclusive_loop_spec in E3 as (_ & Hsh & Hex);
        [|assumption|assumption].
      rewrite Z2Nat.id in Hex by lia. auto.
    + exfalso.
      assert (forall k i t, for_range (shm_unlock_body false) i k t
                            <> Returns (Return r)) as Hnever; [|now apply Hnever in E3].
      clear. induction k as [|k IH]; intros i t Hk; simpl in Hk; [discriminate|].
      inv_bind Hk. destruct a as [u|r'].
      * now apply IH in Hk.
      * unfold shm_unlock_body in E. do 3 inv_bind E.
        destruct (0 <? a1); [inv_bind E|]; discriminate.
  - intros ofst n Hofst Hn Hend Hfree.
    destruct (unlock_exclusive_loop_total ofst (Z.to_nat n) s) as [s' Hs'];
      try assumption; try (rewrite Z2Nat.id by lia; assumption).
    exists s'. unfold vfsFileShmLock.
    destruct (Z.leb_spec 0 ofst); [|lia].
    destruct (Z.leb_spec (ofst + n) SQLITE_SHM_NLOCK); [|lia].
    destruct (Z.leb_spec 1 n); [|lia]. simpl.
    change (flag_set (Z.lor SQLITE_SHM_UNLOCK SQLITE_SHM_EXCLUSIVE)
              SQLITE_SHM_EXCLUSIVE) with true.
    rewrite orb_true_r. simpl.
    change (flag_set (Z.lor SQLITE_SHM_UNLOCK SQLITE_SHM_EXCLUSIVE)
              SQLITE_SHM_UNLOCK) with true.
    change (flag_set (Z.lor SQLITE_SHM_UNLOCK SQLITE_SHM_EXCLUSIVE)
              SQLITE_SHM_SHARED) with false.
    cbv iota. rewrite Hs'. reflexivity.
Qed.

(** Releasing the shared lock of one slot, computed. *)
Lemma unlock_shared_step (s : vfsShm) (ofst sh : Z) :
  0 <= ofst -> ofst + 1 <= SQLITE_SHM_NLOCK ->
  length (shared s) = Z.to_nat SQLITE_SHM_NLOCK ->
  shared s !! Z.to_nat ofst = Some sh ->
  exclusive s !! Z.to_nat ofst = Some 0 ->
  vfsFileShmLock s ofst 1 (Z.lor SQLITE_SHM_UNLOCK SQLITE_SHM_SHARED)
  = Returns (SQLITE_OK,
             if 0 <? sh
             then set_locks_of true (<[Z.to_nat ofst := sh - 1]> (shared s)) s
             else s).
Proof.
  intros Hofst Hend Hlen Hsh Hex. unfold vfsFileShmLock.
  destruct (Z.leb_spec 0 ofst); [|lia].
  destruct (Z.leb_spec (ofst + 1) SQLITE_SHM_NLOCK); [|lia]. simpl.
  change (flag_set (Z.lor SQLITE_SHM_UNLOCK SQLITE_SHM_SHARED)
            SQLITE_SHM_UNLOCK) with true.
  change (flag_set (Z.lor SQLITE_SHM_UNLOCK SQLITE_SHM_SHARED)
            SQLITE_SHM_SHARED) with true.
  cbv iota. change (Z.to_nat 1) with 1%nat. simpl.
  unfold shm_unlock_body. simpl.
  rewrite (array_get_lookup (exclusive s) ofst 0) by assumption. simpl.
  rewrite (array_get_lookup (shared s) ofst sh) by assumption. simpl.
  destruct (0 <? sh); [|reflexivity].
  rewrite array_set_in_range by lia. reflexivity.
Qed.

(** C8. Releasing a shared lock never drives a shared count below zero,
    and a second release of the same range is the identity on the counts
    that the first one left at zero: when the first call leaves the counts
    of the range at zero the second call changes nothing at all.  Both calls
    return [SQLITE_OK] and neither touches an exclusive count. *)
Theorem unlock_shared_twice (s : vfsShm) (ofst n : Z) :
  shm_wf s ->
  0 <= ofst -> n = 1 -> ofst + n <= SQLITE_SHM_NLOCK ->
  (forall i, ofst <= i < ofst + n -> exclusive s !! Z.to_nat i = Some 0) ->
  exists s1 s2 : vfsShm,
    vfsFileShmLock s ofst n (Z.lor SQLITE_SHM_UNLOCK SQLITE_SHM_SHARED)
    = Returns (SQLITE_OK, s1)
    /\ vfsFileShmLock s1 ofst n (Z.lor SQLITE_SHM_UNLOCK SQLITE_SHM_SHARED)
       = Returns (SQLITE_OK, s2)
    /\ exclusive s1 = exclusive s /\ exclusive s2 = exclusive s
    /\ (forall (i : nat) (x : Z), shared s1 !! i = Some x -> 0 <= x)
    /\ (forall (i : nat) (x : Z), shared s2 !! i = Some x -> 0 <= x)
    /\ (forall i : nat, shared s1 !! i = Some 0 -> shared s2 !! i = Some 0)
    /\ ((forall i, ofst <= i < ofst + n -> shared s1 !! Z.to_nat i = Some 0) ->
        s2 = s1).
Proof.
  intros (Hls & Hlx & Hsh & Hex) Hofst -> Hend Hfree.
  destruct (lookup_lt_is_Some_2 (shared s) (Z.to_nat ofst)) as [sh0 Hsh0]; [lia|].
  pose proof (Hsh _ _ Hsh0) as Hr0.
  assert (Hex0 : exclusive s !! Z.to_nat ofst = Some 0) by (apply Hfree; lia).
  set (s1 := if 0 <? sh0
             then set_locks_of true (<[Z.to_nat ofst := sh0 - 1]> (shared s)) s
             else s).
  assert (Hls1 : length (shared s1) = Z.to_nat SQLITE_SHM_NLOCK).
  { subst s1. destruct (0 <? sh0); simpl; [rewrite length_insert|]; assumption. }
  assert (Hx1 : exclusive s1 = exclusive s).
  { subst s1. now destruct (0 <? sh0). }
  assert (Hpos1 : forall (i : nat) (x : Z), shared s1 !! i = Some x -> 0 <= x).
  { subst s1. intros i x Hi. destruct (Z.ltb_spec 0 sh0); simpl in Hi.
    - apply list_lookup_insert_Some in Hi as [(_ & <- & _)|(_ & Hi)]; [lia|].
      apply Hsh in Hi. lia.
    - apply Hsh in Hi. lia. }
  destruct (lookup_lt_is_Some_2 (shared s1) (Z.to_nat ofst)) as [sh1 Hsh1]; [lia|].
  set (s2 := if 0 <? sh1
             then set_locks_of true (<[Z.to_nat ofst := sh1 - 1]> (shared s1)) s1
             else s1).
  exists s1, s2.
  split; [now apply unlock_shared_step|].
  split; [apply unlock_shared_step; try assumption; congruence|].
  split; [assumption|].
  split; [subst s2; destruct (0 <? sh1); simpl; assumption|].
  split; [assumption|].
  split; [|split].
  - subst s2. intros i x Hi. destruct (Z.ltb_spec 0 sh1); simpl in Hi.
    + apply list_lookup_insert_Some in Hi as [(_ & <- & _)|(_ & Hi)]; [lia|].
      now apply Hpos1 in Hi.
    + now apply Hpos1 in Hi.
  - subst s2. intros i Hi. destruct (Z.ltb_spec 0 sh1); simpl; [|assumption].
    destruct (decide (Z.to_nat ofst = i)) as [<-|Hne].
    + rewrite Hsh1 in Hi. injection Hi as ->. lia.
    + now rewrite list_lookup_insert_ne by assumption.
  - intros Hzero. specialize (Hzero ofst ltac:(lia)).
    rewrite Hsh1 in Hzero. injection Hzero as ->. reflexivity.
Qed.

(** ** The page-size decoder *)

(** [(x - 1) & x] vanishes exactly on the powers of two. *)
Lemma land_pred_power_of_two (x : Z) :
  0 < x -> (Z.land (x - 1) x = 0 <-> is_power_of_two x).
Proof.
  intros Hx. split.
  - intros Hland. exists (Z.log2 x). split; [apply Z.log2_nonneg|].
    destruct (Z.log2_spec x Hx) as [Hlo Hhi].
    pose proof (Z.pow_pos_nonneg 2 (Z.log2 x) eq_refl (Z.log2_nonneg x)) as Hpow.
    destruct (Z.eq_dec x (2 ^ Z.log2 x)) as [|Hne]; [assumption|exfalso].
    assert (Hbit : Z.testbit (Z.land (x - 1) x) (Z.log2 x) = true).
    { rewrite Z.land_spec, (Z.bit_log2 x Hx), andb_true_r.
      assert (Hlog : Z.log2 (x - 1) = Z.log2 x).
      { apply Z.log2_unique; [apply Z.log2_nonneg|].
        lia. }
      rewrite <- Hlog. apply Z.bit_log2. lia. }
    rewrite Hland, Z.bits_0 in Hbit. discriminate.
  - intros (k & Hk & ->).
    rewrite Z.sub_1_r, <- Z.ones_equiv.
    rewrite Z.land_comm, Z.land_ones by assumption.
    apply Z.mod_same. apply Z.pow_nonzero; lia.
Qed.

Lemma byte_val_range (b : byte) : 0 <= byte_val b < 256.
Proof.
  unfold byte_val. pose proof (Byte.to_N_bounded b) as H. lia.
Qed.

Lemma formatGet32_zero_extended (b2 b3 : byte) :
  formatGet32 [x00; x00; b2; b3] = Returns (stored_page_size b2 b3).
Proof.
  unfold formatGet32, stored_page_size, read_u8; cbn [lookup list_lookup mbind outcome_bind].
  pose proof (byte_val_range b2) as H2. pose proof (byte_val_range b3) as H3.
  change (uint (byte_val "000" ≪ 24)) with 0.
  change (uint (byte_val "000" ≪ 16)) with 0.
  change (uint (0 + 0)) with 0.
  rewrite Z.shiftl_mul_pow2 by lia. change (2 ^ 8) with 256.
  assert (Hsmall : forall x, 0 <= x < 65536 -> uint x = x).
  { intros x Hx. unfold uint, UINT_MODULUS. apply Z.mod_small. lia. }
  rewrite Z.add_0_l.
  rewrite (Hsmall (byte_val b3)) by lia.
  rewrite !(Hsmall (byte_val b2 * 256)) by lia.
  rewrite Hsmall by lia. reflexivity.
Qed.

(** The decoder on the zero-extended two-byte field. *)
Lemma formatDecodePageSize_spec (b2 b3 : byte) :
  let stored := stored_page_size b2 b3 in
  formatDecodePageSize [x00; x00; b2; b3]
  = Returns (if stored =? 1 then 65536
             else if (512 <=? stored) && (stored <=? 32768)
                     && (Z.land (stored - 1) stored =? 0)
                  then stored else 0).
Proof.
  intros stored. unfold formatDecodePageSize.
  rewrite formatGet32_zero_extended. fold stored. simpl. f_equal.
  unfold FORMAT__PAGE_SIZE_MAX, FORMAT__PAGE_SIZE_MIN.
  change (65536 / 2) with 32768.
  destruct (stored =? 1); [reflexivity|].
  destruct (Z.ltb_spec stored 512), (Z.leb_spec 512 stored); try lia;
    [reflexivity|].
  destruct (Z.ltb_spec 32768 stored), (Z.leb_spec stored 32768); try lia;
    [reflexivity|].
  simpl. now destruct (Z.land (stored - 1) stored =? 0).
Qed.

Lemma formatDatabaseGetPageSize_spec (header : list byte) (h16 h17 : byte) :
  header !! 16%nat = Some h16 -> header !! 17%nat = Some h17 ->
  let stored := stored_page_size h16 h17 in
  formatDatabaseGetPageSize header
  = Returns (if stored =? 1 then 65536
             else if (512 <=? stored) && (stored <=? 32768)
                     && (Z.land (stored - 1) stored =? 0)
                  then stored else 0).
Proof.
  intros H16 H17 stored. unfold formatDatabaseGetPageSize, header_byte.
  rewrite H16, H17. simpl. apply formatDecodePageSize_spec.
Qed.

(** C6. The page size decoded from a database header is 65536 when the
    two bytes at offsets 16 and 17 store 1, the stored value itself when
    that is a power of two between 512 and 32768, and for every other
    stored value the decoder yields 0, no page size, and a database write
    at offset 0 that carries this header fails and changes nothing. *)
Theorem database_page_size_decoding (header : list byte) (h16 h17 : byte) :
  header !! 16%nat = Some h16 -> header !! 17%nat = Some h17 ->
  let stored := stored_page_size h16 h17 in
  (stored = 1 -> formatDatabaseGetPageSize header = Returns 65536)
  /\ (is_power_of_two stored -> 512 <= stored <= 32768 ->
      formatDatabaseGetPageSize header = Returns stored)
  /\ (stored <> 1 -> ~ (is_power_of_two stored /\ 512 <= stored <= 32768) ->
      formatDatabaseGetPageSize header = Returns 0
      /\ forall (v : vfs) (c : vfsContent) (amount : Z),
           type c = VFS__DATABASE -> 0 < refcount c ->
           FORMAT__DB_HDR_SIZE <= amount ->
           exists rc, vfsFileWrite v c header amount 0 = Returns (rc, c)
                      /\ rc <> SQLITE_OK).
Proof.
  intros H16 H17 stored.
  pose proof (formatDatabaseGetPageSize_spec header h16 h17 H16 H17) as Hdec.
  fold stored in Hdec. cbv zeta in Hdec.
  split; [|split].
  - intros H1. rewrite Hdec, H1. reflexivity.
  - intros Hpow Hrange. rewrite Hdec.
    destruct (Z.eqb_spec stored 1) as [H1|_]; [lia|].
    destruct (Z.leb_spec 512 stored); [|lia].
    destruct (Z.leb_spec stored 32768); [|lia].
    apply land_pred_power_of_two in Hpow; [|lia].
    rewrite Hpow. reflexivity.
  - intros Hne Hbad.
    assert (Hzero : formatDatabaseGetPageSize header = Returns 0).
    { rewrite Hdec. destruct (Z.eqb_spec stored 1) as [H1|_]; [contradiction|].
      destruct (Z.leb_spec 512 stored); [|reflexivity].
      destruct (Z.leb_spec stored 32768); [|reflexivity].
      destruct (Z.eqb_spec (Z.land (stored - 1) stored) 0) as [Hland|_];
        [|reflexivity].
      exfalso. apply Hbad. split; [|lia].
      apply land_pred_power_of_two; [lia|assumption]. }
    split; [assumption|].
    intros v c amount Hty Hrc Hamount. exists SQLITE_CORRUPT.
    split; [|discriminate].
    unfold vfsFileWrite, FORMAT__DB_HDR_SIZE in *.
    destruct (Z.ltb_spec 0 amount); [|lia].
    destruct (Z.ltb_spec 0 (refcount c)); [|lia].
    simpl. rewrite Hty. simpl.
    destruct (Z.leb_spec 100 amount); [|lia]. simpl.
    unfold format__get_page_size. rewrite Hzero. reflexivity.
Qed.

(** ** The page_size pragma *)


(** [atoi] yields the number written when an [int] can hold it. *)
Lemma atoi_number_written (s : string) :
  - 2 ^ 31 <= number_written s < 2 ^ 31 -> atoi s = number_written s.
Proof.
  intros Hs. unfold atoi, strtol, LONG_MIN, LONG_MAX, to_int.
  change (2 ^ 31) with 2147483648 in *. change (2 ^ 32) with 4294967296.
  change (2 ^ 63) with 9223372036854775808.
  rewrite Z.min_r, Z.max_r by lia. rewrite Z.mod_small; lia.
Qed.



(** ** The registry *)

Lemma lookup_contents_None (l : list vfsContent) (name : string) :
  lookup_contents l name = None <-> name ∉ filename <$> l.
Proof.
  induction l as [|c l IH]; simpl.
  - split; [intros _; apply not_elem_of_nil|reflexivity].
  - rewrite not_elem_of_cons.
    destruct (String.eqb_spec (filename c) name) as [Heq|Hne].
    + split; [discriminate|]. intros [Hn _]. congruence.
    + rewrite IH. split; [intros H; split; [congruence|assumption]|now intros [_ H]].
Qed.

Lemma update_contents_names (l : list vfsContent) (name : string)
    (f : vfsContent -> vfsContent) :
  (forall c, filename (f c) = filename c) ->
  filename <$> update_contents l name f = filename <$> l.
Proof.
  intros Hf. induction l as [|c l IH]; simpl; [reflexivity|].
  destruct (String.eqb (filename c) name); csimpl; [now rewrite Hf|now rewrite IH].
Qed.

(** Deleting the content that a lookup finds. *)
Lemma delete_contents_found (l : list vfsContent) (name : string) (c : vfsContent) :
  lookup_contents l name = Some c ->
  if 0 <? refcount c then delete_contents l name = Busy
  else exists l', delete_contents l name = Deleted l'
                  /\ (forall other, other <> name ->
                        lookup_contents l' other = lookup_contents l other)
                  /\ (NoDup (filename <$> l) ->
                      lookup_contents l' name = None
                      /\ NoDup (filename <$> l')).
Proof.
  induction l as [|d l IH]; simpl; [discriminate|].
  destruct (String.eqb_spec (filename d) name) as [Heq|Hne]; simpl.
  - intros [= <-]. destruct (0 <? refcount d); [reflexivity|].
    exists l. split; [reflexivity|]. split.
    + intros other Hother.
      destruct (String.eqb_spec (filename d) other); [congruence|reflexivity].
    + intros Hnd. apply NoDup_cons in Hnd as [Hnotin Hnd].
      split; [|assumption]. apply lookup_contents_None. now rewrite <- Heq.
  - intros Hc. specialize (IH Hc). destruct (0 <? refcount c).
    + now rewrite IH.
    + destruct IH as (l' & -> & Hother & Huniq).
      exists (d :: l'). split; [reflexivity|]. split.
      * intros other Ho. simpl. now rewrite Hother.
      * intros Hnd. apply NoDup_cons in Hnd as [Hnotin Hnd].
        destruct (Huniq Hnd) as [Hnone Hnd']. simpl.
        destruct (String.eqb_spec (filename d) name); [congruence|].
        split; [assumption|]. apply NoDup_cons. split; [|assumption].
        intros Hin. apply Hnotin.
        apply lookup_contents_None in Hin; [contradiction|].
        rewrite Hother by congruence. now apply lookup_contents_None.
Qed.

(** The registry never holds two contents of the same name: it starts
    empty, and opening and deleting keep the names distinct. *)
Lemma vfsCreate_names_unique (e : Z) : names_unique (vfsCreate e).
Proof. apply NoDup_nil_2. Qed.

Lemma vfsDeleteContent_names_unique (v : vfs) (name : string) :
  names_unique v -> names_unique (vfsDeleteContent v name).2.
Proof.
  unfold names_unique, vfsDeleteContent. intros Hnd.
  destruct (delete_contents (contents v) name) as [rest| |] eqn:Hdel;
    simpl; try assumption.
  destruct (lookup_contents (contents v) name) as [c|] eqn:Hc.
  - pose proof (delete_contents_found _ _ _ Hc) as Hfound.
    destruct (0 <? refcount c); [congruence|].
    destruct Hfound as (l' & Hl' & _ & Huniq).
    rewrite Hdel in Hl'. injection Hl' as <-. now apply Huniq.
  - exfalso. clear Hnd. revert rest Hdel.
    induction (contents v) as [|d l IH]; simpl in *; [discriminate|].
    destruct (String.eqb (filename d) name); simpl in *; [discriminate|].
    intros rest Hdel. destruct (delete_contents l name); try discriminate.
    now apply (IH Hc rest0).
Qed.

Lemma vfsOpen_names_unique (v v' : vfs) (name : string) (flags rc : Z)
    (h : option vfsFile) :
  names_unique v ->
  vfsOpen v name flags = Returns (rc, v', h) ->
  names_unique v'.
Proof.
  unfold names_unique, vfsOpen. intros Hnd H. inv_bind H.
  destruct (vfsContentLookup v name) as [c|] eqn:Hc.
  - destruct (flag_set flags SQLITE_OPEN_EXCLUSIVE && flag_set flags SQLITE_OPEN_CREATE);
      injection H as _ <- _; simpl; [assumption|].
    now rewrite update_contents_names.
  - apply lookup_contents_None in Hc.
    destruct (negb (flag_set flags SQLITE_OPEN_CREATE));
      [injection H as _ <- _; assumption|].
    destruct (open_type flags) as [ty|]; [|injection H as _ <- _; assumption].
    assert (Hnew : NoDup (filename <$> contents v
                          ++ [incr_refcount (vfsContentCreate name ty)])).
    { rewrite fmap_app. apply NoDup_app. split; [assumption|]. split.
      - intros x Hx Hin. simpl in Hin. apply list_elem_of_singleton in Hin.
        subst x. contradiction.
      - apply NoDup_singleton. }
    destruct ty; try (injection H as _ <- _; exact Hnew).
    destruct (vfsDatabaseContentLookup v name) as [rc' [database|]];
      injection H as _ <- _; simpl; [|assumption].
    rewrite fmap_app, update_contents_names by reflexivity.
    now rewrite fmap_app in Hnew.
Qed.

Lemma vfsFileClose_names_unique (v v' : vfs) (f : vfsFile) (rc : Z) :
  names_unique v ->
  vfsFileClose v f = Returns (rc, v') ->
  names_unique v'.
Proof.
  unfold vfsFileClose. intros Hnd H.
  destruct (vfsContentLookup v (content f)) as [c|]; [|discriminate].
  inv_bind H.
  set (release := fun c : vfsContent => _) in H.
  assert (Hrel : forall d, filename (release d) = filename d).
  { intros d. unfold release.
    now destruct ((refcount (set_refcount (refcount d - 1) d) =? 0)
                  && vfsContentType_eqb (type (set_refcount (refcount d - 1) d))
                                        VFS__DATABASE). }
  set (v1 := {| contents := update_contents (contents v) (content f) release;
                error := error v |}) in H.
  assert (Hv1 : names_unique v1).
  { unfold names_unique, v1. simpl. now rewrite update_contents_names. }
  destruct (flag_set (flags f) SQLITE_OPEN_DELETEONCLOSE).
  - injection H as H. rewrite (surjective_pairing (vfsDeleteContent _ _)) in H.
    injection H as _ <-. now apply vfsDeleteContent_names_unique.
  - now injection H as _ <-.
Qed.

(** C7, as the code has it.  Deleting a file that a lookup finds with a
    positive reference count fails with the delete I/O error
    [SQLITE_IOERR_DELETE], not with [SQLITE_BUSY]: the busy code is only the
    error kept for the last-error query, [EBUSY]; the registry still holds
    the same contents.  Deleting one whose reference count is zero succeeds
    and removes the content: with distinct names in the registry,
    [vfsAccess] then reports the file absent, while every other file is
    found as before. *)
Theorem delete_busy_or_destroyed (v : vfs) (name : string) (c : vfsContent)
    (dir_sync access_flags : Z) :
  vfsContentLookup v name = Some c ->
  (0 < refcount c ->
   exists v', vfsDelete v name dir_sync = (SQLITE_IOERR_DELETE, v')
              /\ vfsGetLastError v' = EBUSY
              /\ contents v' = contents v
              /\ vfsContentLookup v' name = Some c)
  /\ (refcount c = 0 ->
      exists v', vfsDelete v name dir_sync = (SQLITE_OK, v')
                 /\ (forall other, other <> name ->
                       vfsContentLookup v' other = vfsContentLookup v other)
                 /\ (names_unique v ->
                     vfsContentLookup v' name = None
                     /\ vfsAccess v' name access_flags = (SQLITE_OK, 0))).
Proof.
  intros Hc. unfold vfsContentLookup in Hc.
  pose proof (delete_contents_found _ _ _ Hc) as Hdel.
  unfold vfsDelete, vfsDeleteContent. split.
  - intros Hpos. destruct (Z.ltb_spec 0 (refcount c)); [|lia].
    rewrite Hdel. eexists. split; [reflexivity|]. repeat split. assumption.
  - intros Hzero. destruct (Z.ltb_spec 0 (refcount c)); [lia|].
    destruct Hdel as (l' & -> & Hother & Huniq).
    eexists. split; [reflexivity|]. split; [exact Hother|].
    intros Hnd. destruct (Huniq Hnd) as [Hnone _].
    unfold vfsAccess, vfsContentLookup. simpl. now rewrite Hnone.
Qed.

Lemma string_length_append (a b : string) :
  String.length (a ++ b) = (String.length a + String.length b)%nat.
Proof. induction a as [|x a IH]; simpl; [reflexivity|now rewrite IH]. Qed.

Lemma substring_append_prefix (a b : string) :
  String.substring 0 (String.length a) (a ++ b) = a.
Proof.
  induction a as [|x a IH]; simpl.
  - now destruct b.
  - now rewrite IH.
Qed.

(** The database looked up for a WAL file named [main ++ "-wal"] is the
    content named [main]. *)
Lemma vfsDatabaseContentLookup_suffix (v : vfs) (main : string) :
  vfsDatabaseContentLookup v (main ++ "-wal")
  = match vfsContentLookup v main with
    | None => (SQLITE_CORRUPT, None)
    | Some c => (SQLITE_OK, Some c)
    end.
Proof.
  unfold vfsDatabaseContentLookup. rewrite string_length_append. simpl String.length.
  destruct (Z.leb_spec (Z.of_nat (String.length main + 4) - Z.of_nat 4 + 1) 0);
    [lia|].
  replace (Z.to_nat (Z.of_nat (String.length main + 4) - Z.of_nat 4 + 1 - 1))
    with (String.length main) by lia.
  now rewrite substring_append_prefix.
Qed.

(** C4, as the code has it.  Take a WAL file name [main ++ "-wal"] that
    the registry does not hold yet, and a registry holding no content named
    [main].  Opening it with flags that select the WAL type fails and leaves
    the contents of the registry as they are: with the create flag the
    status is [SQLITE_CORRUPT] and the last error [ENOMEM]; without it the
    status is [SQLITE_CANTOPEN] and the last error [ENOENT]. *)
Theorem open_wal_without_database (v : vfs) (main : string) (flags : Z) :
  vfsContentLookup v (main ++ "-wal") = None ->
  vfsContentLookup v main = None ->
  open_type flags = Some VFS__WAL ->
  negb (flag_set flags SQLITE_OPEN_EXCLUSIVE) || flag_set flags SQLITE_OPEN_CREATE
  = true ->
  exists rc e,
    vfsOpen v (main ++ "-wal") flags = Returns (rc, set_error e v, None)
    /\ contents (set_error e v) = contents v
    /\ (if flag_set flags SQLITE_OPEN_CREATE
        then rc = SQLITE_CORRUPT /\ e = ENOMEM
        else rc = SQLITE_CANTOPEN /\ e = ENOENT).
Proof.
  intros Hwal Hmain Hty Hexcl. unfold vfsOpen. rewrite Hexcl, Hwal. simpl.
  destruct (flag_set flags SQLITE_OPEN_CREATE); simpl.
  - rewrite Hty, vfsDatabaseContentLookup_suffix, Hmain.
    exists SQLITE_CORRUPT, ENOMEM. repeat split.
  - exists SQLITE_CANTOPEN, ENOENT. repeat split.
Qed.

(** ** Truncating and reading files *)

Lemma vfsContentIsEmpty_nonempty (c : vfsContent) :
  pages c <> [] -> 0 < page_size c -> vfsContentIsEmpty c = Returns false.
Proof.
  intros Hp Hs. unfold vfsContentIsEmpty, n_pages.
  destruct (pages c) as [|p ps]; [contradiction|]. simpl length.
  destruct (Z.eqb_spec (Z.of_nat (Datatypes.S (length ps))) 0); [lia|].
  destruct (Z.ltb_spec 0 (Z.of_nat (Datatypes.S (length ps)))); [|lia].
  destruct (Z.ltb_spec 0 (page_size c)); [reflexivity|lia].
Qed.

Lemma vfsContentIsEmpty_empty (c : vfsContent) :
  pages c = [] -> vfsContentIsEmpty c = Returns true.
Proof. intros Hp. unfold vfsContentIsEmpty, n_pages. now rewrite Hp. Qed.

(** C5, as the code has it.  On a WAL file that holds at least one frame,
    truncating to a size other than zero is refused with [SQLITE_PROTOCOL]
    and changes nothing, and truncating to zero succeeds, zeroes the 32
    bytes of the WAL header and drops every frame, so that the file is
    empty.  On a WAL file without frames a positive size is refused with
    [SQLITE_IOERR_TRUNCATE], and truncating to zero succeeds without
    touching the file, its header buffer included. *)
Theorem wal_truncate (c : vfsContent) (size : Z) :
  type c = VFS__WAL ->
  (pages c <> [] -> 0 < page_size c ->
   (size <> 0 -> vfsFileTruncate c size = Returns (SQLITE_PROTOCOL, c))
   /\ (size = 0 ->
       exists c', vfsFileTruncate c size = Returns (SQLITE_OK, c')
                  /\ wal_hdr c' = zeros FORMAT__WAL_HDR_SIZE
                  /\ pages c' = []
                  /\ vfsContentIsEmpty c' = Returns true
                  /\ filename c' = filename c /\ type c' = type c
                  /\ page_size c' = page_size c /\ refcount c' = refcount c))
  /\ (pages c = [] ->
      (0 < size -> vfsFileTruncate c size = Returns (SQLITE_IOERR_TRUNCATE, c))
      /\ (size = 0 -> vfsFileTruncate c size = Returns (SQLITE_OK, c))).
Proof.
  intros Hty. unfold vfsFileTruncate. rewrite Hty. simpl. split.
  - intros Hp Hs. rewrite vfsContentIsEmpty_nonempty by assumption. simpl. split.
    + intros Hsize. now destruct (Z.eqb_spec size 0).
    + intros ->. simpl. unfold vfsContentTruncate. rewrite Hty.
      change (uint 0) with 0.
      assert (Hn : 0 < n_pages c).
      { unfold n_pages. destruct (pages c); [contradiction|simpl; lia]. }
      destruct (Z.ltb_spec 0 (n_pages c)); [|lia].
      destruct (Z.leb_spec 0 (n_pages c)); [|lia]. simpl.
      eexists. split; [reflexivity|]. simpl.
      change (Z.to_nat 0) with 0%nat. rewrite take_0.
      repeat split; auto.
  - intros Hp. rewrite vfsContentIsEmpty_empty by assumption. simpl. split.
    + intros Hsize. now destruct (Z.ltb_spec 0 size); [|lia].
    + now intros ->.
Qed.

(** C2, as the code has it.  On a WAL file that holds at least one frame
    and whose page size is set, reading 8 bytes at offset 24 succeeds and
    yields bytes [24,32) of the 32-byte WAL header, the checksum field. *)
Theorem wal_read_header_checksum (v : vfs) (c : vfsContent) :
  type c = VFS__WAL ->
  pages c <> [] -> 0 < page_size c -> 0 < refcount c ->
  length (wal_hdr c) = 32%nat ->
  exists data,
    vfsFileRead v c 8 24 = Returns (SQLITE_OK, data, c)
    /\ length data = 8%nat
    /\ forall k : nat, (k < 8)%nat -> data !! k = wal_hdr c !! (24 + k)%nat.
Proof.
  intros Hty Hp Hs Hrc Hlen. unfold vfsFileRead. simpl.
  destruct (Z.ltb_spec 0 (refcount c)); [|lia]. simpl.
  rewrite vfsContentIsEmpty_nonempty by assumption. simpl.
  rewrite Hty. simpl. unfold wal_inherit_page_size.
  destruct (Z.eqb_spec (page_size c) 0); [lia|]. simpl.
  unfold wal_read_pgno. simpl. unfold memcpy_from. rewrite Hlen. simpl.
  eexists. split; [reflexivity|]. split.
  - rewrite length_take, length_drop, Hlen. reflexivity.
  - intros k Hk. rewrite lookup_take_lt by assumption.
    now rewrite lookup_drop.
Qed.




(** ** format.c: big-endian words *)

Lemma byte_val_of_Z (x : Z) : byte_val (byte_of_Z x) = x mod 256.
Proof.
  unfold byte_val, byte_of_Z.
  pose proof (Z.mod_pos_bound x 256 eq_refl) as Hx.
  destruct (Byte.of_N (Z.to_N (x mod 256))) as [b|] eqn:Hb.
  - apply Byte.to_of_N in Hb. rewrite Hb. lia.
  - apply Byte.of_N_None_iff in Hb. lia.
Qed.

Lemma byte_of_Z_val (b : byte) : byte_of_Z (byte_val b) = b.
Proof.
  unfold byte_of_Z. pose proof (byte_val_range b) as Hb.
  rewrite Z.mod_small by assumption. unfold byte_val.
  now rewrite N2Z.id, Byte.of_to_N.
Qed.

Lemma byte_of_Z_mod (x : Z) (b : byte) :
  x mod 256 = byte_val b -> byte_of_Z x = b.
Proof.
  intros H. unfold byte_of_Z. rewrite H. unfold byte_val.
  now rewrite N2Z.id, Byte.of_to_N.
Qed.

(** The value that [formatGet32] decodes. *)
Lemma formatGet32_value (b0 b1 b2 b3 : byte) (rest : list byte) :
  formatGet32 (b0 :: b1 :: b2 :: b3 :: rest)
  = Returns (byte_val b0 * 2 ^ 24 + byte_val b1 * 2 ^ 16
             + byte_val b2 * 2 ^ 8 + byte_val b3).
Proof.
  unfold formatGet32, read_u8; cbn [lookup list_lookup mbind outcome_bind].
  pose proof (byte_val_range b0). pose proof (byte_val_range b1).
  pose proof (byte_val_range b2). pose proof (byte_val_range b3).
  rewrite !Z.shiftl_mul_pow2 by lia.
  assert (Hsmall : forall x, 0 <= x < 2 ^ 32 -> uint x = x).
  { intros x Hx. unfold uint, UINT_MODULUS. now apply Z.mod_small. }
  change (2 ^ 32) with 4294967296 in Hsmall.
  change (2 ^ 24) with 16777216. change (2 ^ 16) with 65536.
  change (2 ^ 8) with 256.
  rewrite Z.add_0_l.
  rewrite (Hsmall (byte_val b3)) by lia.
  rewrite !(Hsmall (byte_val b0 * 16777216)) by lia.
  rewrite (Hsmall (byte_val b1 * 65536)) by lia.
  rewrite (Hsmall (byte_val b2 * 256)) by lia.
  rewrite (Hsmall (byte_val b0 * 16777216 + byte_val b1 * 65536)) by lia.
  rewrite (Hsmall (byte_val b0 * 16777216 + byte_val b1 * 65536
                   + byte_val b2 * 256)) by lia.
  rewrite Hsmall by lia. reflexivity.
Qed.

Lemma formatGet32_put32 (v : Z) (rest : list byte) :
  0 <= v < 2 ^ 32 -> formatGet32 (formatPut32 v ++ rest) = Returns v.
Proof.
  intros Hv. change (2 ^ 32) with 4294967296 in Hv.
  unfold formatPut32. simpl app. rewrite formatGet32_value, !byte_val_of_Z.
  rewrite !Z.shiftr_div_pow2 by lia. f_equal.
  change (2 ^ 24) with (256 * 256 * 256). change (2 ^ 16) with (256 * 256).
  change (2 ^ 8) with 256.
  rewrite <- !Z.div_div by lia.
  assert (Htop : v / 256 / 256 / 256 < 256).
  { do 3 (apply Z.div_lt_upper_bound; [lia|]). lia. }
  assert (0 <= v / 256 / 256 / 256) by (repeat apply Z.div_pos; lia).
  rewrite (Z.mod_small (v / 256 / 256 / 256)) by lia.
  pose proof (Z.div_mod v 256 ltac:(lia)).
  pose proof (Z.div_mod (v / 256) 256 ltac:(lia)).
  pose proof (Z.div_mod (v / 256 / 256) 256 ltac:(lia)).
  lia.
Qed.

Lemma formatPut32_get32 (v : Z) (b0 b1 b2 b3 : byte) (rest : list byte) :
  formatGet32 (b0 :: b1 :: b2 :: b3 :: rest) = Returns v ->
  formatPut32 v = [b0; b1; b2; b3].
Proof.
  rewrite formatGet32_value. intros [= <-].
  pose proof (byte_val_range b0) as R0. pose proof (byte_val_range b1) as R1.
  pose proof (byte_val_range b2) as R2. pose proof (byte_val_range b3) as R3.
  unfold formatPut32. rewrite !Z.shiftr_div_pow2 by lia.
  change (2 ^ 24) with 16777216. change (2 ^ 16) with 65536.
  change (2 ^ 8) with 256.
  set (x := byte_val b0 * 16777216 + byte_val b1 * 65536
            + byte_val b2 * 256 + byte_val b3).
  assert (H0 : x / 16777216 = byte_val b0).
  { symmetry. apply (Z.div_unique x 16777216 _
                       (byte_val b1 * 65536 + byte_val b2 * 256 + byte_val b3));
      unfold x; lia. }
  assert (H1 : (x / 65536) mod 256 = byte_val b1).
  { replace (x / 65536) with (byte_val b0 * 256 + byte_val b1).
    - rewrite Z.add_comm, Z.mod_add by lia. now apply Z.mod_small.
    - apply (Z.div_unique x 65536 _ (byte_val b2 * 256 + byte_val b3));
        unfold x; lia. }
  assert (H2 : (x / 256) mod 256 = byte_val b2).
  { replace (x / 256)
      with ((byte_val b0 * 256 + byte_val b1) * 256 + byte_val b2).
    - rewrite Z.add_comm, Z.mod_add by lia. now apply Z.mod_small.
    - apply (Z.div_unique x 256 _ (byte_val b3)); unfold x; lia. }
  assert (H3 : x mod 256 = byte_val b3).
  { unfold x.
    replace (byte_val b0 * 16777216 + byte_val b1 * 65536
             + byte_val b2 * 256 + byte_val b3)
      with (byte_val b3
            + (byte_val b0 * 65536 + byte_val b1 * 256 + byte_val b2) * 256)
      by lia.
    rewrite Z.mod_add by lia. now apply Z.mod_small. }
  rewrite (byte_of_Z_mod (x / 16777216) b0)
    by (rewrite H0; now apply Z.mod_small).
  now rewrite (byte_of_Z_mod _ b1 H1), (byte_of_Z_mod _ b2 H2),
    (byte_of_Z_mod _ b3 H3).
Qed.

(** X1. [formatPut32] and [formatGet32] are inverse to each other: a
    32-bit value is read back from the four bytes it is encoded in, and
    four bytes are rebuilt from the value they decode to. *)
Theorem formatGet32_formatPut32 (v : Z) (b0 b1 b2 b3 : byte) :
  0 <= v < 2 ^ 32 ->
  formatGet32 (formatPut32 v) = Returns v
  /\ (formatGet32 [b0; b1; b2; b3] = Returns v ->
      formatPut32 v = [b0; b1; b2; b3]).
Proof.
  intros Hv. split.
  - rewrite <- (app_nil_r (formatPut32 v)). now apply formatGet32_put32.
  - apply formatPut32_get32.
Qed.

(** The decoder on any four bytes. *)
Lemma formatDecodePageSize_value (b0 b1 b2 b3 : byte) :
  let stored := byte_val b0 * 2 ^ 24 + byte_val b1 * 2 ^ 16
                + byte_val b2 * 2 ^ 8 + byte_val b3 in
  formatDecodePageSize [b0; b1; b2; b3]
  = Returns (if stored =? 1 then 65536
             else if (512 <=? stored) && (stored <=? 32768)
                     && (Z.land (stored - 1) stored =? 0)
                  then stored else 0).
Proof.
  intros stored. unfold formatDecodePageSize.
  rewrite formatGet32_value. fold stored. simpl. f_equal.
  unfold FORMAT__PAGE_SIZE_MAX, FORMAT__PAGE_SIZE_MIN.
  change (65536 / 2) with 32768.
  destruct (stored =? 1); [reflexivity|].
  destruct (Z.ltb_spec stored 512), (Z.leb_spec 512 stored); try lia;
    [reflexivity|].
  destruct (Z.ltb_spec 32768 stored), (Z.leb_spec stored 32768); try lia;
    [reflexivity|].
  simpl. now destruct (Z.land (stored - 1) stored =? 0).
Qed.

(** X2. The page size decoded from a WAL header is 65536 when the four
    bytes at offsets 8 to 11 store 1, the stored value itself when that is
    a power of two between 512 and 32768, and 0 for every other stored
    value; in particular a header that stores 65536 itself decodes to 0. *)
Theorem wal_page_size_decoding (header : list byte) (h8 h9 h10 h11 : byte) :
  header !! 8%nat = Some h8 -> header !! 9%nat = Some h9 ->
  header !! 10%nat = Some h10 -> header !! 11%nat = Some h11 ->
  let stored := byte_val h8 * 2 ^ 24 + byte_val h9 * 2 ^ 16
                + byte_val h10 * 2 ^ 8 + byte_val h11 in
  (stored = 1 -> formatWalGetPageSize header = Returns 65536)
  /\ (is_power_of_two stored -> 512 <= stored <= 32768 ->
      formatWalGetPageSize header = Returns stored)
  /\ (stored <> 1 -> ~ (is_power_of_two stored /\ 512 <= stored <= 32768) ->
      formatWalGetPageSize header = Returns 0)
  /\ (stored = 65536 -> formatWalGetPageSize header = Returns 0).
Proof.
  intros H8 H9 H10 H11 stored.
  assert (Hdec : formatWalGetPageSize header
                 = Returns (if stored =? 1 then 65536
                            else if (512 <=? stored) && (stored <=? 32768)
                                    && (Z.land (stored - 1) stored =? 0)
                                 then stored else 0)).
  { unfold formatWalGetPageSize, header_byte.
    rewrite H8, H9, H10, H11. simpl. apply formatDecodePageSize_value. }
  rewrite Hdec. split; [|split; [|split]].
  - now intros ->.
  - intros Hpow Hrange.
    destruct (Z.eqb_spec stored 1) as [H1|_]; [lia|].
    destruct (Z.leb_spec 512 stored); [|lia].
    destruct (Z.leb_spec stored 32768); [|lia].
    apply land_pred_power_of_two in Hpow; [|lia].
    now rewrite Hpow.
  - intros Hne Hbad.
    destruct (Z.eqb_spec stored 1) as [H1|_]; [contradiction|].
    destruct (Z.leb_spec 512 stored); [|reflexivity].
    destruct (Z.leb_spec stored 32768); [|reflexivity].
    destruct (Z.eqb_spec (Z.land (stored - 1) stored) 0) as [Hland|_];
      [|reflexivity].
    exfalso. apply Hbad. split; [|lia].
    apply land_pred_power_of_two; [lia|assumption].
  - now intros ->.
Qed.

(** ** format.c: the WAL checksum *)

Lemma read_u8_app_l (d1 d2 : list byte) (i : nat) :
  (i < length d1)%nat -> read_u8 (d1 ++ d2) i = read_u8 d1 i.
Proof. intros Hi. unfold read_u8. now rewrite lookup_app_l. Qed.

Lemma read_u8_app_r (d1 d2 : list byte) (i : nat) :
  read_u8 (d1 ++ d2) (length d1 + i) = read_u8 d2 i.
Proof.
  unfold read_u8. rewrite lookup_app_r by lia.
  now replace (length d1 + i - length d1)%nat with i by lia.
Qed.

Lemma load32_app_l (le : bool) (d1 d2 : list byte) (off : nat) :
  (off + 4 <= length d1)%nat -> load32 le (d1 ++ d2) off = load32 le d1 off.
Proof.
  intros Hoff. unfold load32. now rewrite !read_u8_app_l by lia.
Qed.

Lemma load32_app_r (le : bool) (d1 d2 : list byte) (off : nat) :
  load32 le (d1 ++ d2) (length d1 + off) = load32 le d2 off.
Proof.
  unfold load32. rewrite <- !Nat.add_assoc. now rewrite !read_u8_app_r.
Qed.

Lemma checksum_loop_app_l (le native : bool) (d1 d2 : list byte) (k : nat) :
  forall (cur : nat) (s1 s2 : Z),
    (cur + 8 * k <= length d1)%nat ->
    checksum_loop le native (d1 ++ d2) cur k s1 s2
    = checksum_loop le native d1 cur k s1 s2.
Proof.
  induction k as [|k IH]; intros cur s1 s2 Hlen; simpl; [reflexivity|].
  rewrite !load32_app_l by lia.
  destruct (load32 le d1 cur) as [w0|]; simpl; [|reflexivity].
  destruct (if native then Returns w0 else put32_then_load le w0) as [d0|];
    simpl; [|reflexivity].
  destruct (load32 le d1 (cur + 4)) as [w1|]; simpl; [|reflexivity].
  destruct (if native then Returns w1 else put32_then_load le w1) as [d|];
    simpl; [|reflexivity].
  apply IH. lia.
Qed.

Lemma checksum_loop_app_r (le native : bool) (d1 d2 : list byte) (k : nat) :
  forall (cur : nat) (s1 s2 : Z),
    checksum_loop le native (d1 ++ d2) (length d1 + cur) k s1 s2
    = checksum_loop le native d2 cur k s1 s2.
Proof.
  induction k as [|k IH]; intros cur s1 s2; simpl; [reflexivity|].
  rewrite <- !Nat.add_assoc, !load32_app_r.
  destruct (load32 le d2 cur) as [w0|]; simpl; [|reflexivity].
  destruct (if native then Returns w0 else put32_then_load le w0) as [d0|];
    simpl; [|reflexivity].
  destruct (load32 le d2 (cur + 4)) as [w1|]; simpl; [|reflexivity].
  destruct (if native then Returns w1 else put32_then_load le w1) as [d|];
    simpl; [|reflexivity].
  apply IH.
Qed.

Lemma checksum_loop_add (le native : bool) (d : list byte) (k1 k2 : nat) :
  forall (cur : nat) (s1 s2 : Z),
    checksum_loop le native d cur (k1 + k2) s1 s2
    = (r ← checksum_loop le native d cur k1 s1 s2;
       checksum_loop le native d (cur + 8 * k1) k2 r.1 r.2).
Proof.
  induction k1 as [|k1 IH]; intros cur s1 s2.
  - simpl. now rewrite Nat.add_0_r.
  - rewrite Nat.add_succ_l. cbn -[Nat.mul Nat.add put32_then_load load32].
    destruct (load32 le d cur) as [w0|]; cbn -[Nat.mul Nat.add put32_then_load load32]; [|reflexivity].
    destruct (if native then Returns w0 else put32_then_load le w0) as [d0|];
      cbn -[Nat.mul Nat.add put32_then_load load32]; [|reflexivity].
    destruct (load32 le d (cur + 4)) as [w1|]; cbn -[Nat.mul Nat.add put32_then_load load32];
      [|reflexivity].
    destruct (if native then Returns w1 else put32_then_load le w1) as [d1|];
      cbn -[Nat.mul Nat.add put32_then_load load32]; [|reflexivity].
    rewrite IH.
    now replace (cur + 8 + 8 * k1)%nat with (cur + 8 * Datatypes.S k1)%nat by lia.
Qed.

(** X3. The WAL checksum extends: the checksum of two pieces of content
    laid end to end is the checksum of the second piece started from the
    checksum of the first, in either byte order of the words. *)
Theorem formatWalChecksumBytes_extends (le native : bool) (d1 d2 : list byte)
    (n1 n2 : Z) (in_ : option (Z * Z)) :
  8 <= n1 -> n1 mod 8 = 0 -> 8 <= n2 -> n2 mod 8 = 0 -> n1 + n2 <= 65536 ->
  length d1 = Z.to_nat n1 ->
  formatWalChecksumBytes le native (d1 ++ d2) (n1 + n2) in_
  = (r ← formatWalChecksumBytes le native d1 n1 in_;
     formatWalChecksumBytes le native d2 n2 (Some r)).
Proof.
  intros Hn1 Hm1 Hn2 Hm2 Hsum Hlen. unfold formatWalChecksumBytes.
  assert (Hland : forall n, 0 <= n -> n mod 8 = 0 -> (Z.land n 7 =? 0) = true).
  { intros n Hn Hm. apply Z.eqb_eq. change 7 with (Z.ones 3).
    rewrite Z.land_ones by lia. exact Hm. }
  rewrite (Hland (n1 + n2)), (Hland n1), (Hland n2);
    try lia; try assumption;
    [|rewrite Z.add_mod, Hm1, Hm2 by lia; reflexivity].
  destruct (Z.leb_spec 8 (n1 + n2)); [|lia].
  destruct (Z.leb_spec 8 n1); [|lia]. destruct (Z.leb_spec 8 n2); [|lia].
  destruct (Z.leb_spec (n1 + n2) 65536); [|lia].
  destruct (Z.leb_spec n1 65536); [|lia]. destruct (Z.leb_spec n2 65536); [|lia].
  simpl.
  assert (Hk : Z.to_nat ((n1 + n2) / 8)
               = (Z.to_nat (n1 / 8) + Z.to_nat (n2 / 8))%nat).
  { rewrite <- Z2Nat.inj_add by (apply Z.div_pos; lia). f_equal.
    pose proof (Z.div_mod n1 8 ltac:(lia)). pose proof (Z.div_mod n2 8 ltac:(lia)).
    pose proof (Z.div_mod (n1 + n2) 8 ltac:(lia)).
    assert ((n1 + n2) mod 8 = 0) by (rewrite Z.add_mod, Hm1, Hm2 by lia; reflexivity).
    lia. }
  assert (Hd1 : length d1 = (8 * Z.to_nat (n1 / 8))%nat).
  { rewrite Hlen. pose proof (Z.div_mod n1 8 ltac:(lia)). lia. }
  rewrite Hk, checksum_loop_add.
  rewrite checksum_loop_app_l by lia.
  destruct (checksum_loop le native d1 0 (Z.to_nat (n1 / 8))
              (match in_ with Some s => s | None => (0, 0) end).1
              (match in_ with Some s => s | None => (0, 0) end).2) as [r|];
    simpl; [|reflexivity].
  match goal with
  | |- checksum_loop _ _ _ ?c _ _ _ = _ =>
      replace c with (length d1 + 0)%nat by lia
  end.
  apply checksum_loop_app_r.
Qed.

Lemma formatPut32_bytes (v : Z) :
  exists a b c d : byte, formatPut32 v = [a; b; c; d].
Proof. unfold formatPut32. eauto. Qed.

Lemma load32_in_bounds (le : bool) (data : list byte) (off : nat) :
  (off + 4 <= length data)%nat -> exists w, load32 le data off = Returns w.
Proof.
  intros Hoff. unfold load32, read_u8.
  destruct (lookup_lt_is_Some_2 data off) as [b0 ->]; [lia|].
  destruct (lookup_lt_is_Some_2 data (off + 1)) as [b1 ->]; [lia|].
  destruct (lookup_lt_is_Some_2 data (off + 2)) as [b2 ->]; [lia|].
  destruct (lookup_lt_is_Some_2 data (off + 3)) as [b3 ->]; [lia|].
  simpl. eauto.
Qed.

Lemma checksum_loop_in_bounds (le native : bool) (data : list byte) (k : nat) :
  forall (cur : nat) (s1 s2 : Z),
    (cur + 8 * k <= length data)%nat ->
    exists r, checksum_loop le native data cur k s1 s2 = Returns r.
Proof.
  induction k as [|k IH]; intros cur s1 s2 Hlen; [simpl; eauto|].
  cbn -[Nat.mul Nat.add put32_then_load load32].
  assert (Hput : forall w, exists d, put32_then_load le w = Returns d).
  { intros w. unfold put32_then_load. apply load32_in_bounds. simpl. lia. }
  destruct (load32_in_bounds le data cur) as [w0 ->]; [lia|].
  cbn -[Nat.mul Nat.add put32_then_load load32].
  assert (exists d0, (if native then Returns w0 else put32_then_load le w0)
                     = Returns d0) as [d0 ->].
  { destruct native; [eauto|apply Hput]. }
  cbn -[Nat.mul Nat.add put32_then_load load32].
  destruct (load32_in_bounds le data (cur + 4)) as [w1 ->]; [lia|].
  cbn -[Nat.mul Nat.add put32_then_load load32].
  assert (exists d1, (if native then Returns w1 else put32_then_load le w1)
                     = Returns d1) as [d1 ->].
  { destruct native; [eauto|apply Hput]. }
  cbn -[Nat.mul Nat.add put32_then_load load32].
  apply IH. lia.
Qed.

(** The checksum of the first 24 bytes of a buffer. *)
Lemma checksum_24 (le native : bool) (pre post : list byte) (in_ : option (Z * Z)) :
  length pre = 24%nat ->
  exists r, formatWalChecksumBytes le native (pre ++ post) 24 in_ = Returns r
            /\ formatWalChecksumBytes le native pre 24 in_ = Returns r.
Proof.
  intros Hlen. unfold formatWalChecksumBytes.
  change (8 <=? 24) with true. change (Z.land 24 7 =? 0) with true.
  change (24 <=? 65536) with true. cbn [assert mbind outcome_bind].
  change (Z.to_nat (24 / 8)) with 3%nat.
  rewrite checksum_loop_app_l by (rewrite Hlen; simpl; lia).
  destruct (checksum_loop_in_bounds le native pre 3 0
              (match in_ with Some s => s | None => (0, 0) end).1
              (match in_ with Some s => s | None => (0, 0) end).2) as [r Hr];
    [rewrite Hlen; simpl; lia|].
  exists r. now rewrite Hr.
Qed.

Ltac store_step :=
  match goal with
  | |- context [store_at ?h ?o ?s] =>
      let r := eval cbv in (store_at h o s) in
      change (store_at h o s) with r
  end;
  cbn [mbind outcome_bind].

(** X4. Restarting a 32-byte WAL header keeps its first twelve bytes (and
    with them the page size it encodes), adds one, modulo 2^32, to the
    checkpoint sequence number and to the first salt, stores the fresh
    second salt, and ends with the big-endian checksum, in native word
    order, of the 24 bytes before it. *)
Theorem formatWalRestartHeader_spec (le : bool) (salt2 : byte * byte * byte * byte)
    (header : list byte) :
  length header = 32%nat ->
  exists (header' : list byte) (checkpoint salt1 : Z) (checksum : Z * Z),
    formatWalRestartHeader le salt2 header = Returns header'
    /\ length header' = 32%nat
    /\ take 12 header' = take 12 header
    /\ formatWalGetPageSize header' = formatWalGetPageSize header
    /\ formatGet32 (drop 12 header) = Returns checkpoint
    /\ formatGet32 (drop 12 header') = Returns (uint (checkpoint + 1))
    /\ formatGet32 (drop 16 header) = Returns salt1
    /\ formatGet32 (drop 16 header') = Returns (uint (salt1 + 1))
    /\ take 4 (drop 20 header')
       = [salt2.1.1.1; salt2.1.1.2; salt2.1.2; salt2.2]
    /\ formatWalChecksumBytes le true (take 24 header') 24 (Some (0, 0))
       = Returns checksum
    /\ drop 24 header' = formatPut32 checksum.1 ++ formatPut32 checksum.2.
Proof.
  intros Hlen.
  do 32 (destruct header as [|? header]; [discriminate Hlen|]).
  destruct header; [|discriminate Hlen]. clear Hlen.
  destruct salt2 as [[[r0 r1] r2] r3].
  unfold formatWalRestartHeader. cbn [drop fst snd].
  rewrite !formatGet32_value. cbn [mbind outcome_bind].
  set (ck := byte_val b11 * 2 ^ 24 + byte_val b12 * 2 ^ 16
             + byte_val b13 * 2 ^ 8 + byte_val b14).
  set (sa := byte_val b15 * 2 ^ 24 + byte_val b16 * 2 ^ 16
             + byte_val b17 * 2 ^ 8 + byte_val b18).
  assert (Hu : forall x, 0 <= uint x < 2 ^ 32).
  { intros x. unfold uint, UINT_MODULUS. now apply Z.mod_pos_bound. }
  pose proof (formatGet32_put32 (uint (ck + 1))) as Hck.
  pose proof (formatGet32_put32 (uint (sa + 1))) as Hsa.
  destruct (formatPut32_bytes (uint (ck + 1))) as (p0 & p1 & p2 & p3 & Hp).
  destruct (formatPut32_bytes (uint (sa + 1))) as (q0 & q1 & q2 & q3 & Hq).
  rewrite Hp in *. rewrite Hq in *.
  store_step. cbn [skipn]. rewrite formatGet32_value. fold sa.
  cbn [mbind outcome_bind]. rewrite Hq. store_step. store_step.
  match goal with
  | |- context [formatWalChecksumBytes le true ?h 24 (Some (0, 0))] =>
      change h with (take 24 h ++ drop 24 h);
      destruct (checksum_24 le true (take 24 h) (drop 24 h) (Some (0, 0)) eq_refl)
        as (c & Hc & Hc')
  end.
  rewrite Hc. cbn [mbind outcome_bind].
  destruct (formatPut32_bytes c.1) as (c0 & c1 & c2 & c3 & Hc1).
  destruct (formatPut32_bytes c.2) as (e0 & e1 & e2 & e3 & Hc2).
  rewrite Hc1, Hc2. cbn [firstn skipn app]. store_step. store_step.
  eexists _, ck, sa, c. split; [reflexivity|].
  split; [reflexivity|]. split; [reflexivity|]. split; [reflexivity|].
  split; [reflexivity|].
  split; [apply (Hck _ (Hu _))|]. split; [reflexivity|].
  split; [apply (Hsa _ (Hu _))|]. split; [reflexivity|].
  split; [exact Hc'|]. rewrite Hc1, Hc2. reflexivity.
Qed.

(** ** vfs.c: guessing the file type *)

Lemma is_prefix_spec (p s : string) :
  is_prefix p s = true <-> exists b, s = (p ++ b)%string.
Proof.
  revert s. induction p as [|x p IH]; intros s; simpl.
  - split; [intros _; now exists s|reflexivity].
  - destruct s as [|y s].
    + split; [discriminate|]. intros [b Hb]. discriminate Hb.
    + rewrite andb_true_iff, IH. split.
      * intros [Hxy [b ->]]. apply Ascii.eqb_eq in Hxy. subst. now exists b.
      * intros [b [= -> ->]]. split; [apply Ascii.eqb_refl|now exists b].
Qed.

Lemma strstr_spec (haystack needle : string) :
  strstr haystack needle = true
  <-> exists a b, haystack = (a ++ needle ++ b)%string.
Proof.
  induction haystack as [|x h IH]; simpl.
  - rewrite orb_false_r, is_prefix_spec. split.
    + intros [b Hb]. now exists EmptyString, b.
    + intros (a & b & Hab). destruct a; [now exists b|discriminate Hab].
  - rewrite orb_true_iff, IH, is_prefix_spec. split.
    + intros [[b Hb]|(a & b & ->)].
      * now exists EmptyString, b.
      * now exists (String x a), b.
    + intros (a & b & Hab). destruct a as [|y a].
      * left. now exists b.
      * right. injection Hab as _ ->. now exists a, b.
Qed.

(** X5. A file is taken for a WAL exactly when "-wal" occurs somewhere in
    its name, not only at its end; every other name is taken for a
    database. *)
Theorem vfsGuessFileType_spec (name : string) :
  (vfsGuessFileType name = FORMAT__WAL
   <-> exists a b, name = (a ++ "-wal" ++ b)%string)
  /\ (vfsGuessFileType name = FORMAT__DB
      <-> ~ exists a b, name = (a ++ "-wal" ++ b)%string).
Proof.
  unfold vfsGuessFileType. rewrite <- strstr_spec.
  destruct (strstr name "-wal"); split; split;
    try discriminate; try reflexivity; try (intros H; now contradict H).
Qed.

(** ** The lock table: what a call does exactly *)

(** A loop whose body either goes on with the state it was given or leaves
    the function with one given value does the same as a whole. *)
Lemma for_range_inspect {S R : Type} (body : Z -> S -> outcome (ctl S R))
    (s : S) (r0 : R) (k : nat) :
  forall i : Z,
    (forall j, i <= j < i + Z.of_nat k ->
               body j s = Returns (Continue s)
               \/ body j s = Returns (Return r0)) ->
    for_range body i k s = Returns (Continue s)
    \/ for_range body i k s = Returns (Return r0).
Proof.
  induction k as [|k IH]; intros i Hbody; simpl; [now left|].
  destruct (Hbody i) as [-> | ->]; [lia| |now right]. simpl.
  apply IH. intros j Hj. apply Hbody. lia.
Qed.

(** Both counts of a slot of a well-formed table can be read. *)
Lemma shm_inv_slot (s : vfsShm) (j : Z) :
  shm_inv s -> 0 <= j < SQLITE_SHM_NLOCK ->
  exists sh ex, shared s !! Z.to_nat j = Some sh
                /\ exclusive s !! Z.to_nat j = Some ex
                /\ slot_ok sh ex.
Proof.
  intros (Hls & Hlx & Hslots) Hj.
  destruct (lookup_lt_is_Some_2 (shared s) (Z.to_nat j)) as [sh Hsh]; [lia|].
  destruct (lookup_lt_is_Some_2 (exclusive s) (Z.to_nat j)) as [ex Hex]; [lia|].
  exists sh, ex. split; [assumption|]. split; [assumption|].
  now apply (Hslots (Z.to_nat j)).
Qed.

Lemma shm_excl_check_body_cases (s : vfsShm) (j sh ex : Z) :
  0 <= j ->
  shared s !! Z.to_nat j = Some sh -> exclusive s !! Z.to_nat j = Some ex ->
  shm_excl_check_body j s
  = Returns (if (0 <? sh) || (0 <? ex) then Return SQLITE_BUSY else Continue s).
Proof.
  intros Hj Hsh Hex. unfold shm_excl_check_body.
  rewrite (array_get_lookup _ _ _ Hj Hsh). simpl.
  destruct (0 <? sh); [reflexivity|].
  rewrite (array_get_lookup _ _ _ Hj Hex). simpl.
  now destruct (0 <? ex).
Qed.

(** The first loop of an exclusive acquisition, decided. *)
Lemma excl_check_loop_decided (s : vfsShm) (ofst : Z) (k : nat) :
  shm_inv s -> 0 <= ofst -> ofst + Z.of_nat k <= SQLITE_SHM_NLOCK ->
  ((forall j, ofst <= j < ofst + Z.of_nat k ->
              shared s !! Z.to_nat j = Some 0
              /\ exclusive s !! Z.to_nat j = Some 0) ->
   for_range shm_excl_check_body ofst k s = Returns (Continue s))
  /\ ((exists j sh ex, ofst <= j < ofst + Z.of_nat k
                       /\ shared s !! Z.to_nat j = Some sh
                       /\ exclusive s !! Z.to_nat j = Some ex
                       /\ (0 < sh \/ 0 < ex)) ->
      for_range shm_excl_check_body ofst k s = Returns (Return SQLITE_BUSY)).
Proof.
  intros Hinv Hofst Hend.
  assert (Hcases : for_range shm_excl_check_body ofst k s = Returns (Continue s)
                   \/ for_range shm_excl_check_body ofst k s
                      = Returns (Return SQLITE_BUSY)).
  { apply for_range_inspect. intros j Hj.
    destruct (shm_inv_slot s j Hinv) as (sh & ex & Hsh & Hex & _); [lia|].
    rewrite (shm_excl_check_body_cases s j sh ex) by (assumption || lia).
    destruct ((0 <? sh) || (0 <? ex)); auto. }
  split.
  - intros Hfree. destruct Hcases as [H|H]; [assumption|exfalso].
    assert (Hnever : forall k i, (forall j, i <= j < i + Z.of_nat k ->
                        shared s !! Z.to_nat j = Some 0
                        /\ exclusive s !! Z.to_nat j = Some 0) -> 0 <= i ->
                for_range shm_excl_check_body i k s = Returns (Continue s)).
    { clear. induction k as [|k IH]; intros i Hfree Hi; simpl; [reflexivity|].
      destruct (Hfree i) as [Hsh Hex]; [lia|].
      rewrite (shm_excl_check_body_cases s i 0 0) by assumption. simpl.
      apply IH; [|lia]. intros j Hj. apply Hfree. lia. }
    rewrite Hnever in H by assumption. discriminate H.
  - intros (j & sh & ex & Hj & Hsh & Hex & Hbusy).
    destruct Hcases as [H|H]; [exfalso|assumption].
    apply shm_excl_check_free in H as [_ Hfree].
    destruct (Hfree j Hj) as [Hs He].
    specialize (Hs sh Hsh). specialize (He ex Hex). lia.
Qed.

(** What the second loop of an exclusive acquisition leaves. *)
Lemma excl_set_loop_spec (ofst : Z) (k : nat) (s s' : vfsShm) :
  0 <= ofst ->
  for_range shm_excl_set_body ofst k s = Returns (Continue s') ->
  regions s' = regions s /\ shared s' = shared s
  /\ forall i : nat,
       exclusive s' !! i
       = if in_range ofst (Z.of_nat k) i
         then (if decide (i < length (exclusive s))%nat then Some 1 else None)
         else exclusive s !! i.
Proof.
  intros Hofst H.
  apply (for_range_ind _
           (fun j t => regions t = regions s /\ shared t = shared s
              /\ length (exclusive t) = length (exclusive s)
              /\ forall i : nat,
                   exclusive t !! i
                   = if in_range ofst (j - ofst) i
                     then (if decide (i < length (exclusive s))%nat
                           then Some 1 else None)
                     else exclusive s !! i)) in H.
  - replace (ofst + Z.of_nat k - ofst) with (Z.of_nat k) in H by lia.
    destruct H as (? & ? & _ & ?). auto.
  - repeat split. intros i. unfold in_range.
    destruct (Z.leb_spec ofst (Z.of_nat i)); simpl; [|reflexivity].
    destruct (Z.ltb_spec (Z.of_nat i) (ofst + (ofst - ofst))); [lia|reflexivity].
  - intros j t t' Hj (Hr & Hsh & Hlen & Hex) Hbody.
    unfold shm_excl_set_body in Hbody. do 3 inv_bind Hbody.
    apply array_set_Returns in E1 as (_ & Hlt & ->).
    injection Hbody as <-. simpl. rewrite length_insert.
    split; [assumption|]. split; [assumption|]. split; [assumption|].
    intros i. destruct (decide (i = Z.to_nat j)) as [->|Hne].
    + rewrite list_lookup_insert_eq by assumption. unfold in_range.
      destruct (Z.leb_spec ofst (Z.of_nat (Z.to_nat j))); [|lia]. simpl.
      destruct (Z.ltb_spec (Z.of_nat (Z.to_nat j)) (ofst + (j + 1 - ofst)));
        [|lia].
      rewrite Hlen in Hlt. now destruct (decide (Z.to_nat j < length (exclusive s))%nat).
    + rewrite list_lookup_insert_ne by congruence. rewrite Hex. unfold in_range.
      destruct (Z.leb_spec ofst (Z.of_nat i)); simpl; [|reflexivity].
      destruct (Z.ltb_spec (Z.of_nat i) (ofst + (j - ofst)));
        destruct (Z.ltb_spec (Z.of_nat i) (ofst + (j + 1 - ofst)));
        try reflexivity; lia.
Qed.

Lemma for_range_never_returns {S R : Type} (body : Z -> S -> outcome (ctl S R)) :
  (forall j t r, body j t <> Returns (Return r)) ->
  forall k i s r, for_range body i k s <> Returns (Return r).
Proof.
  intros Hbody. induction k as [|k IH]; intros i s r H; simpl in H;
    [discriminate|].
  inv_bind H. destruct a as [t|r'].
  - now apply IH in H.
  - now apply Hbody in E.
Qed.

Lemma shm_excl_set_body_goes_on (j : Z) (t : vfsShm) (r : Z) :
  shm_excl_set_body j t <> Returns (Return r).
Proof.
  unfold shm_excl_set_body. intros H. do 3 inv_bind H. discriminate.
Qed.

Lemma shm_unlock_body_goes_on (b : bool) (j : Z) (t : vfsShm) (r : Z) :
  shm_unlock_body b j t <> Returns (Return r).
Proof.
  unfold shm_unlock_body. intros H. do 3 inv_bind H.
  destruct (0 <? a1); [inv_bind H|]; discriminate.
Qed.

(** No call touches the regions of the mapping. *)
Lemma vfsFileShmLock_regions (s s' : vfsShm) (ofst n flags rc : Z) :
  vfsFileShmLock s ofst n flags = Returns (rc, s') -> regions s' = regions s.
Proof.
  intros H. unfold vfsFileShmLock in H. do 4 inv_bind H.
  assert (Hloop : forall (body : Z -> vfsShm -> outcome (ctl vfsShm Z)) k i t t',
            (forall j u u', body j u = Returns (Continue u') ->
                            regions u' = regions u) ->
            for_range body i k t = Returns (Continue t') ->
            regions t' = regions t).
  { clear. intros body k i t t' Hbody Hrun.
    apply (for_range_ind body (fun _ u => regions u = regions t)) in Hrun;
      [assumption|reflexivity|].
    intros j u u' _ Hu Hb. apply Hbody in Hb. congruence. }
  assert (Hunlock : forall b j u u',
            shm_unlock_body b j u = Returns (Continue u') ->
            regions u' = regions u).
  { clear. intros b j u u' Hb. unfold shm_unlock_body in Hb. do 3 inv_bind Hb.
    destruct (0 <? a1); [inv_bind Hb|]; injection Hb as <-; [|reflexivity].
    now destruct b. }
  assert (Hcheck : forall check act,
            (forall j u u', check j u = Returns (Continue u') -> regions u' = regions u) ->
            (forall j u u', act j u = Returns (Continue u') -> regions u' = regions u) ->
            check_then check act ofst n s = Returns (rc, s') ->
            regions s' = regions s).
  { clear -Hloop. intros check act Hc Ha Hrun. unfold check_then in Hrun.
    inv_bind Hrun. destruct a as [s1|r]; [|now injection Hrun as _ <-].
    apply Hloop in E; [|assumption].
    inv_bind Hrun. destruct a as [s2|r]; [|injection Hrun as _ <-; assumption].
    injection Hrun as _ <-. apply Hloop in E0; [|assumption]. congruence. }
  destruct (flag_set flags SQLITE_SHM_UNLOCK).
  - inv_bind H. destruct a3 as [t|r]; [|now injection H as _ <-].
    injection H as _ <-. apply Hloop in E3; [assumption|]. apply Hunlock.
  - destruct (flag_set flags SQLITE_SHM_EXCLUSIVE); apply Hcheck in H;
      try assumption.
    + intros j u u' Hb. unfold shm_excl_check_body in Hb. inv_bind Hb.
      destruct (0 <? a3); [discriminate|]. inv_bind Hb.
      destruct (0 <? a4); [discriminate|]. now injection Hb as <-.
    + intros j u u' Hb. unfold shm_excl_set_body in Hb. do 3 inv_bind Hb.
      now injection Hb as <-.
    + intros j u u' Hb. unfold shm_shared_check_body in Hb. inv_bind Hb.
      destruct (0 <? a3); [discriminate|]. now injection Hb as <-.
    + intros j u u' Hb. unfold shm_shared_incr_body in Hb. do 2 inv_bind Hb.
      now injection Hb as <-.
Qed.

(** Two mappings with the same members are the same. *)
Lemma vfsShm_eq (s t : vfsShm) :
  regions s = regions t -> shared s = shared t -> exclusive s = exclusive t ->
  s = t.
Proof. destruct s, t; simpl; congruence. Qed.

(** Acquiring the exclusive locks of a free range, computed. *)
Lemma lock_exclusive_free (s : vfsShm) (ofst n : Z) :
  shm_inv s -> 0 <= ofst -> 1 <= n -> ofst + n <= SQLITE_SHM_NLOCK ->
  (forall j, ofst <= j < ofst + n ->
             shared s !! Z.to_nat j = Some 0 /\ exclusive s !! Z.to_nat j = Some 0) ->
  exists s',
    vfsFileShmLock s ofst n (Z.lor SQLITE_SHM_LOCK SQLITE_SHM_EXCLUSIVE)
    = Returns (SQLITE_OK, s')
    /\ shm_inv s'
    /\ regions s' = regions s /\ shared s' = shared s
    /\ forall i : nat,
         exclusive s' !! i
         = if in_range ofst n i then Some 1 else exclusive s !! i.
Proof.
  intros Hinv Hofst Hn Hend Hfree.
  destruct (vfsFileShmLock_acquire_returns s ofst n
              (Z.lor SQLITE_SHM_LOCK SQLITE_SHM_EXCLUSIVE))
    as (rc & s' & Hcall & _); try assumption; [now right|].
  pose proof (vfsFileShmLock_inv _ _ _ _ _ _ Hinv Hcall) as Hinv'.
  pose proof Hcall as H. unfold vfsFileShmLock in H. do 4 inv_bind H.
  change (flag_set (Z.lor SQLITE_SHM_LOCK SQLITE_SHM_EXCLUSIVE)
            SQLITE_SHM_UNLOCK) with false in H.
  change (flag_set (Z.lor SQLITE_SHM_LOCK SQLITE_SHM_EXCLUSIVE)
            SQLITE_SHM_EXCLUSIVE) with true in H.
  cbv iota in H. unfold check_then in H.
  destruct (excl_check_loop_decided s ofst (Z.to_nat n)) as [Hcheck _];
    try assumption; [lia|].
  rewrite Hcheck in H by (intros j Hj; apply Hfree; lia). simpl in H.
  inv_bind H. destruct a3 as [s2|r];
    [|now apply (for_range_never_returns _ shm_excl_set_body_goes_on) in E3].
  injection H as <- <-. exists s2. split; [assumption|]. split; [assumption|].
  apply excl_set_loop_spec in E3 as (Hr & Hsh & Hex); [|assumption].
  split; [assumption|]. split; [assumption|].
  intros i. rewrite Hex, Z2Nat.id by lia.
  destruct (in_range ofst n i) eqn:Hin; [|reflexivity].
  destruct (decide (i < length (exclusive s))%nat); [reflexivity|exfalso].
  unfold in_range in Hin. apply andb_true_iff in Hin as [_ Hlt].
  apply Z.ltb_lt in Hlt. destruct Hinv as (_ & Hlx & _). lia.
Qed.

(** X6. On a well-formed lock table, acquiring exclusive locks over a
    legal range succeeds exactly when no slot of the range holds a lock:
    then every exclusive count of the range becomes 1 and nothing else
    changes.  If some slot of the range holds a shared or an exclusive lock
    the call returns [SQLITE_BUSY] and changes nothing. *)
Theorem lock_exclusive_all_or_nothing (s : vfsShm) (ofst n : Z) :
  shm_inv s -> 0 <= ofst -> 1 <= n -> ofst + n <= SQLITE_SHM_NLOCK ->
  ((forall j, ofst <= j < ofst + n ->
              shared s !! Z.to_nat j = Some 0
              /\ exclusive s !! Z.to_nat j = Some 0) ->
   exists s',
     vfsFileShmLock s ofst n (Z.lor SQLITE_SHM_LOCK SQLITE_SHM_EXCLUSIVE)
     = Returns (SQLITE_OK, s')
     /\ regions s' = regions s /\ shared s' = shared s
     /\ forall i : nat,
          exclusive s' !! i
          = if in_range ofst n i then Some 1 else exclusive s !! i)
  /\ ((exists j sh ex, ofst <= j < ofst + n
                       /\ shared s !! Z.to_nat j = Some sh
                       /\ exclusive s !! Z.to_nat j = Some ex
                       /\ (0 < sh \/ 0 < ex)) ->
      vfsFileShmLock s ofst n (Z.lor SQLITE_SHM_LOCK SQLITE_SHM_EXCLUSIVE)
      = Returns (SQLITE_BUSY, s)).
Proof.
  intros Hinv Hofst Hn Hend. split.
  - intros Hfree.
    destruct (lock_exclusive_free s ofst n) as (s' & Hcall & _ & Hrest);
      try assumption.
    now exists s'.
  - intros Hbusy. unfold vfsFileShmLock.
    destruct (Z.leb_spec 0 ofst); [|lia].
    destruct (Z.leb_spec (ofst + n) SQLITE_SHM_NLOCK); [|lia].
    destruct (Z.leb_spec 1 n); [|lia]. simpl.
    change (flag_set (Z.lor SQLITE_SHM_LOCK SQLITE_SHM_EXCLUSIVE)
              SQLITE_SHM_EXCLUSIVE) with true.
    rewrite (orb_true_r (n =? 1)). simpl.
    change (flag_set (Z.lor SQLITE_SHM_LOCK SQLITE_SHM_EXCLUSIVE)
              SQLITE_SHM_UNLOCK) with false. cbv iota.
    unfold check_then.
    destruct (excl_check_loop_decided s ofst (Z.to_nat n)) as [_ Hcheck];
      try assumption; [lia|].
    rewrite Hcheck; [reflexivity|].
    destruct Hbusy as (j & sh & ex & Hj & Hrest).
    exists j, sh, ex. split; [lia|assumption].
Qed.

(** Acquiring the exclusive locks of a free range and releasing them. *)
Lemma lock_exclusive_free_undo (s : vfsShm) (ofst n : Z) :
  shm_inv s -> 0 <= ofst -> 1 <= n -> ofst + n <= SQLITE_SHM_NLOCK ->
  (forall j, ofst <= j < ofst + n ->
             shared s !! Z.to_nat j = Some 0 /\ exclusive s !! Z.to_nat j = Some 0) ->
  exists s',
    vfsFileShmLock s ofst n (Z.lor SQLITE_SHM_LOCK SQLITE_SHM_EXCLUSIVE)
    = Returns (SQLITE_OK, s')
    /\ vfsFileShmLock s' ofst n (Z.lor SQLITE_SHM_UNLOCK SQLITE_SHM_EXCLUSIVE)
       = Returns (SQLITE_OK, s).
Proof.
  intros Hinv Hofst Hn Hend Hfree.
  destruct (lock_exclusive_free s ofst n)
    as (s' & Hcall & Hinv' & Hr & Hsh & Hex); try assumption.
  exists s'. split; [assumption|].
  destruct (unlock_exclusive_loop_total ofst (Z.to_nat n) s') as [s2 Hs2];
    try assumption; [lia| |].
  { intros i Hi. rewrite Hsh. apply Hfree. lia. }
  pose proof Hs2 as Hspec.
  apply unlock_exclusive_loop_spec in Hspec as (_ & Hsh2 & Hex2);
    [|assumption|assumption].
  assert (Hr2 : regions s2 = regions s').
  { apply (for_range_ind _ (fun _ u => regions u = regions s')) in Hs2;
      [assumption|reflexivity|].
    intros j u u' _ Hu Hb. unfold shm_unlock_body in Hb. do 3 inv_bind Hb.
    destruct (0 <? a1); [inv_bind Hb|]; injection Hb as <-; assumption. }
  assert (s2 = s) as ->.
  { apply vfsShm_eq; [congruence|congruence|].
    apply list_eq. intros i. rewrite Hex2, Hex, Z2Nat.id by lia.
    destruct (in_range ofst n i) eqn:Hin; [|reflexivity].
    unfold in_range in Hin. apply andb_true_iff in Hin as [Hlo Hhi].
    apply Z.leb_le in Hlo. apply Z.ltb_lt in Hhi.
    destruct (Hfree (Z.of_nat i)) as [_ Hz]; [lia|].
    now rewrite Nat2Z.id in Hz. }
  unfold vfsFileShmLock.
  destruct (Z.leb_spec 0 ofst); [|lia].
  destruct (Z.leb_spec (ofst + n) SQLITE_SHM_NLOCK); [|lia].
  destruct (Z.leb_spec 1 n); [|lia]. simpl.
  change (flag_set (Z.lor SQLITE_SHM_UNLOCK SQLITE_SHM_EXCLUSIVE)
            SQLITE_SHM_EXCLUSIVE) with true.
  rewrite (orb_true_r (n =? 1)). simpl.
  change (flag_set (Z.lor SQLITE_SHM_UNLOCK SQLITE_SHM_EXCLUSIVE)
            SQLITE_SHM_UNLOCK) with true.
  change (flag_set (Z.lor SQLITE_SHM_UNLOCK SQLITE_SHM_EXCLUSIVE)
            SQLITE_SHM_SHARED) with false.
  cbv iota. now rewrite Hs2.
Qed.

(** X7. Acquiring the exclusive locks of a free range and releasing them
    again gives back the lock table as it was. *)
Theorem lock_unlock_exclusive (s : vfsShm) (ofst n : Z) :
  shm_inv s -> 0 <= ofst -> 1 <= n -> ofst + n <= SQLITE_SHM_NLOCK ->
  (forall j, ofst <= j < ofst + n ->
             shared s !! Z.to_nat j = Some 0 /\ exclusive s !! Z.to_nat j = Some 0) ->
  exists s',
    vfsFileShmLock s ofst n (Z.lor SQLITE_SHM_LOCK SQLITE_SHM_EXCLUSIVE)
    = Returns (SQLITE_OK, s')
    /\ vfsFileShmLock s' ofst n (Z.lor SQLITE_SHM_UNLOCK SQLITE_SHM_EXCLUSIVE)
       = Returns (SQLITE_OK, s).
Proof. exact (lock_exclusive_free_undo s ofst n). Qed.

(** Acquiring a shared lock on one slot, computed. *)
Lemma lock_shared_step (s : vfsShm) (ofst sh ex : Z) :
  0 <= ofst -> ofst + 1 <= SQLITE_SHM_NLOCK ->
  length (shared s) = Z.to_nat SQLITE_SHM_NLOCK ->
  shared s !! Z.to_nat ofst = Some sh ->
  exclusive s !! Z.to_nat ofst = Some ex ->
  vfsFileShmLock s ofst 1 (Z.lor SQLITE_SHM_LOCK SQLITE_SHM_SHARED)
  = Returns (if 0 <? ex then (SQLITE_BUSY, s)
             else (SQLITE_OK,
                   set_locks_of true
                     (<[Z.to_nat ofst := uint (sh + 1)]> (shared s)) s)).
Proof.
  intros Hofst Hend Hlen Hsh Hex. unfold vfsFileShmLock.
  destruct (Z.leb_spec 0 ofst); [|lia].
  destruct (Z.leb_spec (ofst + 1) SQLITE_SHM_NLOCK); [|lia].
  change (flag_set (Z.lor SQLITE_SHM_LOCK SQLITE_SHM_SHARED)
            SQLITE_SHM_UNLOCK) with false.
  change (flag_set (Z.lor SQLITE_SHM_LOCK SQLITE_SHM_SHARED)
            SQLITE_SHM_EXCLUSIVE) with false.
  simpl. unfold check_then. change (Z.to_nat 1) with 1%nat. simpl.
  unfold shm_shared_check_body.
  rewrite (array_get_lookup _ _ _ Hofst Hex). simpl.
  destruct (0 <? ex); [reflexivity|]. simpl.
  unfold shm_shared_incr_body.
  rewrite (array_get_lookup _ _ _ Hofst Hsh). simpl.
  rewrite array_set_in_range by lia. reflexivity.
Qed.

(** X8. A shared lock on a slot is refused with [SQLITE_BUSY], the table
    left as it is, exactly when the exclusive lock of the slot is held;
    otherwise the call succeeds whatever the number of shared holders, and
    adds one to the shared count of the slot (an [unsigned], so modulo
    2^32) and changes nothing else. *)
Theorem lock_shared_result (s : vfsShm) (ofst sh ex : Z) :
  0 <= ofst -> ofst + 1 <= SQLITE_SHM_NLOCK ->
  length (shared s) = Z.to_nat SQLITE_SHM_NLOCK ->
  shared s !! Z.to_nat ofst = Some sh ->
  exclusive s !! Z.to_nat ofst = Some ex ->
  exists rc s',
    vfsFileShmLock s ofst 1 (Z.lor SQLITE_SHM_LOCK SQLITE_SHM_SHARED)
    = Returns (rc, s')
    /\ (0 < ex -> rc = SQLITE_BUSY /\ s' = s)
    /\ (ex <= 0 ->
        rc = SQLITE_OK
        /\ shared s' !! Z.to_nat ofst = Some ((sh + 1) mod 2 ^ 32)
        /\ (forall i : nat, i <> Z.to_nat ofst -> shared s' !! i = shared s !! i)
        /\ exclusive s' = exclusive s /\ regions s' = regions s).
Proof.
  intros Hofst Hend Hlen Hsh Hex.
  rewrite (lock_shared_step s ofst sh ex) by assumption.
  destruct (Z.ltb_spec 0 ex) as [Hbusy|Hfree].
  - exists SQLITE_BUSY, s. split; [reflexivity|]. split; [auto|lia].
  - eexists _, _. split; [reflexivity|]. split; [lia|]. intros _.
    split; [reflexivity|]. simpl. split.
    + apply list_lookup_insert_eq. lia.
    + split; [|split; reflexivity].
      intros i Hi. now apply list_lookup_insert_ne.
Qed.

(** X9. Acquiring a shared lock and releasing it again gives back the lock
    table as it was, as long as the count does not overflow. *)
Theorem lock_unlock_shared (s : vfsShm) (ofst sh : Z) :
  0 <= ofst -> ofst + 1 <= SQLITE_SHM_NLOCK ->
  length (shared s) = Z.to_nat SQLITE_SHM_NLOCK ->
  shared s !! Z.to_nat ofst = Some sh ->
  exclusive s !! Z.to_nat ofst = Some 0 ->
  0 <= sh < 2 ^ 32 - 1 ->
  exists s',
    vfsFileShmLock s ofst 1 (Z.lor SQLITE_SHM_LOCK SQLITE_SHM_SHARED)
    = Returns (SQLITE_OK, s')
    /\ vfsFileShmLock s' ofst 1 (Z.lor SQLITE_SHM_UNLOCK SQLITE_SHM_SHARED)
       = Returns (SQLITE_OK, s).
Proof.
  intros Hofst Hend Hlen Hsh Hex Hrange.
  rewrite (lock_shared_step s ofst sh 0) by assumption.
  change (0 <? 0) with false. cbv iota.
  eexists. split; [reflexivity|].
  assert (Hu : uint (sh + 1) = sh + 1).
  { unfold uint, UINT_MODULUS. apply Z.mod_small. lia. }
  rewrite (unlock_shared_step _ ofst (sh + 1)); try assumption.
  - destruct (Z.ltb_spec 0 (sh + 1)); [|lia]. f_equal. f_equal.
    destruct s as [r shd exc]; simpl in *. unfold set_locks_of; simpl.
    rewrite list_insert_insert_eq.
    replace (sh + 1 - 1) with sh by lia.
    now rewrite list_insert_id.
  - destruct s; simpl in *. now rewrite length_insert.
  - destruct s; simpl in *. rewrite Hu. apply list_lookup_insert_eq. lia.
Qed.

(** One step of the probe of [maybe_checkpoint] on a well-formed table. *)
Lemma maybe_checkpoint_body_cases (s : vfsShm) (j : Z) :
  shm_inv s -> 0 <= j < SQLITE_SHM_NLOCK ->
  exists sh ex,
    shared s !! Z.to_nat j = Some sh /\ exclusive s !! Z.to_nat j = Some ex
    /\ maybe_checkpoint_body j s
       = Returns (if (0 <? sh) || (0 <? ex) then Return (SQLITE_OK, s)
                  else Continue s).
Proof.
  intros Hinv Hj.
  destruct (shm_inv_slot s j Hinv Hj) as (sh & ex & Hsh & Hex & Hok).
  exists sh, ex. split; [assumption|]. split; [assumption|].
  unfold maybe_checkpoint_body.
  destruct ((0 <? sh) || (0 <? ex)) eqn:Hbusy.
  - assert (Hcall : vfsFileShmLock s j 1
                      (Z.lor SQLITE_SHM_LOCK SQLITE_SHM_EXCLUSIVE)
                    = Returns (SQLITE_BUSY, s)).
    { unfold vfsFileShmLock.
      destruct (Z.leb_spec 0 j); [|lia].
      destruct (Z.leb_spec (j + 1) SQLITE_SHM_NLOCK); [|lia]. simpl.
      change (flag_set (Z.lor SQLITE_SHM_LOCK SQLITE_SHM_EXCLUSIVE)
                SQLITE_SHM_UNLOCK) with false. cbv iota.
      unfold check_then. change (Z.to_nat 1) with 1%nat. simpl.
      rewrite (shm_excl_check_body_cases s j sh ex) by (assumption || lia).
      now rewrite Hbusy. }
    rewrite Hcall. reflexivity.
  - apply orb_false_iff in Hbusy as [Hs He].
    apply Z.ltb_ge in Hs, He.
    destruct Hok as (Hsr & Her & _).
    assert (sh = 0) as -> by lia. assert (ex = 0) as -> by lia.
    destruct (lock_exclusive_free_undo s j 1) as (s' & Hl & Hu);
      try assumption; try lia.
    { intros i Hi. assert (i = j) as -> by lia. now split. }
    rewrite Hl. simpl. rewrite Hu. reflexivity.
Qed.

(** X10. The lock probe of [maybe_checkpoint], on a well-formed lock
    table: it never changes the table; it gets through all slots when no
    slot holds a lock, and leaves the function with [SQLITE_OK] (no
    checkpoint) as soon as one slot holds a shared or an exclusive lock. *)
Theorem maybe_checkpoint_locks_probe (s : vfsShm) :
  shm_inv s ->
  ((forall j, 0 <= j < SQLITE_SHM_NLOCK ->
              shared s !! Z.to_nat j = Some 0
              /\ exclusive s !! Z.to_nat j = Some 0) ->
   maybe_checkpoint_locks s = Returns (Continue s))
  /\ ((exists j sh ex, 0 <= j < SQLITE_SHM_NLOCK
                       /\ shared s !! Z.to_nat j = Some sh
                       /\ exclusive s !! Z.to_nat j = Some ex
                       /\ (0 < sh \/ 0 < ex)) ->
      maybe_checkpoint_locks s = Returns (Return (SQLITE_OK, s))).
Proof.
  intros Hinv. unfold maybe_checkpoint_locks.
  assert (Hgen : forall (k : nat) (i : Z),
            0 <= i -> i + Z.of_nat k <= SQLITE_SHM_NLOCK ->
            ((forall j, i <= j < i + Z.of_nat k ->
                        shared s !! Z.to_nat j = Some 0
                        /\ exclusive s !! Z.to_nat j = Some 0) ->
             for_range maybe_checkpoint_body i k s = Returns (Continue s))
            /\ ((exists j sh ex, i <= j < i + Z.of_nat k
                                 /\ shared s !! Z.to_nat j = Some sh
                                 /\ exclusive s !! Z.to_nat j = Some ex
                                 /\ (0 < sh \/ 0 < ex)) ->
                for_range maybe_checkpoint_body i k s
                = Returns (Return (SQLITE_OK, s)))).
  { induction k as [|k IH]; intros i Hi Hend.
    - split; [reflexivity|]. intros (j & _ & _ & Hj & _). lia.
    - destruct (maybe_checkpoint_body_cases s i Hinv) as (sh & ex & Hsh & Hex & Hb);
        [lia|].
      destruct (IH (i + 1)) as [IHfree IHbusy]; [lia|lia|].
      simpl. rewrite Hb. split.
      + intros Hfree. destruct (Hfree i) as [Hs He]; [lia|].
        assert (sh = 0) as -> by congruence.
        assert (ex = 0) as -> by congruence.
        simpl. apply IHfree. intros j Hj. apply Hfree. lia.
      + intros (j & sh' & ex' & Hj & Hsh' & Hex' & Hpos).
        destruct ((0 <? sh) || (0 <? ex)) eqn:Hbusy; [reflexivity|].
        simpl. apply IHbusy. exists j, sh', ex'.
        split; [|now repeat split].
        assert (j <> i); [|lia]. intros ->.
        apply orb_false_iff in Hbusy as [Hs He].
        apply Z.ltb_ge in Hs, He.
        assert (sh' = sh) by congruence. assert (ex' = ex) by congruence.
        lia. }
  destruct (Z.le_gt_cases 0 SQLITE_SHM_NLOCK) as [Hn|Hn].
  - destruct (Hgen (Z.to_nat SQLITE_SHM_NLOCK) 0) as [Hfree Hbusy]; [lia|lia|].
    rewrite Z2Nat.id in Hfree, Hbusy by assumption. now split.
  - split; [|intros (j & _ & _ & Hj & _); lia].
    intros _. replace (Z.to_nat SQLITE_SHM_NLOCK) with 0%nat by lia.
    reflexivity.
Qed.

(** ** Database files: pages written, read back and truncated *)

Lemma to_int_small (x : Z) : 0 <= x < 2 ^ 31 -> to_int x = x.
Proof.
  intros Hx. unfold to_int.
  change (2 ^ 31) with 2147483648 in *. change (2 ^ 32) with 4294967296.
  rewrite Z.mod_small; lia.
Qed.

Lemma uint_small (x : Z) : 0 <= x < 2 ^ 32 -> uint x = x.
Proof. intros Hx. unfold uint, UINT_MODULUS. now apply Z.mod_small. Qed.

Lemma quot_mul_page (k ps : Z) : 0 <= k -> 0 < ps -> Z.quot (k * ps) ps = k.
Proof. intros Hk Hps. rewrite Z.quot_mul; lia. Qed.

Lemma rem_mul_page (k ps : Z) : 0 <= k -> 0 < ps -> Z.rem (k * ps) ps = 0.
Proof. intros Hk Hps. rewrite Z.rem_mul; lia. Qed.

(** The page a write at a page boundary past the first page stores into:
    the existing one, or a fresh one of zeroes right after the last. *)
Lemma vfsContentPageGet_database (c : vfsContent) (k : Z) :
  type c = VFS__DATABASE -> 0 < page_size c -> 1 <= k <= n_pages c ->
  exists c',
    vfsContentPageGet c (k + 1) = Returns (SQLITE_OK, c')
    /\ type c' = type c /\ page_size c' = page_size c
    /\ refcount c' = refcount c /\ filename c' = filename c
    /\ pages c' = (if k =? n_pages c
                   then pages c ++ [ {| buf := zeros (page_size c); hdr := None |} ]
                   else pages c).
Proof.
  intros Hty Hps Hk. unfold vfsContentPageGet.
  destruct (Z.ltb_spec 0 (k + 1)); [|lia]. simpl.
  destruct (Z.ltb_spec (n_pages c + 1) (k + 1)); [lia|].
  destruct (Z.eqb_spec (k + 1) (n_pages c + 1)) as [Heq|Hne].
  - destruct (Z.ltb_spec 0 (page_size c)); [|lia]. simpl.
    unfold vfsPageCreate. destruct (Z.ltb_spec 0 (page_size c)); [|lia]. simpl.
    rewrite Hty. simpl. eexists. split; [reflexivity|]. simpl.
    destruct (Z.eqb_spec k (n_pages c)); [|lia]. now repeat split.
  - exists c. split; [reflexivity|].
    destruct (Z.eqb_spec k (n_pages c)); [lia|]. now repeat split.
Qed.

(** X11. Database pages past the first: a page written at a page boundary
    is read back unchanged.  The write of page [k + 1] (offset [k] times the
    page size) succeeds when the file has at least [k] pages, adds the page
    when it is the one right after the last, and leaves every other page as
    it is; reading the same range then gives the bytes written. *)
Theorem database_write_then_read (v : vfs) (c : vfsContent) (data : list byte)
    (k : Z) :
  type c = VFS__DATABASE -> 0 < refcount c -> 0 < page_size c ->
  1 <= k <= n_pages c -> k + 1 < 2 ^ 31 ->
  page_size c <= Z.of_nat (length data) ->
  (forall page, pages c !! Z.to_nat k = Some page ->
                length (buf page) = Z.to_nat (page_size c)) ->
  exists c',
    vfsFileWrite v c data (page_size c) (k * page_size c)
    = Returns (SQLITE_OK, c')
    /\ n_pages c' = Z.max (n_pages c) (k + 1)
    /\ (forall i : nat, i <> Z.to_nat k -> (i < length (pages c))%nat ->
                        pages c' !! i = pages c !! i)
    /\ vfsFileRead v c' (page_size c) (k * page_size c)
       = Returns (SQLITE_OK, take (Z.to_nat (page_size c)) data, c').
Proof.
  intros Hty Hrc Hps Hk Hint Hdata Hbuf.
  destruct (vfsContentPageGet_database c k Hty Hps Hk)
    as (c1 & Hget & Hty1 & Hps1 & Hrc1 & _ & Hpages1).
  assert (Hkps : k * page_size c <> 0) by nia.
  assert (Hlook : exists page, pages c1 !! Z.to_nat k = Some page
                               /\ length (buf page) = Z.to_nat (page_size c)).
  { rewrite Hpages1. destruct (Z.eqb_spec k (n_pages c)) as [Heq|Hne].
    - eexists. split.
      + rewrite lookup_app_r by (unfold n_pages in Heq; lia).
        replace (Z.to_nat k - length (pages c))%nat with 0%nat
          by (unfold n_pages in Heq; lia).
        reflexivity.
      + simpl. unfold zeros. now rewrite length_replicate.
    - destruct (lookup_lt_is_Some_2 (pages c) (Z.to_nat k)) as [page Hpage];
        [unfold n_pages in *; lia|].
      exists page. split; [assumption|now apply Hbuf]. }
  destruct Hlook as (page & Hpage & Hlen).
  set (page' := {| buf := take (Z.to_nat (page_size c)) data
                          ++ drop (Z.to_nat (page_size c)) (buf page);
                   hdr := hdr page |}).
  exists (store_page c1 (k + 1) page').
  assert (Hwrite : vfsFileWrite v c data (page_size c) (k * page_size c)
                   = Returns (SQLITE_OK, store_page c1 (k + 1) page')).
  { unfold vfsFileWrite.
    destruct (Z.ltb_spec 0 (page_size c)); [|lia].
    destruct (Z.ltb_spec 0 (refcount c)); [|lia]. simpl. rewrite Hty.
    destruct (Z.eqb_spec (k * page_size c) 0); [contradiction|].
    destruct (Z.eqb_spec (page_size c) 0); [lia|].
    rewrite rem_mul_page, quot_mul_page by lia.
    rewrite Z.eqb_refl. simpl.
    rewrite uint_small by (change (2 ^ 31) with 2147483648 in Hint;
                           change (2 ^ 32) with 4294967296; lia).
    rewrite to_int_small by lia.
    rewrite Hget. simpl.
    unfold write_page_buf. replace (k + 1 - 1) with k by lia.
    rewrite Hpage. unfold memcpy_into.
    destruct (Z.leb_spec 0 (page_size c)); [|lia].
    destruct (Z.leb_spec (page_size c) (Z.of_nat (length data))); [|lia].
    destruct (Z.leb_spec (page_size c) (Z.of_nat (length (buf page)))); [|lia].
    reflexivity. }
  split; [assumption|].
  assert (Hn : n_pages (store_page c1 (k + 1) page') = Z.max (n_pages c) (k + 1)).
  { unfold n_pages, store_page. simpl. rewrite length_insert, Hpages1.
    destruct (Z.eqb_spec k (n_pages c)) as [Heq|Hne]; unfold n_pages in *.
    - rewrite length_app. simpl. lia.
    - lia. }
  split; [assumption|]. split.
  - intros i Hi Hlt. unfold store_page. simpl.
    replace (k + 1 - 1) with k by lia.
    rewrite list_lookup_insert_ne by congruence.
    rewrite Hpages1. destruct (k =? n_pages c); [|reflexivity].
    now rewrite lookup_app_l.
  - assert (Hrc' : refcount (store_page c1 (k + 1) page') = refcount c)
      by assumption.
    assert (Hps' : page_size (store_page c1 (k + 1) page') = page_size c)
      by assumption.
    assert (Hty' : type (store_page c1 (k + 1) page') = VFS__DATABASE)
      by (rewrite <- Hty; assumption).
    assert (Hstored : pages (store_page c1 (k + 1) page') !! Z.to_nat k
                      = Some page').
    { unfold store_page. simpl. replace (k + 1 - 1) with k by lia.
      apply list_lookup_insert_eq. now apply lookup_lt_Some in Hpage. }
    assert (Hbuf' : buf page' = take (Z.to_nat (page_size c)) data
                                ++ drop (Z.to_nat (page_size c)) (buf page))
      by reflexivity.
    clearbody page'.
    remember (store_page c1 (k + 1) page') as c2 eqn:Hc2. clear Hc2.
    unfold vfsFileRead. rewrite Hrc'.
    destruct (Z.ltb_spec 0 (page_size c)); [|lia].
    destruct (Z.ltb_spec 0 (refcount c)); [|lia]. cbn [mbind outcome_bind assert].
    rewrite vfsContentIsEmpty_nonempty.
    + cbn [mbind outcome_bind]. rewrite Hty', Hps'.
      cbn [vfsContentType_eqb orb assert mbind outcome_bind].
      destruct (Z.ltb_spec 0 (page_size c)); [|lia].
      cbn [mbind outcome_bind assert].
      destruct (Z.ltb_spec (k * page_size c) (page_size c)); [nia|].
      rewrite Z.eqb_refl, rem_mul_page, quot_mul_page by lia.
      change (0 =? 0) with true. cbn [mbind outcome_bind assert].
      rewrite to_int_small by lia.
      destruct (Z.ltb_spec 0 (k + 1)); [|lia]. cbn [mbind outcome_bind assert].
      unfold vfsContentPageLookup.
      destruct (Z.ltb_spec 0 (k + 1)); [|lia]. cbn [mbind outcome_bind assert].
      rewrite Hn. destruct (Z.ltb_spec (Z.max (n_pages c) (k + 1)) (k + 1)); [lia|].
      replace (k + 1 - 1) with k by lia.
      rewrite Hstored, Hty'.
      cbn [vfsContentType_eqb negb orb mbind outcome_bind assert].
      destruct (Z.eqb_spec (k + 1) 1); [lia|].
      unfold memcpy_from. rewrite Hbuf'.
      rewrite length_app, length_take, length_drop.
      destruct (Z.leb_spec 0 (page_size c)); [|lia].
      destruct (Z.leb_spec (0 + page_size c)
                  (Z.of_nat (Z.to_nat (page_size c) `min` length data
                             + (length (buf page) - Z.to_nat (page_size c)))));
        [|lia].
      change (0 <=? 0) with true. cbn [andb mbind outcome_bind].
      change (Z.to_nat 0) with 0%nat. rewrite drop_0.
      rewrite take_app_le by (rewrite length_take; lia).
      rewrite take_take. now rewrite Nat.min_id.
    + intros Hnil. unfold n_pages in Hn. rewrite Hnil in Hn. simpl in Hn. lia.
    + lia.
Qed.

(** X12. What a database file refuses to write, leaving the file as it
    is, with [SQLITE_IOERR_WRITE]: anything past offset 0 while the page
    size is not known yet, and a page that is not the next one after the
    last page of the file (a write never leaves a hole). *)
Theorem database_write_refused (v : vfs) (c : vfsContent) (data : list byte)
    (amount offset k : Z) :
  type c = VFS__DATABASE -> 0 < refcount c -> 0 < amount ->
  (page_size c = 0 -> offset <> 0 ->
   vfsFileWrite v c data amount offset = Returns (SQLITE_IOERR_WRITE, c))
  /\ (0 < page_size c -> n_pages c < k -> k + 1 < 2 ^ 31 ->
      vfsFileWrite v c data (page_size c) (k * page_size c)
      = Returns (SQLITE_IOERR_WRITE, c)).
Proof.
  intros Hty Hrc Hamount. unfold vfsFileWrite. rewrite Hty.
  destruct (Z.ltb_spec 0 (refcount c)); [|lia]. split.
  - intros Hps Hoff.
    destruct (Z.ltb_spec 0 amount); [|lia]. simpl.
    destruct (Z.eqb_spec offset 0); [contradiction|].
    destruct (Z.eqb_spec (page_size c) 0); [reflexivity|contradiction].
  - intros Hps Hk Hint.
    assert (Hn : 0 <= n_pages c) by (unfold n_pages; lia).
    destruct (Z.ltb_spec 0 (page_size c)); [|lia]. simpl.
    destruct (Z.eqb_spec (k * page_size c) 0); [nia|].
    destruct (Z.eqb_spec (page_size c) 0); [lia|].
    rewrite rem_mul_page, quot_mul_page by lia.
    rewrite Z.eqb_refl. simpl.
    rewrite uint_small by (change (2 ^ 31) with 2147483648 in Hint;
                           change (2 ^ 32) with 4294967296; lia).
    rewrite to_int_small by lia.
    unfold vfsContentPageGet.
    destruct (Z.ltb_spec 0 (k + 1)); [|lia]. simpl.
    destruct (Z.ltb_spec (n_pages c + 1) (k + 1)); [reflexivity|lia].
Qed.

(** X13. Truncating a database file that has pages.  A size that is not a
    multiple of the page size is refused with [SQLITE_IOERR_TRUNCATE] and
    nothing changes.  A multiple [k] times the page size, for [k] at most
    the number of pages, keeps exactly the first [k] pages, and the size
    the file then reports is the size asked for. *)
Theorem database_truncate (c : vfsContent) (size k : Z) :
  type c = VFS__DATABASE -> 0 < page_size c -> 0 < n_pages c ->
  n_pages c * page_size c < 2 ^ 31 ->
  (Z.rem size (page_size c) <> 0 ->
   vfsFileTruncate c size = Returns (SQLITE_IOERR_TRUNCATE, c))
  /\ (0 <= k <= n_pages c ->
      exists c',
        vfsFileTruncate c (k * page_size c) = Returns (SQLITE_OK, c')
        /\ pages c' = take (Z.to_nat k) (pages c)
        /\ page_size c' = page_size c
        /\ vfsFileSize c' = Returns (SQLITE_OK, k * page_size c)).
Proof.
  intros Hty Hps Hn Hsmall.
  assert (Hne : pages c <> []).
  { intros Hnil. unfold n_pages in Hn. rewrite Hnil in Hn. simpl in Hn. lia. }
  unfold vfsFileTruncate. rewrite Hty.
  cbn [vfsContentType_eqb negb andb].
  rewrite (vfsContentIsEmpty_nonempty c Hne Hps). cbn [mbind outcome_bind].
  destruct (Z.ltb_spec 0 (page_size c)); [|lia]. cbn [mbind outcome_bind assert].
  split.
  - intros Hrem. destruct (Z.eqb_spec (Z.rem size (page_size c)) 0);
      [contradiction|reflexivity].
  - intros Hk. rewrite rem_mul_page, quot_mul_page by lia.
    change (0 =? 0) with true. cbn [negb mbind outcome_bind].
    assert (Hk31 : k < 2 ^ 31) by nia.
    rewrite to_int_small by lia.
    rewrite uint_small by (change (2 ^ 31) with 2147483648 in Hk31;
                           change (2 ^ 32) with 4294967296; lia).
    unfold vfsContentTruncate.
    destruct (Z.ltb_spec 0 (n_pages c)); [|lia].
    destruct (Z.leb_spec k (n_pages c)); [|lia].
    rewrite Hty. cbn [mbind outcome_bind assert].
    eexists. split; [reflexivity|]. split; [reflexivity|].
    split; [reflexivity|].
    unfold vfsFileSize, vfsContentIsEmpty, n_pages. cbn [pages set_pages].
    rewrite length_take.
    replace (Z.of_nat (Z.to_nat k `min` length (pages c))) with k
      by (unfold n_pages in *; lia).
    destruct (Z.eqb_spec k 0) as [->|Hk0]; [reflexivity|].
    destruct (Z.ltb_spec 0 k); [|lia].
    cbn [page_size set_pages type andb mbind outcome_bind assert].
    destruct (Z.ltb_spec 0 (page_size c)); [|lia].
    cbn [mbind outcome_bind assert]. rewrite Hty.
    cbn [vfsContentType_eqb orb mbind outcome_bind assert].
    rewrite uint_small; [reflexivity|].
    change (2 ^ 31) with 2147483648 in Hsmall.
    change (2 ^ 32) with 4294967296. nia.
Qed.

(** ** Shared memory regions *)

(** X14. Mapping shared memory of a database file.  Asking for the region
    right after the last one with [extend] set, and a positive size, adds a
    region of zeroes and returns it; the regions mapped before and the lock
    table stay as they are, and from then on the region is returned whatever
    size and [extend] are passed.  Without [extend], a region that is not
    mapped gives [SQLITE_OK] with no region and changes nothing. *)
Theorem vfsFileShmMap_extend (c : vfsContent) (region_index region_size : Z) :
  type c = VFS__DATABASE ->
  Z.of_nat (length (regions (shm c))) <= region_index ->
  vfsFileShmMap c region_index region_size 0 = Returns (SQLITE_OK, None, c)
  /\ forall extend,
       extend <> 0 -> 0 < region_size ->
       region_index = Z.of_nat (length (regions (shm c))) ->
       exists c',
         vfsFileShmMap c region_index region_size extend
         = Returns (SQLITE_OK, Some (zeros region_size), c')
         /\ regions (shm c') = regions (shm c) ++ [zeros region_size]
         /\ shared (shm c') = shared (shm c)
         /\ exclusive (shm c') = exclusive (shm c)
         /\ pages c' = pages c
         /\ forall size' extend',
              vfsFileShmMap c' region_index size' extend'
              = Returns (SQLITE_OK, Some (zeros region_size), c').
Proof.
  intros Hty Hidx.
  assert (Hmiss : (region_index <? Z.of_nat (length (regions (shm c)))) = false)
    by (apply Z.ltb_ge; lia).
  split.
  - unfold vfsFileShmMap. rewrite Hty, Hmiss, andb_false_r. reflexivity.
  - intros extend Hext Hsize Heq.
    exists (set_shm {| regions := regions (shm c) ++ [zeros region_size];
                       shared := shared (shm c);
                       exclusive := exclusive (shm c) |} c).
    split.
    { unfold vfsFileShmMap. rewrite Hty, Hmiss, andb_false_r.
      cbn [vfsContentType_eqb assert mbind outcome_bind].
      destruct (Z.eqb_spec extend 0); [contradiction|]. cbn [negb].
      destruct (Z.eqb_spec region_index (Z.of_nat (length (regions (shm c)))));
        [|contradiction].
      cbn [assert mbind outcome_bind].
      destruct (Z.leb_spec region_size 0); [lia|]. reflexivity. }
    repeat (split; [reflexivity|]).
    intros size' extend'. unfold vfsFileShmMap.
    cbn [type set_shm shm regions]. rewrite Hty.
    cbn [vfsContentType_eqb assert mbind outcome_bind].
    rewrite length_app. cbn [length].
    destruct (Z.eqb_spec (Z.of_nat (length (regions (shm c)) + 1)) 0); [lia|].
    destruct (Z.ltb_spec region_index (Z.of_nat (length (regions (shm c)) + 1)));
      [|lia].
    cbn [negb andb].
    destruct (Z.ltb_spec region_index 0); [lia|].
    rewrite Heq, Nat2Z.id, lookup_app_r by lia.
    now rewrite Nat.sub_diag.
Qed.

(** ** The registry: handles opened and closed *)

Lemma lookup_contents_filename (l : list vfsContent) (name : string)
    (c : vfsContent) :
  lookup_contents l name = Some c -> filename c = name.
Proof.
  induction l as [|d l IH]; simpl; [discriminate|].
  destruct (String.eqb_spec (filename d) name) as [Heq|_]; [|exact IH].
  intros H. injection H as <-. exact Heq.
Qed.

Lemma lookup_update_contents (l : list vfsContent) (name : string)
    (f : vfsContent -> vfsContent) (c : vfsContent) :
  lookup_contents l name = Some c -> filename (f c) = name ->
  lookup_contents (update_contents l name f) name = Some (f c).
Proof.
  intros Hc Hf. induction l as [|d l IH]; simpl in *; [discriminate|].
  destruct (String.eqb_spec (filename d) name) as [Heq|Hne]; simpl.
  - injection Hc as ->. now rewrite Hf, String.eqb_refl.
  - destruct (String.eqb_spec (filename d) name); [contradiction|]. now apply IH.
Qed.

Lemma lookup_update_contents_other (l : list vfsContent) (name other : string)
    (f : vfsContent -> vfsContent) :
  (forall c, filename c = name -> filename (f c) = name) -> other <> name ->
  lookup_contents (update_contents l name f) other = lookup_contents l other.
Proof.
  intros Hf Hne. induction l as [|d l IH]; simpl; [reflexivity|].
  destruct (String.eqb_spec (filename d) name) as [Heq|Hn]; simpl.
  - rewrite (Hf d Heq).
    destruct (String.eqb_spec name other); [congruence|].
    destruct (String.eqb_spec (filename d) other); [congruence|reflexivity].
  - destruct (String.eqb (filename d) other); [reflexivity|exact IH].
Qed.

Lemma update_contents_twice (l : list vfsContent) (name : string)
    (f g : vfsContent -> vfsContent) :
  (forall c, filename c = name -> filename (f c) = name) ->
  update_contents (update_contents l name f) name g
  = update_contents l name (fun c => g (f c)).
Proof.
  intros Hf. induction l as [|d l IH]; simpl; [reflexivity|].
  destruct (String.eqb_spec (filename d) name) as [Heq|Hn]; simpl.
  - now rewrite (Hf d Heq), String.eqb_refl.
  - destruct (String.eqb_spec (filename d) name); [contradiction|].
    now rewrite IH.
Qed.

Lemma update_contents_same (l : list vfsContent) (name : string)
    (f : vfsContent -> vfsContent) (c : vfsContent) :
  lookup_contents l name = Some c -> f c = c -> update_contents l name f = l.
Proof.
  intros Hc Hf. induction l as [|d l IH]; simpl in *; [reflexivity|].
  destruct (String.eqb (filename d) name).
  - injection Hc as ->. now rewrite Hf.
  - now rewrite IH.
Qed.

Lemma lookup_contents_app_new (l : list vfsContent) (name other : string)
    (c : vfsContent) :
  filename c = name -> lookup_contents l name = None ->
  lookup_contents (l ++ [c]) other
  = if String.eqb name other then Some c else lookup_contents l other.
Proof.
  intros Hf Hnone. induction l as [|d l IH]; simpl in *.
  - rewrite Hf. now destruct (String.eqb name other).
  - destruct (String.eqb_spec (filename d) name) as [|Hn]; [discriminate|].
    destruct (String.eqb_spec (filename d) other) as [Heq|_].
    + destruct (String.eqb_spec name other); [congruence|reflexivity].
    + now apply IH.
Qed.

(** X15. Closing a handle that is not delete-on-close succeeds and takes
    one reference off the content, keeping its pages and page size; the
    shared memory of a database is reset (no regions, no locks) when the
    last reference goes, and kept otherwise.  Other files are untouched. *)
Theorem vfsFileClose_releases (v : vfs) (f : vfsFile) (c : vfsContent) :
  vfsContentLookup v (content f) = Some c -> 0 < refcount c ->
  flag_set (flags f) SQLITE_OPEN_DELETEONCLOSE = false ->
  exists v' c',
    vfsFileClose v f = Returns (SQLITE_OK, v')
    /\ vfsContentLookup v' (content f) = Some c'
    /\ refcount c' = refcount c - 1
    /\ pages c' = pages c /\ page_size c' = page_size c
    /\ shm c' = (if (refcount c =? 1) && vfsContentType_eqb (type c) VFS__DATABASE
                 then vfsShmInit else shm c)
    /\ forall other, other <> content f ->
         vfsContentLookup v' other = vfsContentLookup v other.
Proof.
  intros Hc Hrc Hflag. unfold vfsFileClose. rewrite Hc, Hflag.
  destruct (Z.eqb_spec (refcount c) 0); [lia|]. cbn [negb assert mbind outcome_bind].
  set (release := fun c : vfsContent => _).
  assert (Hname : forall d, filename (release d) = filename d).
  { intros d. unfold release. cbn [refcount set_refcount type].
    now destruct ((refcount d - 1 =? 0) && _). }
  pose proof (lookup_contents_filename _ _ _ Hc) as Hfn.
  eexists _, (release c). split; [reflexivity|].
  unfold vfsContentLookup. cbn [contents]. split.
  { apply lookup_update_contents; [exact Hc|]. now rewrite Hname. }
  assert (Hzero : (refcount c - 1 =? 0) = (refcount c =? 1)).
  { destruct (Z.eqb_spec (refcount c - 1) 0), (Z.eqb_spec (refcount c) 1);
      (reflexivity || lia). }
  assert (Hrel : refcount (release c) = refcount c - 1
                 /\ pages (release c) = pages c
                 /\ page_size (release c) = page_size c
                 /\ shm (release c)
                    = (if (refcount c =? 1)
                          && vfsContentType_eqb (type c) VFS__DATABASE
                       then vfsShmInit else shm c)).
  { unfold release. cbn [refcount set_refcount type]. rewrite Hzero.
    now destruct ((refcount c =? 1) && vfsContentType_eqb (type c) VFS__DATABASE). }
  destruct Hrel as (H1 & H2 & H3 & H4).
  repeat (split; [assumption|]).
  intros other Hother. apply lookup_update_contents_other; [|assumption].
  intros d Hd. now rewrite Hname.
Qed.

(** X16. Closing a delete-on-close handle.  When it is the last reference
    the file is removed from the registry and other files are untouched.
    When other handles are still open the close reports
    [SQLITE_IOERR_DELETE] with last error [EBUSY]; the file stays, with the
    reference of the closed handle taken off all the same. *)
Theorem vfsFileClose_delete_on_close (v : vfs) (f : vfsFile) (c : vfsContent) :
  vfsContentLookup v (content f) = Some c -> 0 < refcount c ->
  flag_set (flags f) SQLITE_OPEN_DELETEONCLOSE = true ->
  (refcount c = 1 ->
   exists v',
     vfsFileClose v f = Returns (SQLITE_OK, v')
     /\ (names_unique v -> vfsContentLookup v' (content f) = None)
     /\ forall other, other <> content f ->
          vfsContentLookup v' other = vfsContentLookup v other)
  /\ (1 < refcount c ->
      exists v' c',
        vfsFileClose v f = Returns (SQLITE_IOERR_DELETE, v')
        /\ vfsGetLastError v' = EBUSY
        /\ vfsContentLookup v' (content f) = Some c'
        /\ refcount c' = refcount c - 1
        /\ pages c' = pages c /\ shm c' = shm c).
Proof.
  intros Hc Hrc Hflag. unfold vfsFileClose. rewrite Hc, Hflag.
  destruct (Z.eqb_spec (refcount c) 0); [lia|]. cbn [negb assert mbind outcome_bind].
  set (release := fun c : vfsContent => _).
  assert (Hname : forall d, filename (release d) = filename d).
  { intros d. unfold release. cbn [refcount set_refcount type].
    now destruct ((refcount d - 1 =? 0) && _). }
  pose proof (lookup_contents_filename _ _ _ Hc) as Hfn.
  assert (Hl : lookup_contents (update_contents (contents v) (content f) release)
                 (content f) = Some (release c)).
  { apply lookup_update_contents; [exact Hc|]. now rewrite Hname. }
  assert (Hrel : refcount (release c) = refcount c - 1).
  { unfold release. cbn [refcount set_refcount type].
    now destruct ((refcount c - 1 =? 0) && _). }
  pose proof (delete_contents_found _ _ _ Hl) as Hdel. rewrite Hrel in Hdel.
  unfold vfsDeleteContent. cbn [contents error]. split.
  - intros Hone. destruct (Z.ltb_spec 0 (refcount c - 1)); [lia|].
    destruct Hdel as (l' & -> & Hother & Huniq).
    eexists. split; [reflexivity|]. unfold vfsContentLookup. cbn [contents].
    split.
    + intros Hnd. apply Huniq. now rewrite update_contents_names.
    + intros other Hne. rewrite Hother by assumption.
      apply lookup_update_contents_other; [|assumption].
      intros d Hd. now rewrite Hname.
  - intros Hmany. destruct (Z.ltb_spec 0 (refcount c - 1)); [|lia].
    rewrite Hdel. eexists _, (release c). split; [reflexivity|].
    split; [reflexivity|]. split; [exact Hl|]. split; [exact Hrel|].
    unfold release. cbn [refcount set_refcount type].
    destruct (Z.eqb_spec (refcount c - 1) 0); [lia|]. now split.
Qed.

(** X17. Opening a file that exists and closing the handle again gives
    back the registry as it was (for a database that nobody has open, as
    long as its shared memory is in the initial state, which is how a
    close of the last handle leaves it). *)
Theorem vfsOpen_then_close (v : vfs) (name : string) (fl : Z) (c : vfsContent) :
  vfsContentLookup v name = Some c ->
  0 <= refcount c < 2 ^ 32 - 1 ->
  (refcount c = 0 -> type c = VFS__DATABASE -> shm c = vfsShmInit) ->
  flag_set fl SQLITE_OPEN_EXCLUSIVE = false ->
  flag_set fl SQLITE_OPEN_DELETEONCLOSE = false ->
  exists v' f,
    vfsOpen v name fl = Returns (SQLITE_OK, v', Some f)
    /\ vfsFileClose v' f = Returns (SQLITE_OK, v).
Proof.
  intros Hc Hrc Hshm Hexcl Hdel. unfold vfsOpen. rewrite Hc, Hexcl.
  cbn [negb orb andb assert mbind outcome_bind].
  eexists _, _. split; [reflexivity|].
  pose proof (lookup_contents_filename _ _ _ Hc) as Hfn.
  unfold vfsFileClose, vfsContentLookup. cbn [contents content flags error].
  rewrite (lookup_update_contents _ _ incr_refcount c Hc) by exact Hfn.
  assert (Hinc : refcount (incr_refcount c) = refcount c + 1).
  { unfold incr_refcount. cbn [refcount set_refcount]. apply uint_small. lia. }
  rewrite Hinc, Hdel.
  destruct (Z.eqb_spec (refcount c + 1) 0); [lia|].
  cbn [negb assert mbind outcome_bind].
  rewrite update_contents_twice by (intros d Hd; exact Hd).
  rewrite (update_contents_same _ _ _ c Hc); [now destruct v|].
  rewrite Hinc. replace (refcount c + 1 - 1) with (refcount c) by lia.
  assert (Hback : set_refcount (refcount c) (incr_refcount c) = c)
    by now destruct c.
  rewrite Hback.
  destruct (Z.eqb_spec (refcount c) 0) as [Hz|Hnz]; [|reflexivity].
  destruct (type c) eqn:Hty; cbn [vfsContentType_eqb andb]; try reflexivity.
  unfold vfsShmClose. rewrite <- (Hshm Hz eq_refl). now destruct c.
Qed.

(** X18. Opening a name the registry does not hold.  Without the create
    flag the open fails with [SQLITE_CANTOPEN] and last error [ENOENT],
    and no file appears.  With it, a database or journal file is created
    empty (no pages, page size not set) with one reference: a lookup and
    [vfsAccess] find it from then on, and every other name resolves as
    before. *)
Theorem vfsOpen_new_file (v : vfs) (name : string) (fl aflags : Z)
    (ty : vfsContentType) :
  vfsContentLookup v name = None ->
  flag_set fl SQLITE_OPEN_EXCLUSIVE = false ->
  (flag_set fl SQLITE_OPEN_CREATE = false ->
   exists v',
     vfsOpen v name fl = Returns (SQLITE_CANTOPEN, v', None)
     /\ vfsGetLastError v' = ENOENT /\ contents v' = contents v)
  /\ (flag_set fl SQLITE_OPEN_CREATE = true ->
      open_type fl = Some ty -> ty <> VFS__WAL ->
      exists v' c',
        vfsOpen v name fl
        = Returns (SQLITE_OK, v', Some {| content := name; flags := fl |})
        /\ vfsContentLookup v' name = Some c'
        /\ type c' = ty /\ refcount c' = 1
        /\ pages c' = [] /\ page_size c' = 0
        /\ vfsAccess v' name aflags = (SQLITE_OK, 1)
        /\ forall other, other <> name ->
             vfsContentLookup v' other = vfsContentLookup v other).
Proof.
  intros Hnone Hexcl. unfold vfsOpen. rewrite Hnone, Hexcl.
  cbn [negb orb assert mbind outcome_bind]. split.
  - intros Hcreate. rewrite Hcreate. cbn [negb].
    eexists. split; [reflexivity|]. now split.
  - intros Hcreate Hty Hwal. rewrite Hcreate, Hty. cbn [negb].
    set (c' := incr_refcount (vfsContentCreate name ty)).
    assert (Hlookup : forall other,
              lookup_contents (contents v ++ [c']) other
              = if String.eqb name other then Some c'
                else lookup_contents (contents v) other).
    { intros other. now apply lookup_contents_app_new. }
    exists {| contents := contents v ++ [c']; error := error v |}, c'.
    split; [now destruct ty|].
    unfold vfsAccess, vfsContentLookup. cbn [contents].
    rewrite !Hlookup, String.eqb_refl.
    repeat (split; [reflexivity|]).
    intros other Hne. rewrite Hlookup.
    destruct (String.eqb_spec name other); [congruence|reflexivity].
Qed.

(** ** The registry invariant *)

Lemma store_content_names (v : vfs) (name : string) (c c' : vfsContent) :
  vfsContentLookup v name = Some c -> filename c' = filename c ->
  filename <$> contents (store_content v name c') = filename <$> contents v.
Proof.
  unfold vfsContentLookup, store_content. cbn [contents].
  intros Hc Hf. induction (contents v) as [|d l IH]; simpl in *; [reflexivity|].
  destruct (String.eqb_spec (filename d) name) as [Heq|Hne]; csimpl.
  - injection Hc as ->. now rewrite Hf.
  - now rewrite IH.
Qed.

(** The file methods never rename a file. *)
Ltac run_cases :=
  repeat match goal with
  | H : Aborts = Returns _ |- _ => discriminate H
  | H : (_ ≫= _) = Returns _ |- _ => inv_bind H
  | H : (match ?x with _ => _ end) = Returns _ |- _ => destruct x eqn:?
  | H : Returns _ = Returns _ |- _ => injection H as ?; subst
  end;
  repeat match goal with
  | a : (_ * _)%type |- _ => destruct a
  end;
  cbn [fst snd] in *;
  repeat match goal with
  | H : (_, _) = (_, _) |- _ => injection H as ?; subst
  end.

Lemma vfsContentPageGet_filename (c c' : vfsContent) (pgno rc : Z) :
  vfsContentPageGet c pgno = Returns (rc, c') -> filename c' = filename c.
Proof. unfold vfsContentPageGet. intros H. run_cases; reflexivity. Qed.

Lemma write_page_buf_filename (c c' : vfsContent) (pgno amount : Z)
    (data : list byte) :
  write_page_buf c pgno data amount = Returns c' -> filename c' = filename c.
Proof. unfold write_page_buf. intros H. run_cases; reflexivity. Qed.

Lemma write_page_hdr_filename (c c' : vfsContent) (pgno amount : Z)
    (data : list byte) :
  write_page_hdr c pgno data amount = Returns c' -> filename c' = filename c.
Proof. unfold write_page_hdr. intros H. run_cases; reflexivity. Qed.

Lemma wal_inherit_page_size_filename (v : vfs) (c c' : vfsContent) (rc : Z) :
  wal_inherit_page_size v c = Returns (rc, c') -> filename c' = filename c.
Proof. unfold wal_inherit_page_size. intros H. run_cases; reflexivity. Qed.

Lemma vfsContentTruncate_filename (c c' : vfsContent) (n : Z) :
  vfsContentTruncate c n = Returns c' -> filename c' = filename c.
Proof. unfold vfsContentTruncate. intros H. run_cases; reflexivity. Qed.

Ltac filename_steps :=
  repeat match goal with
  | H : vfsContentPageGet _ _ = Returns _ |- _ =>
      apply vfsContentPageGet_filename in H
  | H : write_page_buf _ _ _ _ = Returns _ |- _ =>
      apply write_page_buf_filename in H
  | H : write_page_hdr _ _ _ _ = Returns _ |- _ =>
      apply write_page_hdr_filename in H
  | H : wal_inherit_page_size _ _ = Returns _ |- _ =>
      apply wal_inherit_page_size_filename in H
  | H : vfsContentTruncate _ _ = Returns _ |- _ =>
      apply vfsContentTruncate_filename in H
  end;
  cbn [filename set_page_size set_wal_hdr] in *; congruence.

Lemma vfsFileRead_filename (v : vfs) (c c' : vfsContent) (amount offset rc : Z)
    (data : list byte) :
  vfsFileRead v c amount offset = Returns (rc, data, c') ->
  filename c' = filename c.
Proof. unfold vfsFileRead. intros H. run_cases; filename_steps. Qed.

Lemma vfsFileWrite_filename (v : vfs) (c c' : vfsContent) (data : list byte)
    (amount offset rc : Z) :
  vfsFileWrite v c data amount offset = Returns (rc, c') ->
  filename c' = filename c.
Proof. unfold vfsFileWrite. intros H. run_cases; filename_steps. Qed.

Lemma vfsFileTruncate_filename (c c' : vfsContent) (size rc : Z) :
  vfsFileTruncate c size = Returns (rc, c') -> filename c' = filename c.
Proof. unfold vfsFileTruncate. intros H. run_cases; filename_steps. Qed.

(** X19. Whatever sequence of opens, closes, deletes, reads, writes and
    truncations builds a registry, no two of its files have the same
    name. *)
Theorem vfs_reachable_names_unique (v : vfs) :
  vfs_reachable v -> names_unique v.
Proof.
  induction 1 as [e | v v' name fl rc h _ IH Hop | v v' f rc _ IH Hop
                 | v v' name ds rc _ IH Hop
                 | v v' f amount offset rc data _ IH Hop
                 | v v' f data amount offset rc _ IH Hop
                 | v v' f size rc _ IH Hop].
  - apply vfsCreate_names_unique.
  - exact (vfsOpen_names_unique _ _ _ _ _ _ IH Hop).
  - exact (vfsFileClose_names_unique _ _ _ _ IH Hop).
  - unfold vfsDelete in Hop.
    pose proof (vfsDeleteContent_names_unique v name IH) as Hd.
    now rewrite Hop in Hd.
  - unfold xRead in Hop.
    destruct (vfsContentLookup v (content f)) as [c|] eqn:Hc; [|discriminate].
    inv_bind Hop. destruct a as [[rc0 d0] c0]. injection Hop as _ _ <-.
    apply vfsFileRead_filename in E. unfold names_unique.
    now rewrite (store_content_names _ _ c).
  - unfold xWrite in Hop.
    destruct (vfsContentLookup v (content f)) as [c|] eqn:Hc; [|discriminate].
    inv_bind Hop. destruct a as [rc0 c0]. injection Hop as _ <-.
    apply vfsFileWrite_filename in E. unfold names_unique.
    now rewrite (store_content_names _ _ c).
  - unfold xTruncate in Hop.
    destruct (vfsContentLookup v (content f)) as [c|] eqn:Hc; [|discriminate].
    inv_bind Hop. destruct a as [rc0 c0]. injection Hop as _ <-.
    apply vfsFileTruncate_filename in E. unfold names_unique.
    now rewrite (store_content_names _ _ c).
Qed.

(** ** Reads at the edges of a database file *)

(** X20. Reading from the first page of a database that has pages: any
    range that lies within the page is returned as stored, and the file is
    left as it is. *)
Theorem database_read_first_page (v : vfs) (c : vfsContent) (page : vfsPage)
    (amount offset : Z) :
  type c = VFS__DATABASE -> 0 < refcount c -> 0 < page_size c ->
  pages c !! 0%nat = Some page ->
  length (buf page) = Z.to_nat (page_size c) ->
  0 <= offset -> 0 < amount -> offset + amount <= page_size c ->
  vfsFileRead v c amount offset
  = Returns (SQLITE_OK,
             take (Z.to_nat amount) (drop (Z.to_nat offset) (buf page)), c).
Proof.
  intros Hty Hrc Hps Hpage Hlen Hoff Hamount Hend.
  assert (Hne : pages c <> []) by (intros Hnil; now rewrite Hnil in Hpage).
  assert (Hn : 0 < n_pages c).
  { unfold n_pages. destruct (pages c); [contradiction|]. simpl. lia. }
  unfold vfsFileRead.
  destruct (Z.ltb_spec 0 amount); [|lia].
  destruct (Z.ltb_spec 0 (refcount c)); [|lia]. cbn [assert mbind outcome_bind].
  rewrite (vfsContentIsEmpty_nonempty c Hne Hps). cbn [mbind outcome_bind].
  rewrite Hty. cbn [vfsContentType_eqb orb assert mbind outcome_bind].
  destruct (Z.ltb_spec 0 (page_size c)); [|lia]. cbn [assert mbind outcome_bind].
  destruct (Z.ltb_spec offset (page_size c)); [|lia].
  destruct (Z.leb_spec amount (page_size c)); [|lia].
  cbn [assert mbind outcome_bind]. change (0 <? 1) with true.
  cbn [assert mbind outcome_bind]. unfold vfsContentPageLookup.
  change (0 <? 1) with true. cbn [assert mbind outcome_bind].
  destruct (Z.ltb_spec (n_pages c) 1); [lia|].
  change (Z.to_nat (1 - 1)) with 0%nat. rewrite Hpage, Hty.
  cbn [vfsContentType_eqb negb orb assert mbind outcome_bind].
  change (1 =? 1) with true. cbv iota. unfold memcpy_from.
  destruct (Z.leb_spec 0 offset); [|lia].
  destruct (Z.leb_spec 0 amount); [|lia].
  destruct (Z.leb_spec (offset + amount) (Z.of_nat (length (buf page)))); [|lia].
  reflexivity.
Qed.

(** X21. A database file that has pages does not answer a read of a page
    past its last one with a short read: the page lookup yields no page and
    the read goes through the null pointer, so the call does not return. *)
Theorem database_read_past_end (v : vfs) (c : vfsContent) (k : Z) :
  type c = VFS__DATABASE -> 0 < refcount c -> 0 < page_size c ->
  0 < n_pages c -> n_pages c <= k -> k + 1 < 2 ^ 31 ->
  vfsFileRead v c (page_size c) (k * page_size c) = Aborts.
Proof.
  intros Hty Hrc Hps Hn Hk Hint.
  assert (Hne : pages c <> []).
  { intros Hnil. unfold n_pages in Hn. rewrite Hnil in Hn. simpl in Hn. lia. }
  unfold vfsFileRead.
  destruct (Z.ltb_spec 0 (page_size c)); [|lia].
  destruct (Z.ltb_spec 0 (refcount c)); [|lia]. cbn [assert mbind outcome_bind].
  rewrite (vfsContentIsEmpty_nonempty c Hne Hps). cbn [mbind outcome_bind].
  rewrite Hty. cbn [vfsContentType_eqb orb assert mbind outcome_bind].
  destruct (Z.ltb_spec (k * page_size c) (page_size c)); [nia|].
  rewrite Z.eqb_refl, rem_mul_page, quot_mul_page by lia.
  change (0 =? 0) with true. cbn [assert mbind outcome_bind].
  rewrite to_int_small by lia.
  destruct (Z.ltb_spec 0 (k + 1)); [|lia]. cbn [assert mbind outcome_bind].
  unfold vfsContentPageLookup.
  destruct (Z.ltb_spec 0 (k + 1)); [|lia]. cbn [assert mbind outcome_bind].
  destruct (Z.ltb_spec (n_pages c) (k + 1)); [reflexivity|lia].
Qed.

(** ** Pragmas *)

(** X22. [vfsFileControlPragma] never returns [SQLITE_OK]: it answers
    [SQLITE_IOERR] together with an error message, or [SQLITE_NOTFOUND]
    without one.  It touches nothing but the page size, never changes a
    page size that is set, and a page size it sets is a power of two
    between 512 and 65536. *)
Theorem vfsFileControlPragma_result (c c' : vfsContent) (left : string)
    (right msg : option string) (rc : Z) :
  vfsFileControlPragma c left right = (rc, c', msg) ->
  ((rc = SQLITE_IOERR /\ msg <> None /\ c' = c)
   \/ (rc = SQLITE_NOTFOUND /\ msg = None))
  /\ c' = set_page_size (page_size c') c
  /\ (0 < page_size c < 2 ^ 31 -> c' = c)
  /\ (page_size c' <> page_size c ->
      512 <= page_size c' <= 65536 /\ is_power_of_two (page_size c')).
Proof.
  unfold vfsFileControlPragma. intros H.
  assert (Hsame : c = set_page_size (page_size c) c) by now destruct c.
  destruct right as [r|].
  2:{ injection H as <- <- <-. split; [now right|]. now repeat split. }
  destruct (String.eqb left "page_size").
  - destruct ((FORMAT__PAGE_SIZE_MIN <=? atoi r)
              && (atoi r <=? FORMAT__PAGE_SIZE_MAX)
              && (Z.land (atoi r - 1) (atoi r) =? 0)) eqn:Hvalid.
    2:{ injection H as <- <- <-. split; [now right|]. now repeat split. }
    apply andb_true_iff in Hvalid as [Hb Hland].
    apply andb_true_iff in Hb as [Hlo Hhi].
    apply Z.leb_le in Hlo, Hhi. apply Z.eqb_eq in Hland.
    unfold FORMAT__PAGE_SIZE_MIN in Hlo. unfold FORMAT__PAGE_SIZE_MAX in Hhi.
    destruct (negb (page_size c =? 0) && negb (atoi r =? to_int (page_size c)))
      eqn:Hchange.
    + injection H as <- <- <-. split; [left; now repeat split|].
      now repeat split.
    + injection H as <- <- <-. split; [now right|].
      split; [now destruct c|]. split.
      * intros Hset. rewrite to_int_small in Hchange by lia.
        destruct (Z.eqb_spec (page_size c) 0); [lia|].
        destruct (Z.eqb_spec (atoi r) (page_size c)) as [->|]; [|discriminate].
        now destruct c.
      * cbn [page_size set_page_size]. intros _. split; [lia|].
        apply land_pred_power_of_two; [lia|assumption].
  - destruct (String.eqb left "journal_mode").
    + destruct (negb (String.eqb (lower_string r) "wal"));
        injection H as <- <- <-.
      * split; [left; now repeat split|]. now repeat split.
      * split; [now right|]. now repeat split.
    + injection H as <- <- <-. split; [now right|]. now repeat split.
Qed.

(** ** The checksum of a WAL frame *)

(** X23. Reading the eight bytes at offset 16 of the header of frame [k]
    of a WAL file (the two checksum words) returns bytes 16 to 23 of the
    frame header stored for that frame, and leaves the file as it is. *)
Theorem wal_read_frame_checksum (v : vfs) (c : vfsContent) (page : vfsPage)
    (h : list byte) (k : Z) :
  type c = VFS__WAL -> 0 < refcount c -> 0 < page_size c ->
  1 <= k < 2 ^ 31 ->
  pages c !! Z.to_nat (k - 1) = Some page ->
  hdr page = Some h -> length h = 24%nat ->
  vfsFileRead v c 8 (32 + (k - 1) * (page_size c + 24) + 16)
  = Returns (SQLITE_OK, take 8 (drop 16 h), c).
Proof.
  intros Hty Hrc Hps Hk Hpage Hhdr Hlen.
  assert (Hne : pages c <> []) by (intros Hnil; now rewrite Hnil in Hpage).
  assert (Hn : k <= n_pages c).
  { apply lookup_lt_Some in Hpage. unfold n_pages. lia. }
  unfold vfsFileRead. change (0 <? 8) with true.
  destruct (Z.ltb_spec 0 (refcount c)); [|lia]. cbn [assert mbind outcome_bind].
  rewrite (vfsContentIsEmpty_nonempty c Hne Hps). cbn [mbind outcome_bind].
  rewrite Hty. cbn [vfsContentType_eqb orb assert mbind outcome_bind].
  unfold wal_inherit_page_size.
  destruct (Z.eqb_spec (page_size c) 0); [lia|].
  cbn [mbind outcome_bind fst snd]. change (SQLITE_OK =? 0) with true.
  cbn [negb].
  assert (Hoff : 32 + (k - 1) * (page_size c + 24) + 16
                 = 48 + (k - 1) * (page_size c + 24)) by lia.
  rewrite Hoff.
  destruct (Z.eqb_spec (48 + (k - 1) * (page_size c + 24)) 0); [nia|].
  unfold wal_read_pgno, FORMAT__WAL_FRAME_HDR_SIZE, FORMAT__WAL_HDR_SIZE.
  change (8 =? 24) with false. change (8 =? 8) with true. cbv iota.
  destruct (Z.eqb_spec (48 + (k - 1) * (page_size c + 24)) 24); [nia|].
  replace (48 + (k - 1) * (page_size c + 24) - 16 - 32)
    with ((k - 1) * (page_size c + 24)) by lia.
  rewrite rem_mul_page, quot_mul_page by lia.
  change (0 =? 0) with true. cbn [assert mbind outcome_bind].
  replace (k - 1 + 1) with k by lia. rewrite to_int_small by lia.
  destruct (Z.eqb_spec k 0); [lia|].
  unfold vfsContentPageLookup.
  destruct (Z.ltb_spec 0 k); [|lia]. cbn [assert mbind outcome_bind].
  destruct (Z.ltb_spec (n_pages c) k); [lia|].
  rewrite Hpage, Hhdr. rewrite orb_true_r. cbn [assert mbind outcome_bind].
  unfold wal_read_frame, FORMAT__WAL_FRAME_HDR_SIZE. rewrite Hhdr.
  change (8 =? 24) with false. change (8 =? 8) with true. cbv iota.
  unfold memcpy_from. rewrite Hlen. reflexivity.
Qed.

(** ** The checksum and the byte order of the host *)

(** A word read in host order and passed through [formatPut32] is the word
    read big-endian, whatever the host. *)
Lemma load32_put32 (le : bool) (data : list byte) (off : nat) :
  (w ← load32 le data off; put32_then_load le w) = load32 false data off.
Proof.
  unfold load32 at 1 2. unfold read_u8.
  destruct (data !! off) as [b0|]; [|reflexivity].
  destruct (data !! (off + 1)%nat) as [b1|]; [|reflexivity].
  destruct (data !! (off + 2)%nat) as [b2|]; [|reflexivity].
  destruct (data !! (off + 3)%nat) as [b3|]; [|reflexivity].
  cbn [mbind outcome_bind]. unfold put32_then_load. destruct le.
  - rewrite (formatPut32_get32 _ b3 b2 b1 b0 []).
    + unfold load32, read_u8. cbn [lookup list_lookup mbind outcome_bind Nat.add].
      f_equal. lia.
    + rewrite formatGet32_value. f_equal. lia.
  - rewrite (formatPut32_get32 _ b0 b1 b2 b3 []).
    + reflexivity.
    + now rewrite formatGet32_value.
Qed.

Lemma checksum_loop_non_native (le : bool) (data : list byte) (k : nat) :
  forall (cur : nat) (s1 s2 : Z),
    checksum_loop le false data cur k s1 s2
    = checksum_loop false true data cur k s1 s2.
Proof.
  induction k as [|k IH]; intros cur s1 s2; [reflexivity|].
  cbn -[put32_then_load load32].
  pose proof (load32_put32 le data cur) as H0.
  pose proof (load32_put32 le data (cur + 4)) as H1.
  destruct (load32 le data cur) as [w0|]; cbn [mbind outcome_bind] in H0 |- *;
    rewrite <- H0; [|reflexivity].
  destruct (put32_then_load le w0) as [d0|]; cbn [mbind outcome_bind];
    [|reflexivity].
  destruct (load32 le data (cur + 4)) as [w1|]; cbn [mbind outcome_bind] in H1 |- *;
    rewrite <- H1; [|reflexivity].
  destruct (put32_then_load le w1) as [d1|]; cbn [mbind outcome_bind];
    [|reflexivity].
  apply IH.
Qed.

(** X24. With [native] false the checksum takes every word of the content
    big-endian, on a little-endian and on a big-endian host alike: it is
    the checksum that a big-endian host computes with [native] true.  (So
    on a big-endian host the flag makes no difference.) *)
Theorem formatWalChecksumBytes_non_native (le : bool) (data : list byte) (n : Z)
    (in_ : option (Z * Z)) :
  formatWalChecksumBytes le false data n in_
  = formatWalChecksumBytes false true data n in_.
Proof.
  unfold formatWalChecksumBytes.
  destruct (8 <=? n); [|reflexivity].
  destruct (Z.land n 7 =? 0); [|reflexivity].
  destruct (n <=? 65536); [|reflexivity].
  cbn [assert mbind outcome_bind]. apply checksum_loop_non_native.
Qed.

(** ** Opening a WAL file *)

Lemma vfsDatabaseContentLookup_strips_four (v : vfs) (main suffix : string) :
  String.length suffix = 4%nat ->
  vfsDatabaseContentLookup v (main ++ suffix)
  = match vfsContentLookup v main with
    | None => (SQLITE_CORRUPT, None)
    | Some c => (SQLITE_OK, Some c)
    end.
Proof.
  intros Hlen. unfold vfsDatabaseContentLookup.
  rewrite string_length_append, Hlen. simpl String.length.
  destruct (Z.leb_spec (Z.of_nat (String.length main + 4) - Z.of_nat 4 + 1) 0);
    [lia|].
  replace (Z.to_nat (Z.of_nat (String.length main + 4) - Z.of_nat 4 + 1 - 1))
    with (String.length main) by lia.
  now rewrite substring_append_prefix.
Qed.

(** X25. Opening, with the create flag, a WAL file that does not exist
    yet, while the registry holds a file whose name is the WAL file name
    without its last four characters (whatever these are): the open
    succeeds, the WAL file is created empty with a zeroed header and one
    reference, that file gets it as its WAL, and nothing else changes. *)
Theorem vfsOpen_wal_links_database (v : vfs) (main suffix : string) (fl : Z)
    (db : vfsContent) :
  String.length suffix = 4%nat ->
  vfsContentLookup v (main ++ suffix) = None ->
  vfsContentLookup v main = Some db ->
  open_type fl = Some VFS__WAL ->
  flag_set fl SQLITE_OPEN_CREATE = true ->
  exists v' w,
    vfsOpen v (main ++ suffix) fl
    = Returns (SQLITE_OK, v',
               Some {| content := (main ++ suffix)%string; flags := fl |})
    /\ vfsContentLookup v' (main ++ suffix) = Some w
    /\ type w = VFS__WAL /\ refcount w = 1 /\ pages w = [] /\ page_size w = 0
    /\ wal_hdr w = replicate 32 x00
    /\ vfsContentLookup v' main = Some (set_wal (Some (main ++ suffix)%string) db)
    /\ forall other, other <> main -> other <> (main ++ suffix)%string ->
         vfsContentLookup v' other = vfsContentLookup v other.
Proof.
  intros Hlen Hnone Hdb Hty Hcreate. unfold vfsOpen.
  rewrite Hnone, Hcreate, orb_true_r, Hty.
  rewrite (vfsDatabaseContentLookup_strips_four v main suffix Hlen), Hdb.
  cbn [negb assert mbind outcome_bind].
  pose proof (lookup_contents_filename _ _ _ Hdb) as Hfn. rewrite Hfn.
  set (name := (main ++ suffix)%string) in *.
  set (w := incr_refcount (vfsContentCreate name VFS__WAL)).
  set (link := set_wal (Some name)).
  assert (Hne : name <> main).
  { intros Heq. assert (Hl : String.length name = String.length main)
      by now rewrite Heq.
    unfold name in Hl. rewrite string_length_append in Hl. lia. }
  assert (Hlink : forall d, filename d = main -> filename (link d) = main)
    by (intros d Hd; exact Hd).
  assert (Hwnone : lookup_contents (update_contents (contents v) main link) name
                   = None).
  { rewrite lookup_update_contents_other by assumption. exact Hnone. }
  assert (Hlookup : forall other,
            lookup_contents (update_contents (contents v) main link ++ [w]) other
            = if String.eqb name other then Some w
              else lookup_contents (update_contents (contents v) main link) other).
  { intros other. now apply lookup_contents_app_new. }
  eexists _, w. split; [reflexivity|].
  unfold vfsContentLookup. cbn [contents]. rewrite !Hlookup, String.eqb_refl.
  repeat (split; [reflexivity|]). split.
  - destruct (String.eqb_spec name main); [contradiction|].
    now apply lookup_update_contents.
  - intros other Ho1 Ho2. rewrite Hlookup.
    destruct (String.eqb_spec name other); [congruence|].
    now apply lookup_update_contents_other.
Qed.

(** ** The lock table: what no call does *)

Lemma for_range_return_inv {S R : Type} (body : Z -> S -> outcome (ctl S R))
    (k : nat) :
  forall (i : Z) (s : S) (r : R),
    for_range body i k s = Returns (Return r) ->
    exists j t, body j t = Returns (Return r).
Proof.
  induction k as [|k IH]; intros i s r H; simpl in H; [discriminate|].
  inv_bind H. destruct a as [t|r'].
  - now apply IH in H.
  - injection H as ->. eauto.
Qed.

(** X26. Whatever a call of [vfsFileShmLock] is asked, when it returns it
    returns [SQLITE_OK] or [SQLITE_BUSY]; a release always returns
    [SQLITE_OK]; a call that returns [SQLITE_BUSY] has changed nothing (no
    lock of the range is taken when one of them cannot be); and no call
    touches the mapped regions. *)
Theorem vfsFileShmLock_all_or_nothing (s s' : vfsShm) (ofst n flags rc : Z) :
  vfsFileShmLock s ofst n flags = Returns (rc, s') ->
  (rc = SQLITE_OK \/ rc = SQLITE_BUSY)
  /\ (flag_set flags SQLITE_SHM_UNLOCK = true -> rc = SQLITE_OK)
  /\ (rc = SQLITE_BUSY -> s' = s)
  /\ regions s' = regions s.
Proof.
  intros H. pose proof (vfsFileShmLock_regions _ _ _ _ _ _ H) as Hreg.
  assert (Hneq : SQLITE_OK <> SQLITE_BUSY) by discriminate.
  unfold vfsFileShmLock in H. do 4 inv_bind H.
  assert (Hcheck : forall check act,
            (forall j t r, check j t = Returns (Return r) -> r = SQLITE_BUSY) ->
            (forall j t r, act j t <> Returns (Return r)) ->
            check_then check act ofst n s = Returns (rc, s') ->
            (rc = SQLITE_OK \/ rc = SQLITE_BUSY) /\ (rc = SQLITE_BUSY -> s' = s)).
  { clear -Hneq. intros check act Hc Ha Hrun. unfold check_then in Hrun.
    inv_bind Hrun. destruct a as [s1|r].
    - inv_bind Hrun. destruct a as [s2|r];
        [|now apply (for_range_never_returns _ Ha) in E0].
      injection Hrun as <- <-. split; [now left|]. intros Hb. congruence.
    - injection Hrun as <- <-.
      apply for_range_return_inv in E as (j & t & Hb). apply Hc in Hb.
      split; [now right|reflexivity]. }
  destruct (flag_set flags SQLITE_SHM_UNLOCK).
  - inv_bind H. destruct a3 as [t|r];
      [|now apply (for_range_never_returns _ (shm_unlock_body_goes_on _)) in E3].
    injection H as <- <-. split; [now left|]. split; [reflexivity|].
    split; [intros Hb; congruence|assumption].
  - destruct (flag_set flags SQLITE_SHM_EXCLUSIVE); apply Hcheck in H.
    + destruct H as [H1 H2]. split; [assumption|].
      split; [discriminate|]. now split.
    + intros j t r Hb. unfold shm_excl_check_body in Hb. inv_bind Hb.
      destruct (0 <? a3); [now injection Hb as <-|]. inv_bind Hb.
      destruct (0 <? a4); [now injection Hb as <-|discriminate].
    + apply shm_excl_set_body_goes_on.
    + destruct H as [H1 H2]. split; [assumption|].
      split; [discriminate|]. now split.
    + intros j t r Hb. unfold shm_shared_check_body in Hb. inv_bind Hb.
      destruct (0 <? a3); [now injection Hb as <-|discriminate].
    + intros j t r Hb. unfold shm_shared_incr_body in Hb. do 2 inv_bind Hb.
      discriminate.
Qed.

End Vfs.

(** * Concrete runs *)

(** The two contents of "db-wal" above are what the file methods produce. *)
Example example_wal_header_written :
  (v ← example_write_wal_header 16; Returns (vfsContentLookup v "db-wal"))
  = Returns (Some example_wal_header_only).
Proof. vm_compute. reflexivity. Qed.

Example example_wal_frame_written :
  (v ← example_write_wal_frame 16; Returns (vfsContentLookup v "db-wal"))
  = Returns (Some example_wal_one_frame).
Proof. vm_compute. reflexivity. Qed.

(** Reading 24 + 512 bytes at offset 32 of "db-wal" yields the header of
    the first frame followed by its page. *)
Example wal_frame_round_trip :
  (v ← example_write_wal_frame 16;
   r ← xRead v example_wal_handle 536 32;
   Returns (r.1.1, r.1.2))
  = Returns (SQLITE_OK, example_frame_header ++ example_db_page).
Proof. vm_compute. reflexivity. Qed.

(** Scenario: an exclusive lock on slot 0 keeps shared locks out, and a
    shared lock keeps exclusive locks out. *)
Example lock_contention :
  exists s1 s2 s3,
    vfsFileShmLock 16 (vfsShmInit 16) 0 1 10 = Returns (SQLITE_OK, s1)
    /\ vfsFileShmLock 16 s1 0 1 6 = Returns (SQLITE_BUSY, s1)
    /\ vfsFileShmLock 16 s1 0 1 9 = Returns (SQLITE_OK, s2)
    /\ vfsFileShmLock 16 s2 0 1 6 = Returns (SQLITE_OK, s3)
    /\ vfsFileShmLock 16 s3 0 1 10 = Returns (SQLITE_BUSY, s3).
Proof. do 3 eexists. repeat split; vm_compute; reflexivity. Qed.

Lemma shm_counts_never_both_positive_witness :
  exists s,
    shm_run 16 [(0, 1, 10); (0, 1, 6); (0, 1, 9); (0, 1, 6); (3, 2, 10)]
            (vfsShmInit 16) = Returns s
    /\ exists sh ex : Z,
         shared s !! Z.to_nat 3 = Some sh
         /\ exclusive s !! Z.to_nat 3 = Some ex
         /\ 0 <= sh /\ 0 <= ex /\ ~ (0 < sh /\ 0 < ex).
Proof.
  eexists. split; [vm_compute; reflexivity|].
  apply (shm_counts_never_both_positive 16
           [(0, 1, 10); (0, 1, 6); (0, 1, 9); (0, 1, 6); (3, 2, 10)]);
    [vm_compute; reflexivity|lia].
Defined.

Lemma shm_exclusive_count_is_zero_or_one_witness :
  exists s,
    shm_run 16 [(0, 1, 10); (0, 1, 6); (0, 1, 9); (0, 1, 6); (3, 2, 10)]
            (vfsShmInit 16) = Returns s
    /\ (forall (i : nat) (ex : Z), exclusive s !! i = Some ex -> ex = 0 \/ ex = 1)
    /\ (forall (ofst n rc : Z) (s' : vfsShm),
          vfsFileShmLock 16 s ofst n (Z.lor SQLITE_SHM_UNLOCK SQLITE_SHM_EXCLUSIVE)
          = Returns (rc, s') ->
          rc = SQLITE_OK
          /\ shared s' = shared s
          /\ forall i : nat,
               exclusive s' !! i
               = if in_range ofst n i then Some 0 else exclusive s !! i)
    /\ (forall ofst n : Z,
          0 <= ofst -> 1 <= n -> ofst + n <= 16 ->
          (forall i, ofst <= i < ofst + n -> shared s !! Z.to_nat i = Some 0) ->
          exists s',
            vfsFileShmLock 16 s ofst n (Z.lor SQLITE_SHM_UNLOCK SQLITE_SHM_EXCLUSIVE)
            = Returns (SQLITE_OK, s')).
Proof.
  eexists. split; [vm_compute; reflexivity|].
  apply (shm_exclusive_count_is_zero_or_one 16
           [(0, 1, 10); (0, 1, 6); (0, 1, 9); (0, 1, 6); (3, 2, 10)]).
  vm_compute; reflexivity.
Defined.

(** A lock table with two shared locks on slot 3. *)
Lemma unlock_shared_twice_witness :
  let s := {| regions := [];
              shared := <[3%nat := 2]> (replicate 16 0);
              exclusive := replicate 16 0 |} in
  shm_wf 16 s
  /\ 0 <= 3 /\ 1 = 1 /\ 3 + 1 <= 16
  /\ (forall i, 3 <= i < 3 + 1 -> exclusive s !! Z.to_nat i = Some 0)
  /\ exists s1 s2 : vfsShm,
       vfsFileShmLock 16 s 3 1 (Z.lor SQLITE_SHM_UNLOCK SQLITE_SHM_SHARED)
       = Returns (SQLITE_OK, s1)
       /\ vfsFileShmLock 16 s1 3 1 (Z.lor SQLITE_SHM_UNLOCK SQLITE_SHM_SHARED)
          = Returns (SQLITE_OK, s2)
       /\ exclusive s1 = exclusive s /\ exclusive s2 = exclusive s
       /\ (forall (i : nat) (x : Z), shared s1 !! i = Some x -> 0 <= x)
       /\ (forall (i : nat) (x : Z), shared s2 !! i = Some x -> 0 <= x)
       /\ (forall i : nat, shared s1 !! i = Some 0 -> shared s2 !! i = Some 0)
       /\ ((forall i, 3 <= i < 3 + 1 -> shared s1 !! Z.to_nat i = Some 0) ->
           s2 = s1).
Proof.
  intros s.
  assert (Hwf : shm_wf 16 s).
  { split; [reflexivity|]. split; [reflexivity|].
    split; intros i x H;
      do 16 (destruct i as [|i];
             [injection H as <-; unfold UINT_MODULUS; simpl; lia|]);
      discriminate H. }
  assert (Hfree : forall i, 3 <= i < 3 + 1 -> exclusive s !! Z.to_nat i = Some 0).
  { intros i Hi. replace i with 3 by lia. reflexivity. }
  split; [exact Hwf|]. split; [lia|]. split; [reflexivity|]. split; [lia|].
  split; [exact Hfree|].
  apply (unlock_shared_twice 16 s 3 1 Hwf); [lia|reflexivity|lia|exact Hfree].
Defined.

Lemma database_page_size_decoding_witness :
  example_db_page !! 16%nat = Some x02
  /\ example_db_page !! 17%nat = Some x00
  /\ let stored := stored_page_size x02 x00 in
     (stored = 1 -> formatDatabaseGetPageSize example_db_page = Returns 65536)
     /\ (is_power_of_two stored -> 512 <= stored <= 32768 ->
         formatDatabaseGetPageSize example_db_page = Returns stored)
     /\ (stored <> 1 -> ~ (is_power_of_two stored /\ 512 <= stored <= 32768) ->
         formatDatabaseGetPageSize example_db_page = Returns 0
         /\ forall (v : vfs) (c : vfsContent) (amount : Z),
              type c = VFS__DATABASE -> 0 < refcount c ->
              FORMAT__DB_HDR_SIZE <= amount ->
              exists rc, vfsFileWrite v c example_db_page amount 0 = Returns (rc, c)
                         /\ rc <> SQLITE_OK).
Proof.
  split; [reflexivity|]. split; [reflexivity|].
  apply (database_page_size_decoding example_db_page x02 x00); reflexivity.
Defined.


Example pragma_page_size_change_refused :
  vfsFileControlPragma example_wal_header_only "page_size" (Some "4096"%string)
  = (SQLITE_IOERR, example_wal_header_only,
     Some "changing page size is not supported"%string)
  /\ vfsFileControlPragma example_wal_header_only "page_size" (Some "512"%string)
     = (SQLITE_NOTFOUND, example_wal_header_only, None)
  /\ vfsFileControlPragma example_wal_header_only "page_size" (Some "1000"%string)
     = (SQLITE_NOTFOUND, example_wal_header_only, None).
Proof. repeat split. Qed.

(** A number that an [int] cannot hold is read modulo 2^32: on a file
    with pages of 512 bytes the text 4294971392 is read as 4096, a change
    of page size, and refused. *)
Example pragma_page_size_out_of_int_range :
  number_written "4294971392" = 2 ^ 32 + 4096
  /\ atoi "4294971392" = 4096
  /\ vfsFileControlPragma example_wal_header_only "page_size"
       (Some "4294971392"%string)
     = (SQLITE_IOERR, example_wal_header_only,
        Some "changing page size is not supported"%string).
Proof. repeat split. Qed.

(** A registry holding "db" with one open handle. *)
Lemma delete_busy_or_destroyed_witness :
  let c := incr_refcount (vfsContentCreate 16 "db" VFS__DATABASE) in
  let v := {| contents := [c]; error := 0 |} in
  vfsContentLookup v "db" = Some c
  /\ (0 < refcount c ->
      exists v', vfsDelete v "db" 0 = (SQLITE_IOERR_DELETE, v')
                 /\ vfsGetLastError v' = EBUSY
                 /\ contents v' = contents v
                 /\ vfsContentLookup v' "db" = Some c)
  /\ (refcount c = 0 ->
      exists v', vfsDelete v "db" 0 = (SQLITE_OK, v')
                 /\ (forall other, other <> "db"%string ->
                       vfsContentLookup v' other = vfsContentLookup v other)
                 /\ (names_unique v ->
                     vfsContentLookup v' "db" = None
                     /\ vfsAccess v' "db" 0 = (SQLITE_OK, 0))).
Proof.
  intros c v. split; [reflexivity|].
  apply (delete_busy_or_destroyed v "db" c 0 0). reflexivity.
Defined.

(** With one handle open on "db", a delete returns [SQLITE_IOERR_DELETE],
    an extended code of [SQLITE_IOERR], not [SQLITE_BUSY]; the busy code
    [EBUSY] is what the last-error query reports. *)
Lemma delete_busy_or_destroyed_counterexample :
  exists v f v',
    vfsOpen 16 (vfsCreate 0) "db" (Z.lor example_open_flags SQLITE_OPEN_MAIN_DB)
    = Returns (SQLITE_OK, v, Some f)
    /\ vfsDelete v "db" 0 = (SQLITE_IOERR_DELETE, v')
    /\ SQLITE_IOERR_DELETE <> SQLITE_BUSY
    /\ Z.land SQLITE_IOERR_DELETE 255 = SQLITE_IOERR
    /\ SQLITE_IOERR <> SQLITE_BUSY
    /\ vfsGetLastError v' = EBUSY
    /\ contents v' = contents v.
Proof.
  do 3 eexists. split; [reflexivity|]. split; [reflexivity|].
  repeat split; discriminate.
Qed.

(** Scenario: delete is refused while "db" is open and succeeds once the
    handle is closed, after which the file is absent. *)
Example delete_busy_then_ok :
  exists v1 f v2 v3 v4,
    vfsOpen 16 (vfsCreate 0) "db" (Z.lor example_open_flags SQLITE_OPEN_MAIN_DB)
    = Returns (SQLITE_OK, v1, Some f)
    /\ vfsDelete v1 "db" 0 = (SQLITE_IOERR_DELETE, v2)
    /\ vfsGetLastError v2 = EBUSY
    /\ vfsFileClose 16 v2 f = Returns (SQLITE_OK, v3)
    /\ vfsDelete v3 "db" 0 = (SQLITE_OK, v4)
    /\ vfsAccess v4 "db" 0 = (SQLITE_OK, 0).
Proof. do 5 eexists. repeat split; vm_compute; reflexivity. Qed.

Lemma open_wal_without_database_witness :
  let flags := Z.lor example_open_flags SQLITE_OPEN_WAL in
  vfsContentLookup (vfsCreate 0) ("db" ++ "-wal") = None
  /\ vfsContentLookup (vfsCreate 0) "db" = None
  /\ open_type flags = Some VFS__WAL
  /\ negb (flag_set flags SQLITE_OPEN_EXCLUSIVE) || flag_set flags SQLITE_OPEN_CREATE
     = true
  /\ exists rc e,
       vfsOpen 16 (vfsCreate 0) ("db" ++ "-wal") flags
       = Returns (rc, set_error e (vfsCreate 0), None)
       /\ contents (set_error e (vfsCreate 0)) = contents (vfsCreate 0)
       /\ (if flag_set flags SQLITE_OPEN_CREATE
           then rc = SQLITE_CORRUPT /\ e = ENOMEM
           else rc = SQLITE_CANTOPEN /\ e = ENOENT).
Proof.
  intros flags. repeat (split; [reflexivity|]).
  apply (open_wal_without_database 16 (vfsCreate 0) "db" flags); reflexivity.
Defined.

(** Opening "db-wal" with the create flag in an empty registry: the status
    is [SQLITE_CORRUPT], not [SQLITE_CANTOPEN]. *)
Lemma open_wal_without_database_counterexample :
  vfsContentLookup (vfsCreate 0) "db" = None
  /\ vfsOpen 16 (vfsCreate 0) "db-wal" (Z.lor example_open_flags SQLITE_OPEN_WAL)
     = Returns (SQLITE_CORRUPT, set_error ENOMEM (vfsCreate 0), None)
  /\ SQLITE_CORRUPT <> SQLITE_CANTOPEN.
Proof. split; [reflexivity|]. split; [reflexivity|discriminate]. Qed.

Lemma wal_truncate_witness :
  type example_wal_one_frame = VFS__WAL
  /\ (pages example_wal_one_frame <> [] -> 0 < page_size example_wal_one_frame ->
      (0 <> 0 ->
       vfsFileTruncate example_wal_one_frame 0
       = Returns (SQLITE_PROTOCOL, example_wal_one_frame))
      /\ (0 = 0 ->
          exists c', vfsFileTruncate example_wal_one_frame 0 = Returns (SQLITE_OK, c')
                     /\ wal_hdr c' = zeros FORMAT__WAL_HDR_SIZE
                     /\ pages c' = []
                     /\ vfsContentIsEmpty c' = Returns true
                     /\ filename c' = filename example_wal_one_frame
                     /\ type c' = type example_wal_one_frame
                     /\ page_size c' = page_size example_wal_one_frame
                     /\ refcount c' = refcount example_wal_one_frame))
  /\ (pages example_wal_one_frame = [] ->
      (0 < 0 ->
       vfsFileTruncate example_wal_one_frame 0
       = Returns (SQLITE_IOERR_TRUNCATE, example_wal_one_frame))
      /\ (0 = 0 ->
          vfsFileTruncate example_wal_one_frame 0
          = Returns (SQLITE_OK, example_wal_one_frame))).
Proof.
  split; [reflexivity|].
  apply (wal_truncate example_wal_one_frame 0). reflexivity.
Defined.

Example truncate_wal_with_one_frame :
  vfsFileTruncate example_wal_one_frame 4096
  = Returns (SQLITE_PROTOCOL, example_wal_one_frame)
  /\ vfsFileTruncate example_wal_one_frame 0
     = Returns (SQLITE_OK,
                set_wal_hdr (zeros FORMAT__WAL_HDR_SIZE) example_wal_header_only).
Proof. split; reflexivity. Qed.

(** On "db-wal" with its header written and no frame yet, a truncation to
    4096 bytes is refused with [SQLITE_IOERR_TRUNCATE], not with
    [SQLITE_PROTOCOL], and a truncation to zero leaves the header buffer as
    it was written, not zeroed. *)
Lemma wal_truncate_counterexample :
  type example_wal_header_only = VFS__WAL
  /\ vfsFileTruncate example_wal_header_only 4096
     = Returns (SQLITE_IOERR_TRUNCATE, example_wal_header_only)
  /\ SQLITE_IOERR_TRUNCATE <> SQLITE_PROTOCOL
  /\ vfsFileTruncate example_wal_header_only 0
     = Returns (SQLITE_OK, example_wal_header_only)
  /\ wal_hdr example_wal_header_only <> zeros FORMAT__WAL_HDR_SIZE.
Proof. repeat split; discriminate. Qed.

Lemma wal_read_header_checksum_witness :
  type example_wal_one_frame = VFS__WAL
  /\ pages example_wal_one_frame <> []
  /\ 0 < page_size example_wal_one_frame
  /\ 0 < refcount example_wal_one_frame
  /\ length (wal_hdr example_wal_one_frame) = 32%nat
  /\ exists data,
       vfsFileRead (vfsCreate 0) example_wal_one_frame 8 24
       = Returns (SQLITE_OK, data, example_wal_one_frame)
       /\ length data = 8%nat
       /\ forall k : nat, (k < 8)%nat ->
            data !! k = wal_hdr example_wal_one_frame !! (24 + k)%nat.
Proof.
  split; [reflexivity|]. split; [discriminate|].
  split; [reflexivity|]. split; [reflexivity|]. split; [reflexivity|].
  apply (wal_read_header_checksum (vfsCreate 0) example_wal_one_frame);
    try reflexivity.
  discriminate.
Defined.

(** Reading 8 bytes at offset 24 of "db-wal" yields bytes [24,32) of its
    header, which differ from bytes [16,24). *)
Lemma wal_read_header_checksum_counterexample :
  vfsFileRead (vfsCreate 0) example_wal_one_frame 8 24
  = Returns (SQLITE_OK, [xc1; xc2; xc3; xc4; xd1; xd2; xd3; xd4],
             example_wal_one_frame)
  /\ take 8 (drop 16 (wal_hdr example_wal_one_frame))
     = [xa1; xa2; xa3; xa4; xb1; xb2; xb3; xb4]
  /\ [xc1; xc2; xc3; xc4; xd1; xd2; xd3; xd4]
     <> take 8 (drop 16 (wal_hdr example_wal_one_frame)).
Proof. split; [reflexivity|]. split; [reflexivity|discriminate]. Qed.




(** ** Concrete instances of the further properties *)

(** The registry [example_registry] is what opening "db" and writing its
    first page builds. *)
Example example_registry_built :
  (r ← vfsOpen 16 (vfsCreate 0) "db" (Z.lor example_open_flags SQLITE_OPEN_MAIN_DB);
   xWrite r.1.2 (example_db_handle) example_db_page 512 0)
  = Returns (SQLITE_OK, example_registry 16).
Proof. vm_compute. reflexivity. Qed.

Lemma formatGet32_formatPut32_witness :
  formatGet32 (formatPut32 305419896) = Returns 305419896
  /\ (formatGet32 [x12; x34; x56; x78] = Returns 305419896 ->
      formatPut32 305419896 = [x12; x34; x56; x78]).
Proof.
  apply (formatGet32_formatPut32 305419896 x12 x34 x56 x78).
  change (2 ^ 32) with 4294967296. lia.
Defined.

Lemma wal_page_size_decoding_witness :
  formatWalGetPageSize example_wal_header = Returns 512.
Proof.
  destruct (wal_page_size_decoding example_wal_header x00 x00 x02 x00
              eq_refl eq_refl eq_refl eq_refl) as (_ & H & _).
  apply H; [exists 9; split; [lia|reflexivity]|].
  change (byte_val x00) with 0. change (byte_val x02) with 2.
  change (2 ^ 8) with 256. lia.
Defined.

Lemma formatWalChecksumBytes_extends_witness :
  formatWalChecksumBytes true true
    (take 8 example_wal_header ++ drop 8 (take 24 example_wal_header))
    (8 + 16) None
  = (r ← formatWalChecksumBytes true true (take 8 example_wal_header) 8 None;
     formatWalChecksumBytes true true (drop 8 (take 24 example_wal_header)) 16
       (Some r)).
Proof.
  apply formatWalChecksumBytes_extends;
    [lia|reflexivity|lia|reflexivity|lia|reflexivity].
Defined.

Lemma formatWalRestartHeader_spec_witness :
  exists header',
    formatWalRestartHeader true (x01, x02, x03, x04) example_wal_header
    = Returns header'
    /\ length header' = 32%nat
    /\ take 12 header' = take 12 example_wal_header
    /\ take 4 (drop 20 header') = [x01; x02; x03; x04].
Proof.
  destruct (formatWalRestartHeader_spec true (x01, x02, x03, x04)
              example_wal_header eq_refl)
    as (header' & cp & s1 & ck & H1 & H2 & H3 & _ & _ & _ & _ & _ & H9 & _).
  exists header'. repeat split; assumption.
Defined.

Lemma vfsShmInit_free (j : Z) :
  0 <= j < 16 ->
  shared (vfsShmInit 16) !! Z.to_nat j = Some 0
  /\ exclusive (vfsShmInit 16) !! Z.to_nat j = Some 0.
Proof.
  intros Hj. split; apply lookup_replicate_2; lia.
Qed.

Lemma lock_exclusive_all_or_nothing_witness :
  exists s',
    vfsFileShmLock 16 (vfsShmInit 16) 3 2
      (Z.lor SQLITE_SHM_LOCK SQLITE_SHM_EXCLUSIVE)
    = Returns (SQLITE_OK, s')
    /\ shared s' = shared (vfsShmInit 16)
    /\ exclusive s' !! 3%nat = Some 1 /\ exclusive s' !! 4%nat = Some 1
    /\ exclusive s' !! 5%nat = Some 0.
Proof.
  destruct (lock_exclusive_all_or_nothing 16 (vfsShmInit 16) 3 2
              (shm_inv_init 16)) as [Hfree _]; [lia|lia|lia|].
  destruct Hfree as (s' & H & _ & Hsh & Hex).
  { intros j Hj. apply vfsShmInit_free. lia. }
  exists s'. split; [assumption|]. split; [assumption|].
  rewrite !Hex. repeat split.
Defined.

Lemma lock_unlock_exclusive_witness :
  exists s',
    vfsFileShmLock 16 (vfsShmInit 16) 3 2
      (Z.lor SQLITE_SHM_LOCK SQLITE_SHM_EXCLUSIVE)
    = Returns (SQLITE_OK, s')
    /\ vfsFileShmLock 16 s' 3 2 (Z.lor SQLITE_SHM_UNLOCK SQLITE_SHM_EXCLUSIVE)
       = Returns (SQLITE_OK, vfsShmInit 16).
Proof.
  apply (lock_unlock_exclusive 16 (vfsShmInit 16) 3 2 (shm_inv_init 16));
    [lia|lia|lia|].
  intros j Hj. apply vfsShmInit_free. lia.
Defined.

Lemma lock_shared_result_witness :
  exists rc s',
    vfsFileShmLock 16 (vfsShmInit 16) 3 1 (Z.lor SQLITE_SHM_LOCK SQLITE_SHM_SHARED)
    = Returns (rc, s')
    /\ (0 < 0 -> rc = SQLITE_BUSY /\ s' = vfsShmInit 16)
    /\ (0 <= 0 ->
        rc = SQLITE_OK
        /\ shared s' !! Z.to_nat 3 = Some ((0 + 1) mod 2 ^ 32)
        /\ (forall i : nat, i <> Z.to_nat 3 ->
                            shared s' !! i = shared (vfsShmInit 16) !! i)
        /\ exclusive s' = exclusive (vfsShmInit 16)
        /\ regions s' = regions (vfsShmInit 16)).
Proof.
  apply (lock_shared_result 16 (vfsShmInit 16) 3 0 0);
    [lia|lia|reflexivity|reflexivity|reflexivity].
Defined.

Lemma lock_unlock_shared_witness :
  exists s',
    vfsFileShmLock 16 (vfsShmInit 16) 3 1 (Z.lor SQLITE_SHM_LOCK SQLITE_SHM_SHARED)
    = Returns (SQLITE_OK, s')
    /\ vfsFileShmLock 16 s' 3 1 (Z.lor SQLITE_SHM_UNLOCK SQLITE_SHM_SHARED)
       = Returns (SQLITE_OK, vfsShmInit 16).
Proof.
  apply (lock_unlock_shared 16 (vfsShmInit 16) 3 0);
    [lia|lia|reflexivity|reflexivity|reflexivity|].
  change (2 ^ 32) with 4294967296. lia.
Defined.

Lemma maybe_checkpoint_locks_probe_witness :
  maybe_checkpoint_locks 16 (vfsShmInit 16) = Returns (Continue (vfsShmInit 16)).
Proof.
  apply (maybe_checkpoint_locks_probe 16 (vfsShmInit 16) (shm_inv_init 16)).
  intros j Hj. apply vfsShmInit_free. lia.
Defined.


Lemma database_write_then_read_witness :
  exists c',
    vfsFileWrite (example_registry 16) (example_database 16)
      (replicate 512 x01) 512 512
    = Returns (SQLITE_OK, c')
    /\ n_pages c' = 2
    /\ vfsFileRead (example_registry 16) c' 512 512
       = Returns (SQLITE_OK, replicate 512 x01, c').
Proof.
  destruct (database_write_then_read (example_registry 16) (example_database 16)
              (replicate 512 x01) 1)
    as (c' & Hw & Hn & _ & Hr);
    [reflexivity|reflexivity|reflexivity|split; discriminate|reflexivity
    |discriminate|discriminate|].
  exists c'. repeat split; assumption.
Defined.

Lemma database_write_refused_witness :
  vfsFileWrite (example_registry 16) (example_database 16) [] 512 2560
  = Returns (SQLITE_IOERR_WRITE, example_database 16).
Proof.
  destruct (database_write_refused (example_registry 16) (example_database 16)
              [] 512 2560 5) as [_ H];
    [reflexivity|reflexivity|reflexivity|].
  apply H; reflexivity.
Defined.

Lemma database_truncate_witness :
  vfsFileTruncate (example_database 16) 100
  = Returns (SQLITE_IOERR_TRUNCATE, example_database 16)
  /\ exists c',
       vfsFileTruncate (example_database 16) 0 = Returns (SQLITE_OK, c')
       /\ pages c' = []
       /\ vfsFileSize c' = Returns (SQLITE_OK, 0).
Proof.
  destruct (database_truncate (example_database 16) 100 0) as [Hrem Hk];
    [reflexivity|reflexivity|reflexivity|reflexivity|].
  split; [apply Hrem; discriminate|].
  destruct Hk as (c' & Ht & Hp & _ & Hs); [split; discriminate|].
  exists c'. repeat split; assumption.
Defined.

Lemma vfsFileShmMap_extend_witness :
  vfsFileShmMap (example_database 16) 0 32768 0
  = Returns (SQLITE_OK, None, example_database 16)
  /\ exists c',
       vfsFileShmMap (example_database 16) 0 32768 1
       = Returns (SQLITE_OK, Some (zeros 32768), c')
       /\ vfsFileShmMap c' 0 32768 0 = Returns (SQLITE_OK, Some (zeros 32768), c').
Proof.
  destruct (vfsFileShmMap_extend (example_database 16) 0 32768) as [Hno Hext];
    [reflexivity|discriminate|].
  split; [assumption|].
  destruct (Hext 1) as (c' & Hm & _ & _ & _ & _ & Hagain);
    [discriminate|reflexivity|reflexivity|].
  exists c'. split; [assumption|apply Hagain].
Defined.

Lemma vfsFileClose_releases_witness :
  exists v' c',
    vfsFileClose 16 (example_registry 16) example_db_handle
    = Returns (SQLITE_OK, v')
    /\ vfsContentLookup v' "db" = Some c'
    /\ refcount c' = 1 - 1
    /\ pages c' = pages (example_database 16).
Proof.
  destruct (vfsFileClose_releases 16 (example_registry 16) example_db_handle
              (example_database 16))
    as (v' & c' & Hc & Hl & Hr & Hp & _);
    [reflexivity|reflexivity|reflexivity|].
  exists v', c'. repeat split; assumption.
Defined.

Lemma vfsFileClose_delete_on_close_witness :
  exists v',
    vfsFileClose 16 (example_registry 16)
      {| content := "db"; flags := SQLITE_OPEN_DELETEONCLOSE |}
    = Returns (SQLITE_OK, v')
    /\ vfsContentLookup v' "db" = None.
Proof.
  destruct (vfsFileClose_delete_on_close 16 (example_registry 16)
              {| content := "db"; flags := SQLITE_OPEN_DELETEONCLOSE |}
              (example_database 16)) as [Hlast _];
    [reflexivity|reflexivity|reflexivity|].
  destruct (Hlast eq_refl) as (v' & Hc & Hnone & _).
  exists v'. split; [assumption|]. apply Hnone.
  unfold names_unique. simpl. apply NoDup_singleton.
Defined.

Lemma vfsOpen_then_close_witness :
  exists v' f,
    vfsOpen 16 (example_registry 16) "db" 2 = Returns (SQLITE_OK, v', Some f)
    /\ vfsFileClose 16 v' f = Returns (SQLITE_OK, example_registry 16).
Proof.
  apply (vfsOpen_then_close 16 (example_registry 16) "db" 2 (example_database 16));
    [reflexivity|split; [discriminate|reflexivity]|discriminate
    |reflexivity|reflexivity].
Defined.

Lemma vfsOpen_new_file_witness :
  exists v' c',
    vfsOpen 16 (vfsCreate 0) "db" (Z.lor example_open_flags SQLITE_OPEN_MAIN_DB)
    = Returns (SQLITE_OK, v',
               Some {| content := "db";
                       flags := Z.lor example_open_flags SQLITE_OPEN_MAIN_DB |})
    /\ vfsContentLookup v' "db" = Some c'
    /\ refcount c' = 1 /\ pages c' = []
    /\ vfsAccess v' "db" 0 = (SQLITE_OK, 1).
Proof.
  destruct (vfsOpen_new_file 16 (vfsCreate 0) "db"
              (Z.lor example_open_flags SQLITE_OPEN_MAIN_DB) 0 VFS__DATABASE)
    as [_ Hcreate]; [reflexivity|reflexivity|].
  destruct Hcreate as (v' & c' & Ho & Hl & _ & Hr & Hp & _ & Ha & _);
    [reflexivity|reflexivity|discriminate|].
  exists v', c'. repeat split; assumption.
Defined.

Lemma vfs_reachable_names_unique_witness : names_unique (example_registry 16).
Proof.
  apply (vfs_reachable_names_unique 16).
  apply (reachable_written 16
           {| contents := [incr_refcount (vfsContentCreate 16 "db" VFS__DATABASE)];
              error := 0 |}
           (example_registry 16) example_db_handle example_db_page 512 0
           SQLITE_OK).
  - apply (reachable_opened 16 (vfsCreate 0) _ "db"
             (Z.lor example_open_flags SQLITE_OPEN_MAIN_DB) SQLITE_OK
             (Some example_db_handle)).
    + apply reachable_created.
    + vm_compute. reflexivity.
  - vm_compute. reflexivity.
Defined.

Lemma database_read_first_page_witness :
  vfsFileRead (example_registry 16) (example_database 16) 100 0
  = Returns (SQLITE_OK, take 100 (drop 0 example_db_page), example_database 16).
Proof.
  apply (database_read_first_page (example_registry 16) (example_database 16)
           {| buf := example_db_page; hdr := None |} 100 0);
    try reflexivity; discriminate.
Defined.

Lemma database_read_past_end_witness :
  vfsFileRead (example_registry 16) (example_database 16) 512 512 = Aborts.
Proof.
  apply (database_read_past_end (example_registry 16) (example_database 16) 1);
    try reflexivity; discriminate.
Defined.

Lemma vfsFileControlPragma_result_witness :
  let c := vfsContentCreate 16 "db" VFS__DATABASE in
  vfsFileControlPragma c "page_size" (Some "4096"%string)
  = (SQLITE_NOTFOUND, set_page_size 4096 c, None)
  /\ 512 <= 4096 <= 65536 /\ is_power_of_two 4096.
Proof.
  intros c. split; [reflexivity|].
  destruct (vfsFileControlPragma_result c (set_page_size 4096 c)
              "page_size" (Some "4096"%string) None SQLITE_NOTFOUND eq_refl)
    as (_ & _ & _ & H).
  apply H. discriminate.
Defined.

Lemma wal_read_frame_checksum_witness :
  vfsFileRead (example_registry 16) example_wal_one_frame 8 (32 + 16)
  = Returns (SQLITE_OK, [xe1; xe2; xe3; xe4; xf1; xf2; xf3; xf4],
             example_wal_one_frame).
Proof.
  apply (wal_read_frame_checksum (example_registry 16) example_wal_one_frame
           {| buf := example_db_page; hdr := Some example_frame_header |}
           example_frame_header 1);
    try reflexivity. split; [discriminate|reflexivity].
Defined.

Lemma vfsOpen_wal_links_database_witness :
  exists v' w,
    vfsOpen 16 (example_registry 16) "db-wal"
      (Z.lor example_open_flags SQLITE_OPEN_WAL)
    = Returns (SQLITE_OK, v', Some example_wal_handle)
    /\ vfsContentLookup v' "db-wal" = Some w
    /\ type w = VFS__WAL
    /\ vfsContentLookup v' "db"
       = Some (set_wal (Some "db-wal"%string) (example_database 16)).
Proof.
  destruct (vfsOpen_wal_links_database 16 (example_registry 16) "db" "-wal"
              (Z.lor example_open_flags SQLITE_OPEN_WAL) (example_database 16))
    as (v' & w & Ho & Hl & Ht & _ & _ & _ & _ & Hd & _);
    try reflexivity.
  exists v', w. repeat split; assumption.
Defined.

Lemma vfsFileShmLock_all_or_nothing_witness :
  exists s',
    vfsFileShmLock 16 (vfsShmInit 16) 0 1 10 = Returns (SQLITE_OK, s')
    /\ regions s' = regions (vfsShmInit 16).
Proof.
  eexists. split; [vm_compute; reflexivity|].
  eapply (vfsFileShmLock_all_or_nothing 16 (vfsShmInit 16) _ 0 1 10 SQLITE_OK).
  vm_compute. reflexivity.
Defined.
